(** * Scale calibration and spatial measurement: analyzer.py and main.py

    A shallow embedding of the measurement pipeline of the backend:

    - [analyzer.find_a4_calibration] (the calibration-target locator),
    - [analyzer.estimate_scale_from_reference_objects] (the reference-object
      scale estimator),
    - [analyzer.detect_defects] (the per-image measurement synthesizer),
    - [main.reconstruct_room] (the multi-image fuser), as defined at
      main.py:72-143. main.py defines a second function of that name at line
      1005 (the "legacy" endpoint); FastAPI registers both for
      [POST /reconstruct-room] and serves the one registered first, which is
      the one embedded here.

    Conventions of the embedding.

    - Python numbers ([int] and [float]) are exact rationals [Q]; the
      rounding of binary64 arithmetic is outside the model, except for the
      floor estimate of [detect_defects], which module [binary64] evaluates
      as the interpreter does. Values that the code copies are compared
      with [=], computed values with [==].
    - A Python [/] whose divisor is a variable is [truediv], which raises
      [ZeroDivisionError] on a zero divisor, as CPython does for [int] and
      [float] operands. Divisors that are non-zero literals use [Qdiv].
    - Code that can raise lives in the error monad [result].
    - The collaborators (OpenCV, the CLIP classifier, the two YOLO models)
      are not modelled: what they return for an image is part of the input
      ([contour], [yolo_box], [scene]).
    - A dict read with [.get(key, default)] is a record of [option] fields,
      [None] standing for an absent key.
    - The two [reconstruct_room] handlers first copy each upload to
      [temp_<filename>]; that write is not modelled, so what is stated of
      them holds of calls that get past it. *)

From Stdlib Require Import ZArith QArith Qabs Qround Qminmax Lqa Lia.
From Stdlib Require Import List String Ascii Bool.
Import ListNotations.

Local Open Scope Q_scope.

(** ** Python primitives *)

Module Py.

Inductive exn : Type :=
| ZeroDivisionError
| ValueError
| IndexError
| KeyError
| TypeError.

Inductive result (A : Type) : Type :=
| Ok (a : A)
| Raise (e : exn).

Arguments Ok {A} a.
Arguments Raise {A} e.

Definition bind {A B : Type} (c : result A) (k : A -> result B) : result B :=
  match c with
  | Ok a => k a
  | Raise e => Raise e
  end.

Definition is_some {A : Type} (o : option A) : bool :=
  match o with
  | Some _ => true
  | None => false
  end.

(** [d.get(key, default)] on an optional field. *)
Definition get {A : Type} (field : option A) (default : A) : A :=
  match field with
  | Some v => v
  | None => default
  end.

(** [x < y] on numbers. *)
Definition Qltb (x y : Q) : bool := negb (Qle_bool y x).

(** [x / y]: CPython raises on a zero divisor. *)
Definition truediv (x y : Q) : result Q :=
  if Qeq_bool y 0 then Raise ZeroDivisionError else Ok (x / y).

(** [max(a, b)], [min(a, b)]: the first argument is kept unless the second
    is strictly greater (smaller). *)
Definition max2 (a b : Q) : Q := if Qltb a b then b else a.
Definition min2 (a b : Q) : Q := if Qltb b a then b else a.

(** [max(iterable, key=key)]: the running maximum is replaced only by a
    strictly greater key, so the first maximal element wins; the empty
    iterable raises [ValueError]. *)
Fixpoint max_from {A : Type} (key : A -> Q) (best : A) (rest : list A) : A :=
  match rest with
  | [] => best
  | x :: rest' =>
      if Qltb (key best) (key x) then max_from key x rest'
      else max_from key best rest'
  end.

Definition max_by {A : Type} (key : A -> Q) (l : list A) : result A :=
  match l with
  | [] => Raise ValueError
  | x :: rest => Ok (max_from key x rest)
  end.

(** [max(a, b, c)]. *)
Definition max3 (a b c : Q) : Q := max2 (max2 a b) c.

(** A [dict] with string keys whose iteration order matters: an association
    list in insertion order. *)
Fixpoint dict_get {V : Type} (k : string) (d : list (string * V)) : option V :=
  match d with
  | [] => None
  | (k', v) :: rest => if String.eqb k' k then Some v else dict_get k rest
  end.

(** [d[k] = v]: an existing key keeps its place, a new key goes last. *)
Fixpoint dict_set {V : Type} (k : string) (v : V) (d : list (string * V))
  : list (string * V) :=
  match d with
  | [] => [(k, v)]
  | (k', v') :: rest =>
      if String.eqb k' k then (k', v) :: rest else (k', v') :: dict_set k v rest
  end.

(** [d[k]]. *)
Definition dict_item {V : Type} (k : string) (d : list (string * V)) : result V :=
  match dict_get k d with
  | Some v => Ok v
  | None => Raise KeyError
  end.

(** [l[i]]. *)
Definition index {A : Type} (l : list A) (i : nat) : result A :=
  match nth_error l i with
  | Some x => Ok x
  | None => Raise IndexError
  end.

(** Rounding of a rational to the nearest integer, ties to even. *)
Definition round_half_even (q : Q) : Z :=
  let f := Qfloor q in
  match Qcompare (q - inject_Z f) (1 # 2) with
  | Lt => f
  | Gt => (f + 1)%Z
  | Eq => if Z.even f then f else (f + 1)%Z
  end.

(** [round(x, ndigits)]: the decimal with [ndigits] places nearest to [x],
    ties to even. *)
Definition round (x : Q) (ndigits : nat) : Q :=
  let p := inject_Z (10 ^ Z.of_nat ndigits) in
  inject_Z (round_half_even (x * p)) / p.

(** [s.lower()] on ASCII text. *)
Definition lower_ascii (c : ascii) : ascii :=
  let n := nat_of_ascii c in
  if ((65 <=? n) && (n <=? 90))%nat then ascii_of_nat (n + 32) else c.

Fixpoint lower (s : string) : string :=
  match s with
  | EmptyString => EmptyString
  | String c rest => String (lower_ascii c) (lower rest)
  end.

(** [needle in hay] on strings. *)
Fixpoint contains (needle hay : string) : bool :=
  match hay with
  | EmptyString => prefix needle EmptyString
  | String _ rest => prefix needle hay || contains needle rest
  end.

End Py.

Import Py.

Declare Scope py_scope.
Delimit Scope py_scope with py.
Notation "x <- c ;; k" := (bind c (fun x => k))
  (at level 61, c at next level, right associativity) : py_scope.
Notation "' p <- c ;; k" := (bind c (fun x => let p := x in k))
  (at level 61, p pattern, c at next level, right associativity) : py_scope.
Local Open Scope py_scope.

(** ** analyzer.py *)

Module analyzer.

(** *** Reference-object catalogue *)

Record ref_data : Type := {
  ref_width : Q;
  ref_height : Q;
  ref_priority : Z
}.

(** [REFERENCE_OBJECTS], in the insertion order that [.items()] iterates. *)
Definition REFERENCE_OBJECTS : list (string * ref_data) :=
  [ ("bed"%string,          {| ref_width := 1.9;  ref_height := 0.5;  ref_priority := 1 |});
    ("couch"%string,        {| ref_width := 2.0;  ref_height := 0.85; ref_priority := 2 |});
    ("sofa"%string,         {| ref_width := 2.0;  ref_height := 0.85; ref_priority := 2 |});
    ("chair"%string,        {| ref_width := 0.45; ref_height := 0.9;  ref_priority := 4 |});
    ("dining table"%string, {| ref_width := 1.2;  ref_height := 0.75; ref_priority := 3 |});
    ("refrigerator"%string, {| ref_width := 0.7;  ref_height := 1.7;  ref_priority := 2 |});
    ("tv"%string,           {| ref_width := 1.2;  ref_height := 0.7;  ref_priority := 5 |});
    ("door"%string,         {| ref_width := 0.9;  ref_height := 2.1;  ref_priority := 1 |});
    ("toilet"%string,       {| ref_width := 0.4;  ref_height := 0.4;  ref_priority := 3 |});
    ("oven"%string,         {| ref_width := 0.6;  ref_height := 0.9;  ref_priority := 4 |});
    ("sink"%string,         {| ref_width := 0.6;  ref_height := 0.2;  ref_priority := 5 |}) ].

(** *** find_a4_calibration (analyzer.py:51-212) *)

(** What OpenCV reports for one contour [cnt]. *)
Record contour : Type := {
  cnt_area : Q;              (* cv2.contourArea(cnt) *)
  cnt_approx_len : nat;      (* len(cv2.approxPolyDP(cnt, 0.04 * peri, True)) *)
  cnt_rw : Q;                (* cv2.minAreaRect(cnt)[1][0] *)
  cnt_rh : Q;                (* cv2.minAreaRect(cnt)[1][1] *)
  cnt_mean_val : Q;          (* mean of the L channel inside the contour *)
  cnt_mean_sat : Q;          (* mean of the S channel inside the contour *)
  cnt_hull_area : Q;         (* cv2.contourArea(cv2.convexHull(cnt)) *)
  cnt_bounding : Z * Z * Z * Z   (* cv2.boundingRect(cnt) *)
}.

(** A readable image: its shape and the contours of the two threshold
    passes. *)
Record image : Type := {
  h_orig : Z;
  w_orig : Z;
  contours : list contour;          (* of the Otsu | adaptive threshold *)
  bright_contours : list contour    (* of the fixed threshold at 200 *)
}.

Record candidate : Type := {
  cand_score : Q;
  cand_rect : Q * Q;
  cand_area : Q;
  cand_contour : contour
}.

(** One iteration of the main loop over [contours]: [None] is [continue]. *)
Definition main_candidate (h_img w_img : Z) (cnt : contour)
  : result (option candidate) :=
  let area := cnt_area cnt in
  let min_area := inject_Z (h_img * w_img) * 0.003 in
  let max_area := inject_Z (h_img * w_img) * 0.3 in
  if Qltb area min_area || Qltb max_area area then Ok None else
  if ((cnt_approx_len cnt <? 4) || (6 <? cnt_approx_len cnt))%nat then Ok None else
  let rw := cnt_rw cnt in
  let rh := cnt_rh cnt in
  if Qeq_bool (min2 rw rh) 0 then Ok None else
  aspect <- truediv (max2 rw rh) (min2 rw rh) ;;
  if Qltb aspect 1.2 || Qltb 1.7 aspect then Ok None else
  let mean_val := cnt_mean_val cnt in
  let mean_sat := cnt_mean_sat cnt in
  if Qltb mean_val 140 then Ok None else
  if Qltb 40 mean_sat then Ok None else
  let hull_area := cnt_hull_area cnt in
  solidity <- (if Qltb 0 hull_area then truediv area hull_area else Ok 0) ;;
  if Qltb solidity 0.75 then Ok None else
  let aspect_score := 1.0 - Qabs (aspect - 1.414) / 1.414 in
  let brightness_score := min2 (mean_val / 255.0) 1.0 in
  let solidity_score := solidity in
  area_frac <- truediv area (inject_Z (h_img * w_img) * 0.1) ;;
  let area_score := min2 area_frac 1.0 in
  let saturation_score := 1.0 - mean_sat / 100 in
  let total_score := aspect_score * 0.35
                     + brightness_score * 0.25
                     + solidity_score * 0.2
                     + saturation_score * 0.15
                     + area_score * 0.05 in
  Ok (Some {| cand_score := total_score;
              cand_rect := (rw, rh);
              cand_area := area;
              cand_contour := cnt |}).

(** One iteration of the fallback loop over [bright_contours]. *)
Definition fallback_candidate (h_img w_img : Z) (cnt : contour)
  : result (option candidate) :=
  let area := cnt_area cnt in
  if Qltb (inject_Z (h_img * w_img) * 0.003) area then
    if (4 <=? cnt_approx_len cnt)%nat then
      let rw := cnt_rw cnt in
      let rh := cnt_rh cnt in
      if Qltb 0 (min2 rw rh) then
        aspect <- truediv (max2 rw rh) (min2 rw rh) ;;
        if Qle_bool 1.2 aspect && Qle_bool aspect 1.7 then
          Ok (Some {| cand_score := 0.5;
                      cand_rect := (rw, rh);
                      cand_area := area;
                      cand_contour := cnt |})
        else Ok None
      else Ok None
    else Ok None
  else Ok None.

(** A [for] loop that appends the candidates it keeps. *)
Fixpoint collect (step : contour -> result (option candidate))
  (cnts : list contour) : result (list candidate) :=
  match cnts with
  | [] => Ok []
  | cnt :: rest =>
      c <- step cnt ;;
      cs <- collect step rest ;;
      Ok (match c with Some x => x :: cs | None => cs end)
  end.

(** The list [candidates] as it stands before [max] is taken. *)
Definition candidates (img : image) : result (list candidate) :=
  cs <- collect (main_candidate (h_orig img) (w_orig img)) (contours img) ;;
  match cs with
  | [] => collect (fallback_candidate (h_orig img) (w_orig img)) (bright_contours img)
  | _ :: _ => Ok cs
  end.

Definition bbox_of (r : Z * Z * Z * Z) : list Q :=
  let '(x, y, w, h) := r in [inject_Z x; inject_Z y; inject_Z w; inject_Z h].

(** Returns the pair [(m_per_px, bbox)], [(None, None)] when nothing was
    found. The last [print] evaluates [1 / m_per_px]. *)
Definition find_a4_calibration (img : image)
  : result (option Q * option (list Q)) :=
  cs <- candidates img ;;
  match cs with
  | [] => Ok (None, None)
  | _ :: _ =>
      best <- max_by cand_score cs ;;
      let rect := cand_rect best in
      let long_side_px := max2 (fst rect) (snd rect) in
      let short_side_px := min2 (fst rect) (snd rect) in
      m_per_px <- truediv 0.297 long_side_px ;;
      let box := cnt_bounding (cand_contour best) in
      _ <- truediv 1 m_per_px ;;
      Ok (Some m_per_px, Some (bbox_of box))
  end.

(** *** estimate_scale_from_reference_objects (analyzer.py:215-259) *)

(** A detection dict: [label] and [bbox] are read with [.get]. *)
Record detection : Type := {
  det_label : option string;
  det_confidence : Q;
  det_bbox : option (list Q);
  det_isCrack : bool;
  det_isCalibration : bool
}.

(** The three running variables of the loop. *)
Record ref_state : Type := {
  best_reference : option string;
  best_priority : Z;
  best_m_per_px : option Q
}.

(** The inner [for ... in REFERENCE_OBJECTS.items()] stops at the first key
    that occurs in the label. *)
Definition matching_reference (label : string) : option (string * ref_data) :=
  find (fun kv => contains (fst kv) label) REFERENCE_OBJECTS.

(** The candidate scale of a matched detection. *)
Definition reference_scale (ref : ref_data) (bbox : list Q) : result Q :=
  let bbox_width_px := nth 2 bbox 0 in
  let bbox_height_px := nth 3 bbox 0 in
  if Qltb bbox_height_px bbox_width_px
  then truediv (ref_width ref) bbox_width_px
  else truediv (ref_height ref) bbox_height_px.

(** One iteration of [for det in detections]. *)
Definition ref_step (st : ref_state) (det : detection) : result ref_state :=
  let label := lower (get (det_label det) EmptyString) in
  let bbox := get (det_bbox det) [] in
  if (List.length bbox <? 4)%nat then Ok st else
  match matching_reference label with
  | None => Ok st
  | Some (ref_name, ref) =>
      m_per_px <- reference_scale ref bbox ;;
      if (ref_priority ref <? best_priority st)%Z
      then Ok {| best_reference := Some ref_name;
                 best_priority := ref_priority ref;
                 best_m_per_px := Some m_per_px |}
      else Ok st
  end.

Fixpoint ref_loop (st : ref_state) (detections : list detection)
  : result ref_state :=
  match detections with
  | [] => Ok st
  | det :: rest => st' <- ref_step st det ;; ref_loop st' rest
  end.

Definition ref_init : ref_state :=
  {| best_reference := None; best_priority := 999; best_m_per_px := None |}.

(** [confidence = max(0.5, 1.0 - (best_priority - 1) * 0.1)]. *)
Definition priority_confidence (priority : Z) : Q :=
  max2 0.5 (1.0 - (inject_Z priority - 1) * 0.1).

(** Returns [(m_per_px, reference_object_used, confidence)]. *)
Definition estimate_scale_from_reference_objects
  (detections : list detection) (img_width img_height : Z)
  : result (option Q * option string * Q) :=
  st <- ref_loop ref_init detections ;;
  match best_m_per_px st with
  | Some m =>
      let confidence := priority_confidence (best_priority st) in
      Ok (Some m, best_reference st, confidence)
  | None => Ok (None, None, 0.0)
  end.

(** *** detect_defects (analyzer.py:262-419) *)

(** A box of a YOLO result: [box.xyxy[0].tolist()], the class name and
    [box.conf[0]]. *)
Record yolo_box : Type := {
  box_xyxy : Q * Q * Q * Q;
  box_name : string;
  box_conf : Q
}.

(** Everything the collaborators report for one image path. [sc_objects]
    holds the boxes appended before [obj_model] raised, if it did (the
    [try] swallows the exception). *)
Record scene : Type := {
  sc_img : option image;        (* cv2.imread(img_path); None when unreadable *)
  sc_room_type : string;        (* the normalised label of the arg-max class *)
  sc_room_confidence : Q;       (* float(probs[best_idx]) *)
  sc_objects : list yolo_box;   (* obj_model(img) *)
  sc_cracks : list yolo_box     (* crack_model.predict(img, conf=0.15) *)
}.

(** An entry of [all_results]. *)
Inductive result_entry : Type :=
| Detected (d : detection)
| RoomType (room_type : string) (confidence : Q).

(** The dict [spatial_data]. The two last fields are keys that main.py reads
    with [.get]; no statement of analyzer.py writes them. *)
Record spatial : Type := {
  sp_width : option Q;
  sp_height : option Q;
  sp_length : option Q;
  sp_area : option Q;
  sp_room_type : option string;
  sp_room_confidence : option Q;
  sp_reference_object : option string;   (* None is Python's None *)
  sp_area_confidence : option Q;
  sp_estimation_method : option string
}.

Definition set_width (d : spatial) (v : Q) : spatial :=
  {| sp_width := Some v; sp_height := sp_height d; sp_length := sp_length d;
     sp_area := sp_area d; sp_room_type := sp_room_type d;
     sp_room_confidence := sp_room_confidence d;
     sp_reference_object := sp_reference_object d;
     sp_area_confidence := sp_area_confidence d;
     sp_estimation_method := sp_estimation_method d |}.

Definition set_height (d : spatial) (v : Q) : spatial :=
  {| sp_width := sp_width d; sp_height := Some v; sp_length := sp_length d;
     sp_area := sp_area d; sp_room_type := sp_room_type d;
     sp_room_confidence := sp_room_confidence d;
     sp_reference_object := sp_reference_object d;
     sp_area_confidence := sp_area_confidence d;
     sp_estimation_method := sp_estimation_method d |}.

Definition set_length (d : spatial) (v : Q) : spatial :=
  {| sp_width := sp_width d; sp_height := sp_height d; sp_length := Some v;
     sp_area := sp_area d; sp_room_type := sp_room_type d;
     sp_room_confidence := sp_room_confidence d;
     sp_reference_object := sp_reference_object d;
     sp_area_confidence := sp_area_confidence d;
     sp_estimation_method := sp_estimation_method d |}.

Definition set_area (d : spatial) (v : Q) : spatial :=
  {| sp_width := sp_width d; sp_height := sp_height d; sp_length := sp_length d;
     sp_area := Some v; sp_room_type := sp_room_type d;
     sp_room_confidence := sp_room_confidence d;
     sp_reference_object := sp_reference_object d;
     sp_area_confidence := sp_area_confidence d;
     sp_estimation_method := sp_estimation_method d |}.

(** [d[key]] on a key of [spatial_data]. *)
Definition item (field : option Q) : result Q :=
  match field with
  | Some v => Ok v
  | None => Raise KeyError
  end.

(** An operand that must not be [None]. *)
Definition number (v : option Q) : result Q :=
  match v with
  | Some x => Ok x
  | None => Raise TypeError
  end.

Definition box_width (b : yolo_box) : Q :=
  let '(x1, _, x2, _) := box_xyxy b in x2 - x1.

Definition box_height (b : yolo_box) : Q :=
  let '(_, y1, _, y2) := box_xyxy b in y2 - y1.

(** [[b[0], b[1], b[2]-b[0], b[3]-b[1]]]. *)
Definition xywh (b : yolo_box) : list Q :=
  let '(x1, y1, _, _) := box_xyxy b in [x1; y1; box_width b; box_height b].

Definition object_detection (b : yolo_box) : detection :=
  {| det_label := Some (box_name b);
     det_confidence := box_conf b;
     det_bbox := Some (xywh b);
     det_isCrack := false;
     det_isCalibration := false |}.

Definition crack_detection (b : yolo_box) : detection :=
  {| det_label := Some "Structural Crack"%string;
     det_confidence := box_conf b;
     det_bbox := Some (xywh b);
     det_isCrack := true;
     det_isCalibration := false |}.

Definition a4_detection (a4_bbox : option (list Q)) : detection :=
  {| det_label := Some "A4 Reference"%string;
     det_confidence := 1.0;
     det_bbox := a4_bbox;
     det_isCrack := false;
     det_isCalibration := true |}.

(** The accumulators of the crack loop (lines 353-363):
    [(total_crack_pixel_area, max_crack_dim_px, crack_count)]. *)
Definition crack_step (acc : Q * Q * Z) (b : yolo_box) : Q * Q * Z :=
  let '(total_crack_pixel_area, max_crack_dim_px, crack_count) := acc in
  let bw := box_width b in
  let bh := box_height b in
  (total_crack_pixel_area + bw * bh,
   max3 max_crack_dim_px bw bh,
   (crack_count + 1)%Z).

Definition crack_loop (cracks : list yolo_box) : Q * Q * Z :=
  fold_left crack_step cracks (0, 0, 0%Z).

(** The values that steps 2 ("Calibration (A4 first)", lines 292-309) and
    3b ("Reference Object Calibration", lines 340-348) leave in [a4_bbox],
    [m_per_px], [is_calibrated] and [reference_object]; [cal_a4_found] is
    the test that appends the "A4 Reference" entry. *)
Record calibration : Type := {
  cal_a4_bbox : option (list Q);
  cal_a4_found : bool;
  cal_m_per_px : option Q;
  cal_is_calibrated : bool;
  cal_reference_object : option string
}.

Definition calibrate (img : image) (object_detections : list detection)
  : result calibration :=
  '(m_per_px, a4_bbox) <- find_a4_calibration img ;;
  let is_calibrated := is_some m_per_px in
  if is_calibrated then
    Ok {| cal_a4_bbox := a4_bbox;
          cal_a4_found := true;
          cal_m_per_px := m_per_px;
          cal_is_calibrated := is_calibrated;
          cal_reference_object := None |}
  else
    '(ref_m_per_px, reference_object, ref_confidence) <-
       estimate_scale_from_reference_objects
         object_detections (w_orig img) (h_orig img) ;;
    if is_some ref_m_per_px then
      Ok {| cal_a4_bbox := a4_bbox;
            cal_a4_found := false;
            cal_m_per_px := ref_m_per_px;
            cal_is_calibrated := true;
            cal_reference_object := reference_object |}
    else
      Ok {| cal_a4_bbox := a4_bbox;
            cal_a4_found := false;
            cal_m_per_px := m_per_px;
            cal_is_calibrated := is_calibrated;
            cal_reference_object := reference_object |}.

(** Step 5, the block headed "Spatial Measurements" (lines 375-415). *)
Definition spatial_measurements (img : image) (room_type : string)
  (room_confidence : Q) (cal : calibration)
  (total_crack_pixel_area max_crack_dim_px : Q) : result spatial :=
  let w := inject_Z (w_orig img) in
  let h := inject_Z (h_orig img) in
  let m_per_px := cal_m_per_px cal in
  let spatial_data :=
    {| sp_width := Some 0.0;
       sp_height := Some 0.0;
       sp_length := Some 0.0;
       sp_area := Some 0.0;
       sp_room_type := Some room_type;
       sp_room_confidence := Some (round (room_confidence * 100) 1);
       sp_reference_object := cal_reference_object cal;
       sp_area_confidence := None;
       sp_estimation_method := None |} in
  if cal_is_calibrated cal then
    if Qltb 0 total_crack_pixel_area then
      m <- number m_per_px ;;
      let spatial_data := set_area spatial_data (total_crack_pixel_area * m ^ 2) in
      let spatial_data := set_length spatial_data (max_crack_dim_px * m) in
      ratio <- (if Qltb 0 max_crack_dim_px
                then truediv total_crack_pixel_area max_crack_dim_px
                else Ok 0) ;;
      let spatial_data := set_width spatial_data (ratio * m) in
      width <- item (sp_width spatial_data) ;;
      Ok (set_height spatial_data width)
    else
      m <- number m_per_px ;;
      let floor_area_px := w * h * 0.6 in
      let spatial_data := set_area spatial_data (floor_area_px * m ^ 2) in
      let spatial_data := set_width spatial_data (w * m) in
      let spatial_data := set_length spatial_data (h * m * 0.8) in
      Ok (set_height spatial_data 2.7)
  else if Qltb 0 total_crack_pixel_area then
    let spatial_data := set_area spatial_data total_crack_pixel_area in
    let spatial_data := set_length spatial_data max_crack_dim_px in
    ratio <- (if Qltb 0 max_crack_dim_px
              then truediv total_crack_pixel_area max_crack_dim_px
              else Ok 0) ;;
    Ok (set_width spatial_data ratio)
  else Ok spatial_data.

(** The dict returned for an unreadable image. *)
Definition unreadable_spatial : spatial :=
  {| sp_width := Some 0.0;
     sp_height := Some 0.0;
     sp_length := Some 0.0;
     sp_area := Some 0.0;
     sp_room_type := Some "unknown"%string;
     sp_room_confidence := Some 0.0;
     sp_reference_object := None;
     sp_area_confidence := None;
     sp_estimation_method := None |}.

(** Returns [(all_results, spatial_data, is_calibrated, [h_orig, w_orig])]. *)
Definition detect_defects (sc : scene)
  : result (list result_entry * spatial * bool * (Z * Z)) :=
  match sc_img sc with
  | None => Ok ([], unreadable_spatial, false, (0%Z, 0%Z))
  | Some img =>
      let room_type := sc_room_type sc in
      let room_confidence := sc_room_confidence sc in
      let object_detections := map object_detection (sc_objects sc) in
      cal <- calibrate img object_detections ;;
      let all_results :=
        (if cal_a4_found cal then [Detected (a4_detection (cal_a4_bbox cal))] else [])
        ++ [RoomType room_type room_confidence]
        ++ map Detected object_detections
        ++ map (fun b => Detected (crack_detection b)) (sc_cracks sc) in
      let '(total_crack_pixel_area, max_crack_dim_px, crack_count) :=
        crack_loop (sc_cracks sc) in
      spatial_data <- spatial_measurements img room_type room_confidence cal
                        total_crack_pixel_area max_crack_dim_px ;;
      Ok (all_results, spatial_data, cal_is_calibrated cal,
          (h_orig img, w_orig img))
  end.

End analyzer.

(** ** main.py: reconstruct_room (main.py:72-143) *)

Module main.

Import analyzer.

(** The dict [fused_spatial]: the branch for an empty batch writes only the
    first four keys. *)
Record fused_spatial : Type := {
  f_width : Q;
  f_height : Q;
  f_length : Q;
  f_area : Q;
  f_area_confidence : option Q;
  f_estimation_method : option string;
  f_reference_object : option (option string)
}.

(** The JSON object returned by the endpoint. *)
Record response : Type := {
  analysis_results : list (list result_entry * (Z * Z));
  spatial_data : fused_spatial;
  room_type : string;
  room_confidence : Q;
  overall_confidence : Q;
  is_calibrated : bool;
  needs_user_confirmation : bool
}.

(** The variables filled by the loop over the uploaded files. *)
Record batch : Type := {
  per_image_results : list (list result_entry * (Z * Z));
  all_spatial : list spatial;
  calibration_status : bool;
  room_types : list (string * Q)
}.

Definition empty_batch : batch :=
  {| per_image_results := [];
     all_spatial := [];
     calibration_status := false;
     room_types := [] |}.

(** The body of [for file in files]. *)
Definition analyse_file (b : batch) (file : scene) : result batch :=
  '(detections, spatial, calibrated, img_size) <- detect_defects file ;;
  Ok {| per_image_results := per_image_results b ++ [(detections, img_size)];
        all_spatial := all_spatial b ++ [spatial];
        calibration_status := if calibrated then true else calibration_status b;
        room_types := room_types b
                      ++ [(get (sp_room_type spatial) "unknown"%string,
                           get (sp_room_confidence spatial) 0)] |}.

Fixpoint analyse_files (b : batch) (files : list scene) : result batch :=
  match files with
  | [] => Ok b
  | file :: rest => b' <- analyse_file b file ;; analyse_files b' rest
  end.

(** The key of the [max] over [range(len(all_spatial))]. *)
Definition area_confidence_at (all_spatial : list spatial) (i : nat) : Q :=
  match nth_error all_spatial i with
  | Some s => get (sp_area_confidence s) 0
  | None => 0
  end.

(** One iteration of [for rt in room_types]. *)
Definition vote (room_votes : list (string * Q)) (rt : string * Q)
  : result (list (string * Q)) :=
  let '(room_type, conf) := rt in
  let room_votes :=
    match dict_get room_type room_votes with
    | None => dict_set room_type 0 room_votes
    | Some _ => room_votes
    end in
  v <- dict_item room_type room_votes ;;
  Ok (dict_set room_type (v + conf) room_votes).

Fixpoint count_votes (room_votes : list (string * Q))
  (room_types : list (string * Q)) : result (list (string * Q)) :=
  match room_types with
  | [] => Ok room_votes
  | rt :: rest => votes <- vote room_votes rt ;; count_votes votes rest
  end.

(** The room-type vote: [(best_room_type, room_confidence)]. *)
Definition vote_room (room_types : list (string * Q)) : result (string * Q) :=
  match room_types with
  | _ :: _ =>
      room_votes <- count_votes [] room_types ;;
      best_room_type <- max_by (fun k => get (dict_get k room_votes) 0)
                               (map fst room_votes) ;;
      total <- dict_item best_room_type room_votes ;;
      room_confidence <- truediv total (inject_Z (Z.of_nat (List.length room_types))) ;;
      Ok (best_room_type, room_confidence)
  | [] => Ok ("unknown"%string, 0)
  end.

(** The fusion block (lines 97-133): [(fused_spatial, best_room_type,
    room_confidence, overall_confidence)]. *)
Definition fuse (all_spatial : list spatial) (room_types : list (string * Q))
  : result (fused_spatial * string * Q * Q) :=
  match all_spatial with
  | _ :: _ =>
      best_idx <- max_by (area_confidence_at all_spatial)
                         (seq 0 (List.length all_spatial)) ;;
      best_spatial <- index all_spatial best_idx ;;
      let fused :=
        {| f_width := get (sp_width best_spatial) 0;
           f_height := get (sp_height best_spatial) 2.7;
           f_length := get (sp_length best_spatial) 0;
           f_area := round (get (sp_area best_spatial) 0) 2;
           f_area_confidence := Some (get (sp_area_confidence best_spatial) 0);
           f_estimation_method :=
             Some (get (sp_estimation_method best_spatial) "unknown"%string);
           f_reference_object := Some (sp_reference_object best_spatial) |} in
      '(best_room_type, room_confidence) <- vote_room room_types ;;
      area_confidence <- item (f_area_confidence fused) ;;
      let overall_confidence := (area_confidence + room_confidence) / 2 in
      Ok (fused, best_room_type, room_confidence, overall_confidence)
  | [] =>
      Ok ({| f_width := 0.0; f_height := 0.0; f_length := 0.0; f_area := 0.0;
             f_area_confidence := None;
             f_estimation_method := None;
             f_reference_object := None |},
          "unknown"%string, 0, 0)
  end.

Definition reconstruct_room (files : list scene) : result response :=
  b <- analyse_files empty_batch files ;;
  '(fused, best_room_type, room_confidence, overall_confidence) <-
     fuse (all_spatial b) (room_types b) ;;
  Ok {| analysis_results := per_image_results b;
        spatial_data := fused;
        room_type := best_room_type;
        room_confidence := round room_confidence 1;
        overall_confidence := round overall_confidence 1;
        is_calibrated := calibration_status b;
        needs_user_confirmation := Qltb overall_confidence 70 |}.

End main.

(** ** Vocabulary of the statements *)

Module Vocabulary.

Import analyzer main.

(** The longer side of a candidate's minimum-area rectangle. *)
Definition long_side (c : candidate) : Q :=
  max2 (fst (cand_rect c)) (snd (cand_rect c)).

(** The catalogue entry the estimator's loop pairs with a detection, if
    any: the box has four entries and a catalogue key occurs in the lowered
    label (the first such key, in catalogue order). *)
Definition matched (det : detection) : option (string * ref_data) :=
  if (List.length (get (det_bbox det) []) <? 4)%nat then None
  else matching_reference (lower (get (det_label det) EmptyString)).

Definition is_matched (det : detection) : bool := is_some (matched det).

(** The pixel dimension [reference_scale] divides by: the larger of the
    box's width and height. *)
Definition scaling_dimension (bbox : list Q) : Q :=
  if Qltb (nth 3 bbox 0) (nth 2 bbox 0) then nth 2 bbox 0 else nth 3 bbox 0.

(** A detection whose scaling dimension is not zero, if it is matched. *)
Definition usable (det : detection) : bool :=
  match matched det with
  | Some _ => negb (Qeq_bool (scaling_dimension (get (det_bbox det) [])) 0)
  | None => true
  end.

(** Following the spec's words: the aggregate pixel area of the crack boxes
    (the sum of width x height), and the greatest width or height of any
    box, counted from 0 upward. *)
Definition crack_area_sum (cracks : list yolo_box) : Q :=
  fold_right (fun b acc => box_width b * box_height b + acc) 0 cracks.

Definition max_crack_dimension (cracks : list yolo_box) : Q :=
  fold_right (fun b acc => Qmax (Qmax (box_width b) (box_height b)) acc) 0 cracks.

(** The first two accumulators of the crack loop. *)
Definition total_of (acc : Q * Q * Z) : Q := fst (fst acc).
Definition max_dim_of (acc : Q * Q * Z) : Q := snd (fst acc).

(** [s.get("area_confidence", 0)], the key of the fuser's selection. *)
Definition area_confidence_of (s : spatial) : Q := get (sp_area_confidence s) 0.

(** The parts of what [detect_defects] returned ([unreadable_spatial] and
    [[]] standing in when it raised). *)
Definition measurement
  (out : result (list result_entry * spatial * bool * (Z * Z))) : spatial :=
  match out with
  | Ok (_, sp, _, _) => sp
  | Raise _ => unreadable_spatial
  end.

Definition entries
  (out : result (list result_entry * spatial * bool * (Z * Z)))
  : list result_entry :=
  match out with
  | Ok (results, _, _, _) => results
  | Raise _ => []
  end.

End Vocabulary.

(** ** Sample inputs *)

Module Samples.

Import analyzer main Vocabulary.

(** A white A4 sheet lying flat, 297 x 210 pixels. *)
Definition sheet : contour :=
  {| cnt_area := 62370;
     cnt_approx_len := 4;
     cnt_rw := 297;
     cnt_rh := 210;
     cnt_mean_val := 230;
     cnt_mean_sat := 10;
     cnt_hull_area := 62370;
     cnt_bounding := (100, 100, 297, 210)%Z |}.

(** A 1000 x 800 image showing the sheet: 0.001 metres per pixel. *)
Definition sheet_image : image :=
  {| h_orig := 800; w_orig := 1000; contours := [sheet]; bright_contours := [] |}.

(** A 640 x 480 image without a sheet. *)
Definition plain_image : image :=
  {| h_orig := 480; w_orig := 640; contours := []; bright_contours := [] |}.

Definition sheet_candidates : list candidate :=
  Eval vm_compute in
    match candidates sheet_image with
    | Ok cs => cs
    | Raise _ => []
    end.

Definition sheet_calibration : calibration :=
  {| cal_a4_bbox := Some [100; 100; 297; 210];
     cal_a4_found := true;
     cal_m_per_px := Some (0.297 / 297);
     cal_is_calibrated := true;
     cal_reference_object := None |}.

(** The sheet in a bedroom, no crack: the spec's example of the floor
    estimate. *)
Definition bedroom_scene : scene :=
  {| sc_img := Some sheet_image;
     sc_room_type := "Bedroom";
     sc_room_confidence := 0.8;
     sc_objects := [];
     sc_cracks := [] |}.

(** The sheet and one crack box 200 pixels wide and 50 high. *)
Definition crack_scene : scene :=
  {| sc_img := Some sheet_image;
     sc_room_type := "Kitchen";
     sc_room_confidence := 0.6;
     sc_objects := [];
     sc_cracks := [ {| box_xyxy := (100, 100, 300, 150);
                       box_name := "crack";
                       box_conf := 0.5 |} ] |}.

(** The sheet and one crack box of no width: a crack detection of pixel
    area 0. *)
Definition hairline_scene : scene :=
  {| sc_img := Some sheet_image;
     sc_room_type := "Kitchen";
     sc_room_confidence := 0.6;
     sc_objects := [];
     sc_cracks := [ {| box_xyxy := (10, 10, 10, 60);
                       box_name := "crack";
                       box_conf := 0.5 |} ] |}.

(** A path that [cv2.imread] cannot read. *)
Definition unreadable_scene : scene :=
  {| sc_img := None;
     sc_room_type := "Bedroom";
     sc_room_confidence := 0.8;
     sc_objects := [];
     sc_cracks := [] |}.

Definition detected (label : string) (bbox : list Q) : detection :=
  {| det_label := Some label;
     det_confidence := 0.9;
     det_bbox := Some bbox;
     det_isCrack := false;
     det_isCalibration := false |}.

(** A chair (rank 4), then a door 300 x 700 (rank 1), then a bed
    (rank 1). *)
Definition door_detections : list detection :=
  [ detected "chair" [400; 300; 80; 160];
    detected "door" [20; 10; 300; 700];
    detected "bed" [350; 400; 500; 200] ].

(** A bed reported with a box of no extent. *)
Definition zero_box_detection : detection := detected "bed" [10; 10; 0; 0].

(** No sheet, and the object detector reports that bed. *)
Definition zero_box_scene : scene :=
  {| sc_img := Some plain_image;
     sc_room_type := "Bedroom";
     sc_room_confidence := 0.8;
     sc_objects := [ {| box_xyxy := (10, 10, 10, 10);
                        box_name := "bed";
                        box_conf := 0.9 |} ];
     sc_cracks := [] |}.

Definition record (width height length area area_confidence : Q)
  (method : string) : spatial :=
  {| sp_width := Some width;
     sp_height := Some height;
     sp_length := Some length;
     sp_area := Some area;
     sp_room_type := Some "Bedroom"%string;
     sp_room_confidence := Some 80;
     sp_reference_object := None;
     sp_area_confidence := Some area_confidence;
     sp_estimation_method := Some method |}.

(** Three records of area_confidence 0.9, 0.4 and 0.6. *)
Definition three_records : list spatial :=
  [ record 4 2.7 3 12 0.9 "calibration_target";
    record 5 2.7 4 20 0.4 "reference_object";
    record 6 2.7 5 30 0.6 "reference_object" ].

Definition three_room_types : list (string * Q) :=
  [ ("Bedroom"%string, 80); ("Bedroom"%string, 80); ("Bedroom"%string, 80) ].

(** One record whose area, 0.125, has three decimals. *)
Definition eighth_record : spatial :=
  record 0.5 2.7 0.25 0.125 0.9 "calibration_target".

End Samples.

(** * Further parts of the backend *)

From Stdlib Require Import Permutation Qpower.

(** ** Binary64 arithmetic *)

Module binary64.











End binary64.

(** ** main.py: the second reconstruct_room (main.py:1004-1075) *)

Module main_legacy.

Import analyzer main.

(** [[s[key] for s in all_spatial]]: a missing key raises. *)
Fixpoint items (field : spatial -> option Q) (all_spatial : list spatial)
  : result (list Q) :=
  match all_spatial with
  | [] => Ok []
  | s :: rest =>
      v <- item (field s) ;;
      vs <- items field rest ;;
      Ok (v :: vs)
  end.

(** [max(s[key] for s in all_spatial)]. *)
Definition greatest (field : spatial -> option Q) (all_spatial : list spatial)
  : result Q :=
  values <- items field all_spatial ;;
  max_by (fun v => v) values.

(** The block headed "Fuse spatial data" (lines 1035-1065). *)
Definition fuse (all_spatial : list spatial) (room_types : list (string * Q))
  : result (fused_spatial * string * Q * Q) :=
  width <- greatest sp_width all_spatial ;;
  height <- greatest sp_height all_spatial ;;
  length <- greatest sp_length all_spatial ;;
  best_area_idx <- max_by (area_confidence_at all_spatial)
                          (seq 0 (List.length all_spatial)) ;;
  best_spatial <- index all_spatial best_area_idx ;;
  area <- item (sp_area best_spatial) ;;
  let fused :=
    {| f_width := width;
       f_height := height;
       f_length := length;
       f_area := round area 2;
       f_area_confidence := Some (get (sp_area_confidence best_spatial) 0);
       f_estimation_method :=
         Some (get (sp_estimation_method best_spatial) "unknown"%string);
       f_reference_object := Some (sp_reference_object best_spatial) |} in
  '(best_room_type, room_confidence) <- vote_room room_types ;;
  area_confidence <- item (f_area_confidence fused) ;;
  let overall_confidence := (area_confidence + room_confidence) / 2 in
  Ok (fused, best_room_type, room_confidence, overall_confidence).

Definition reconstruct_room (files : list scene) : result response :=
  b <- analyse_files empty_batch files ;;
  '(fused, best_room_type, room_confidence, overall_confidence) <-
     fuse (all_spatial b) (room_types b) ;;
  Ok {| analysis_results := per_image_results b;
        spatial_data := fused;
        room_type := best_room_type;
        room_confidence := round room_confidence 1;
        overall_confidence := round overall_confidence 1;
        is_calibrated := calibration_status b;
        needs_user_confirmation := Qltb overall_confidence 70 |}.

End main_legacy.

(** ** Further vocabulary *)

Module Terms.

Import analyzer main Vocabulary.

(** No contour of either pass survives as a candidate. *)
Definition no_sheet (img : image) : bool :=
  match candidates img with
  | Ok [] => true
  | _ => false
  end.

(** A readable image without an A4 sheet on which the object detector
    reports a matched box whose scaling dimension is zero. *)
Definition raising_scene (sc : scene) : bool :=
  match sc_img sc with
  | None => false
  | Some img =>
      no_sheet img
      && negb (forallb usable (map object_detection (sc_objects sc)))
  end.

(** A detection whose scaling dimension is positive. *)
Definition positive_scaling (det : detection) : bool :=
  Qltb 0 (scaling_dimension (get (det_bbox det) [])).

(** The kinds of entries of [all_results]. *)
Definition is_crack_entry (e : result_entry) : bool :=
  match e with
  | Detected d => det_isCrack d
  | RoomType _ _ => false
  end.

Definition is_calibration_entry (e : result_entry) : bool :=
  match e with
  | Detected d => det_isCalibration d
  | RoomType _ _ => false
  end.

Definition is_room_entry (e : result_entry) : bool :=
  match e with
  | Detected _ => false
  | RoomType _ _ => true
  end.

(** The sum of the confidences voted for a label. *)
Definition tally (label : string) (room_types : list (string * Q)) : Q :=
  fold_right (fun rt acc => if String.eqb (fst rt) label then snd rt + acc else acc)
             0 room_types.

(** The flag and the size that [detect_defects] returned. *)
Definition calibrated_flag
  (out : result (list result_entry * spatial * bool * (Z * Z))) : bool :=
  match out with
  | Ok (_, _, calibrated, _) => calibrated
  | Raise _ => false
  end.

Definition size_of
  (out : result (list result_entry * spatial * bool * (Z * Z))) : Z * Z :=
  match out with
  | Ok (_, _, _, size) => size
  | Raise _ => (0, 0)%Z
  end.

(** The [(type, confidence)] pair the batch loop records for a scene. *)
Definition vote_of (sc : scene) : string * Q :=
  (get (sp_room_type (measurement (detect_defects sc))) "unknown"%string,
   get (sp_room_confidence (measurement (detect_defects sc))) 0).

Definition returned {A : Type} (out : result A) : bool :=
  match out with
  | Ok _ => true
  | Raise _ => false
  end.

(** The answer of the endpoint (that of the empty batch standing in when it
    raised). *)
Definition answer (out : result response) : response :=
  match out with
  | Ok resp => resp
  | Raise _ =>
      {| analysis_results := [];
         spatial_data := {| f_width := 0; f_height := 0; f_length := 0;
                            f_area := 0; f_area_confidence := None;
                            f_estimation_method := None;
                            f_reference_object := None |};
         room_type := "unknown";
         room_confidence := 0;
         overall_confidence := 0;
         is_calibrated := false;
         needs_user_confirmation := true |}
  end.

(** The sides and the area measured on a scene. *)
Definition width_of (sc : scene) : Q :=
  get (sp_width (measurement (detect_defects sc))) 0.

Definition height_of (sc : scene) : Q :=
  get (sp_height (measurement (detect_defects sc))) 0.

Definition length_of (sc : scene) : Q :=
  get (sp_length (measurement (detect_defects sc))) 0.

Definition area_of (sc : scene) : Q :=
  get (sp_area (measurement (detect_defects sc))) 0.

(** [m] is the greatest of the values [f] takes on [files], and is taken. *)
Definition greatest_of (f : scene -> Q) (files : list scene) (m : Q) : Prop :=
  (forall file, In file files -> f file <= m)
  /\ exists file, In file files /\ m = f file.

(** The classifier's probability of a scene lies in [0, 1]. *)
Definition probability (sc : scene) : bool :=
  Qle_bool 0 (sc_room_confidence sc) && Qle_bool (sc_room_confidence sc) 1.

End Terms.

(** ** Further sample inputs *)

Module Cases.

Import analyzer main Vocabulary Samples Terms.





(** Detections that name no catalogue object. *)
Definition person_detections : list detection :=
  [ detected "person" [10; 10; 100; 300]; detected "dog" [200; 200; 80; 60] ].

Definition uncalibrated : calibration :=
  {| cal_a4_bbox := None;
     cal_a4_found := false;
     cal_m_per_px := None;
     cal_is_calibrated := false;
     cal_reference_object := None |}.

(** No sheet, no reference object, one crack box of 200 x 50 pixels. *)
Definition pixel_scene : scene :=
  {| sc_img := Some plain_image;
     sc_room_type := "Kitchen";
     sc_room_confidence := 0.6;
     sc_objects := [];
     sc_cracks := [ {| box_xyxy := (100, 100, 300, 150);
                       box_name := "crack";
                       box_conf := 0.5 |} ] |}.

(** No sheet; the object detector reports a door of 300 x 700 pixels. *)
Definition door_scene : scene :=
  {| sc_img := Some plain_image;
     sc_room_type := "Office";
     sc_room_confidence := 0.7;
     sc_objects := [ {| box_xyxy := (20, 10, 320, 710);
                        box_name := "door";
                        box_conf := 0.9 |} ];
     sc_cracks := [] |}.

Definition sample_box : yolo_box :=
  {| box_xyxy := (0, 0, 1, 1); box_name := "crack"; box_conf := 0.5 |}.

(** Two images voting Bedroom and one voting Kitchen. *)
Definition split_votes : list (string * Q) :=
  [ ("Bedroom"%string, 80); ("Kitchen"%string, 30); ("Bedroom"%string, 60) ].

(** A door 300 x 700 (rank 1) followed by a sink whose box has no extent. *)
Definition door_then_sink : list detection :=
  [ detected "door" [20; 10; 300; 700]; detected "sink" [50; 60; 0; 0] ].

End Cases.

(** ** gemini_verifier.py: verify_property_images, get_recommendation *)

Module gemini_verifier.

(** The dict Gemini's answer is parsed into. It comes from [json.loads], so
    any key may be absent; [is_real_crack] is used for its truth value and
    [severity] as a key of [severity_order], and are taken to be a JSON
    boolean and a JSON string. *)
Record crack_data : Type := {
  is_real_crack : option bool;
  confidence : option Q;
  description : option string;
  severity : option string;
  crack_type : option string;
  data_recommendation : option string
}.

(** What [analyze_crack_with_gemini] returns: [{"success", "error", "data"}].
    The call goes to the Gemini service; its answer for a path is an input. *)
Record crack_analysis : Type := {
  success : bool;
  error : option string;
  data : crack_data
}.

(** A path of [image_paths]: whether [os.path.exists] holds for it, its
    [os.path.basename] and the analysis Gemini gives for it. *)
Record image_path : Type := {
  path_exists : bool;
  path_basename : string;
  path_analysis : crack_analysis
}.

Definition severity_order : list (string * Z) :=
  [("none"%string, 0%Z); ("minor"%string, 1%Z); ("moderate"%string, 2%Z);
   ("severe"%string, 3%Z)].

(** [severity_order.get(s, 0)]. *)
Definition rank (s : string) : Z := get (dict_get s severity_order) 0%Z.

(** The three variables of the loop. *)
Record progress : Type := {
  results : list (string * crack_analysis);
  has_real_crack : bool;
  max_severity : string
}.

Definition start : progress :=
  {| results := []; has_real_crack := false; max_severity := "none" |}.

(** One iteration of [for path in image_paths]. *)
Definition step (st : progress) (path : image_path) : progress :=
  if path_exists path then
    let result := path_analysis path in
    let results := results st ++ [(path_basename path, result)] in
    if success result && get (is_real_crack (data result)) false then
      let img_severity := get (severity (data result)) "none"%string in
      if (rank (max_severity st) <? rank img_severity)%Z
      then {| results := results; has_real_crack := true;
              max_severity := img_severity |}
      else {| results := results; has_real_crack := true;
              max_severity := max_severity st |}
    else {| results := results; has_real_crack := has_real_crack st;
            max_severity := max_severity st |}
  else st.

Definition get_recommendation (has_crack : bool) (severity : string) : string :=
  if negb has_crack then
    "No structural issues detected. Property appears to be in good condition."%string
  else if String.eqb severity "minor" then
    "Minor surface cracks detected. Regular maintenance recommended."%string
  else if String.eqb severity "moderate" then
    "Moderate cracks detected. Professional inspection recommended before purchase."%string
  else if String.eqb severity "severe" then
    "Severe structural issues detected. Immediate professional assessment required."%string
  else
    "Cracks detected. Further inspection may be needed."%string.

(** The dict [verify_property_images] returns. *)
Record verdict : Type := {
  images_analyzed : nat;
  v_has_real_crack : bool;
  v_max_severity : string;
  detailed_results : list (string * crack_analysis);
  recommendation : string
}.

Definition verify_property_images (image_paths : list image_path) : verdict :=
  let st := fold_left step image_paths start in
  {| images_analyzed := List.length (results st);
     v_has_real_crack := has_real_crack st;
     v_max_severity := max_severity st;
     detailed_results := results st;
     recommendation := get_recommendation (has_real_crack st) (max_severity st) |}.

End gemini_verifier.

(** Vocabulary for the second-stage verdict. *)
Module Verdicts.

Import gemini_verifier.

(** An image that exists, whose analysis succeeded and reports a real
    crack: the images the loop counts. *)
Definition confirmed (p : image_path) : bool :=
  path_exists p && success (path_analysis p)
  && get (is_real_crack (data (path_analysis p))) false.

Definition severity_of (p : image_path) : string :=
  get (severity (data (path_analysis p))) "none"%string.

(** The highest rank among the confirmed images. *)
Definition top_rank (paths : list image_path) : Z :=
  fold_right (fun p acc => if confirmed p then Z.max (rank (severity_of p)) acc
                           else acc) 0%Z paths.

(** The four keys of [severity_order]. *)
Definition known (s : string) : Prop :=
  In s ["none"; "minor"; "moderate"; "severe"]%string.

Definition analysed (p : image_path) : string * crack_analysis :=
  (path_basename p, path_analysis p).

(** Sample answers. *)
Definition answer_of (real : bool) (sev : string) : crack_analysis :=
  {| success := true; error := None;
     data := {| is_real_crack := Some real; confidence := Some 0.9;
                description := None; severity := Some sev;
                crack_type := None; data_recommendation := None |} |}.

Definition wall : image_path :=
  {| path_exists := true; path_basename := "wall.jpg";
     path_analysis := answer_of true "moderate" |}.

Definition floor_tiles : image_path :=
  {| path_exists := true; path_basename := "floor.jpg";
     path_analysis := answer_of false "none" |}.

Definition ceiling : image_path :=
  {| path_exists := true; path_basename := "ceiling.jpg";
     path_analysis := answer_of true "hairline" |}.

Definition missing : image_path :=
  {| path_exists := false; path_basename := "gone.jpg";
     path_analysis := answer_of true "severe" |}.

End Verdicts.

(** ** main.py: analyze_property (main.py:299-519) *)

Module main_property.

Import analyzer gemini_verifier Terms.

(** How a call of the handler ends: it returns, it raises the HTTPException
    it builds itself, an exception of the analysis leaves it uncaught, or
    the sqlite3.OperationalError of a statement does. *)
Inductive outcome (A : Type) : Type :=
| Returned (a : A)
| HTTPException (status_code : Z) (detail : string)
| Uncaught (e : exn)
| OperationalError.

Arguments Returned {A} a.
Arguments HTTPException {A} status_code detail.
Arguments Uncaught {A} e.
Arguments OperationalError {A}.

(** An entry of the [photos] column. The file system, the image found at the
    path and Gemini's answer for it are inputs: [photo_exists] is
    [os.path.exists(photo_path)], [photo_scene] what [detect_defects] reads
    there. *)
Record photo : Type := {
  photo_exists : bool;
  photo_scene : scene;
  photo_basename : string;
  photo_gemini : crack_analysis
}.

(** The row selected from [properties]; [photos] is
    [json.loads(row["photos"]) if row["photos"] else []].
    [ai_detections_column] tells whether the table the row comes from has
    the column [ai_detections]: [init_db] of models.py does not create it,
    migrate_detections.py adds it. *)
Record property_row : Type := {
  photos : list photo;
  claimed_area : option Q;
  claimed_width : option Q;
  claimed_length : option Q;
  ai_detections_column : bool
}.

(** The variables filled by the loop over the photos. *)
Record gathered : Type := {
  all_spatial : list spatial;
  all_detections : list result_entry;
  total_cracks : nat;
  room_types : list (string * Q)
}.

Definition nothing_gathered : gathered :=
  {| all_spatial := []; all_detections := []; total_cracks := 0;
     room_types := [] |}.

(** The body of [for photo_url in photos]. *)
Definition gather_photo (g : gathered) (p : photo) : result gathered :=
  if photo_exists p then
    '(detections, spatial, calibrated, img_size) <-
       detect_defects (photo_scene p) ;;
    let crack_count := List.length (filter is_crack_entry detections) in
    Ok {| all_spatial := all_spatial g ++ [spatial];
          all_detections := all_detections g ++ detections;
          total_cracks := total_cracks g + crack_count;
          room_types := room_types g
                        ++ [(get (sp_room_type spatial) "unknown"%string,
                             get (sp_room_confidence spatial) 0)] |}
  else Ok g.

Fixpoint gather (g : gathered) (photos : list photo) : result gathered :=
  match photos with
  | [] => Ok g
  | p :: rest => g' <- gather_photo g p ;; gather g' rest
  end.

(** The variables set by the fusion block (lines 361-392). *)
Record estimate : Type := {
  estimated_area : Q;
  area_confidence : Q;
  estimation_method : string;
  reference_object : option string;
  best_room_type : string;
  room_confidence : Q
}.

Definition fuse (all_spatial : list spatial) (room_types : list (string * Q))
  : result estimate :=
  match all_spatial with
  | _ :: _ =>
      best_idx <- max_by (main.area_confidence_at all_spatial)
                         (seq 0 (List.length all_spatial)) ;;
      best_spatial <- index all_spatial best_idx ;;
      '(best_room_type, room_confidence) <- main.vote_room room_types ;;
      Ok {| estimated_area := get (sp_area best_spatial) 0;
            area_confidence := get (sp_area_confidence best_spatial) 0;
            estimation_method :=
              get (sp_estimation_method best_spatial) "unknown"%string;
            reference_object := sp_reference_object best_spatial;
            best_room_type := best_room_type;
            room_confidence := room_confidence |}
  | [] =>
      Ok {| estimated_area := 0;
            area_confidence := 0;
            estimation_method := "none";
            reference_object := None;
            best_room_type := "unknown";
            room_confidence := 0 |}
  end.

(** An entry of [discrepancy_details]. The source renders each as a
    sentence with an f-string; the entry keeps what is rendered. *)
Inductive discrepancy_detail : Type :=
| AreaDiscrepancy (claimed_area estimated_area area_diff_percent : Q)
| StructuralIssues (total_cracks : nat)
| SecondStageNote (max_severity : string).

(** [if claimed_area and estimated_area > 0: ...]: the flag and the details
    after the area comparison. *)
Definition compare_area (claimed_area : option Q) (estimated_area : Q)
  : result (bool * list discrepancy_detail) :=
  match claimed_area with
  | Some claimed =>
      if negb (Qeq_bool claimed 0) && Qltb 0 estimated_area then
        ratio <- truediv (Qabs (claimed - estimated_area)) claimed ;;
        let area_diff_percent := ratio * 100 in
        if Qltb 15 area_diff_percent
        then Ok (true, [AreaDiscrepancy claimed estimated_area area_diff_percent])
        else Ok (false, [])
      else Ok (false, [])
  | None => Ok (false, [])
  end.

(** The values bound by the UPDATE that stores Gemini's verdict. *)
Record gemini_update : Type := {
  gemini_crack_is_real : bool;
  gemini_crack_description : string;
  gemini_crack_severity : string;
  gemini_confidence : Q
}.

Definition photo_path (p : photo) : image_path :=
  {| path_exists := photo_exists p;
     path_basename := photo_basename p;
     path_analysis := photo_gemini p |}.

(** The block under [if GEMINI_AVAILABLE:]. *)
Definition second_stage (GEMINI_AVAILABLE : bool) (photos : list photo)
  (discrepancy_details : list discrepancy_detail)
  : list discrepancy_detail * option gemini_update :=
  if GEMINI_AVAILABLE then
    let photo_paths := map photo_path (filter photo_exists photos) in
    match photo_paths with
    | _ :: _ =>
        let gemini_result := verify_property_images photo_paths in
        let discrepancy_details :=
          if v_has_real_crack gemini_result then discrepancy_details
          else discrepancy_details
               ++ [SecondStageNote (v_max_severity gemini_result)] in
        (discrepancy_details,
         Some {| gemini_crack_is_real := v_has_real_crack gemini_result;
                 gemini_crack_description := recommendation gemini_result;
                 gemini_crack_severity := v_max_severity gemini_result;
                 gemini_confidence :=
                   if v_has_real_crack gemini_result then 0.9 else 0.85 |})
    | [] => (discrepancy_details, None)
    end
  else (discrepancy_details, None).

(** The values bound by the UPDATE of [properties] that stores the
    analysis; an empty list is stored as NULL. *)
Record property_update : Type := {
  ai_estimated_area : Q;
  ai_room_type : string;
  ai_confidence : Q;
  ai_crack_detected : bool;
  ai_discrepancy_flag : bool;
  ai_discrepancy_details : option (list discrepancy_detail);
  ai_detections : option (list result_entry);
  gemini : option gemini_update
}.

(** The dict returned: [analysis] and [discrepancy], beside the constants
    [success], [needs_confirmation] and [next_step]. *)
Record analysis : Type := {
  an_estimated_area : Q;
  an_room_type : string;
  an_area_confidence : Q;
  an_room_confidence : Q;
  cracks_detected : nat;
  an_estimation_method : string;
  an_reference_object : option string
}.

Record reply : Type := {
  reply_success : bool;
  reply_analysis : analysis;
  has_discrepancy : bool;
  details : list discrepancy_detail;
  needs_confirmation : bool;
  next_step : string
}.

Definition nonempty {A : Type} (l : list A) : option (list A) :=
  match l with
  | [] => None
  | _ :: _ => Some l
  end.

(** From the loop over the photos to the return statement. *)
Definition analyse (GEMINI_AVAILABLE : bool) (row : property_row)
  : result (reply * property_update) :=
  g <- gather nothing_gathered (photos row) ;;
  e <- fuse (all_spatial g) (room_types g) ;;
  '(has_discrepancy, discrepancy_details) <-
     compare_area (claimed_area row) (estimated_area e) ;;
  let '(has_discrepancy, discrepancy_details, gemini) :=
    if (0 <? total_cracks g)%nat then
      let discrepancy_details :=
        discrepancy_details ++ [StructuralIssues (total_cracks g)] in
      let '(discrepancy_details, gemini) :=
        second_stage GEMINI_AVAILABLE (photos row) discrepancy_details in
      (true, discrepancy_details, gemini)
    else (has_discrepancy, discrepancy_details, None) in
  Ok ({| reply_success := true;
         reply_analysis :=
           {| an_estimated_area := round (estimated_area e) 2;
              an_room_type := best_room_type e;
              an_area_confidence := round (area_confidence e) 1;
              an_room_confidence := round (room_confidence e * 100) 1;
              cracks_detected := total_cracks g;
              an_estimation_method := estimation_method e;
              an_reference_object := reference_object e |};
         has_discrepancy := has_discrepancy;
         details := discrepancy_details;
         needs_confirmation := true;
         next_step := "confirm_analysis" |},
      {| ai_estimated_area := estimated_area e;
         ai_room_type := best_room_type e;
         ai_confidence := (area_confidence e + room_confidence e * 100) / 2;
         ai_crack_detected := (0 <? total_cracks g)%nat;
         ai_discrepancy_flag := has_discrepancy;
         ai_discrepancy_details := nonempty discrepancy_details;
         ai_detections := nonempty (all_detections g);
         gemini := gemini |}).

(** The handler on the row found for [property_id] ([None]: no such row).
    The first component is the [verification_status] last committed by the
    call, [None] when it commits nothing: "ai_analyzing" is committed before
    the loop (line 334), "ai_complete" after it (line 497). The UPDATE that
    stores the analysis (lines 455-481) sets [ai_detections]; on a table
    without that column it raises sqlite3.OperationalError, nothing catches
    it and the second commit is not reached. *)
Definition analyze_property (GEMINI_AVAILABLE : bool) (row : option property_row)
  : option string * outcome (reply * property_update) :=
  match row with
  | None => (None, HTTPException 404 "Property not found")
  | Some row =>
      match photos row with
      | [] => (None, HTTPException 400 "No photos uploaded")
      | _ :: _ =>
          match analyse GEMINI_AVAILABLE row with
          | Ok r =>
              if ai_detections_column row
              then (Some "ai_complete"%string, Returned r)
              else (Some "ai_analyzing"%string, OperationalError)
          | Raise e => (Some "ai_analyzing"%string, Uncaught e)
          end
      end
  end.

End main_property.

(** Vocabulary for the property analysis. *)
Module Dossier.

Import analyzer Vocabulary Samples Terms gemini_verifier Verdicts main_property.

(** The crack model's boxes on a photo whose image can be read. *)
Definition crack_boxes (p : photo) : nat :=
  match sc_img (photo_scene p) with
  | Some _ => List.length (sc_cracks (photo_scene p))
  | None => 0
  end.

(** The boxes on all photos found on disk. *)
Definition total_crack_boxes (ps : list photo) : nat :=
  list_sum (map crack_boxes (filter photo_exists ps)).

(** A photo found on disk whose analysis raises. *)
Definition raising_photo (p : photo) : bool :=
  photo_exists p && raising_scene (photo_scene p).

(** The area measured on the first photo found on disk. *)
Definition first_area (ps : list photo) : Q :=
  match filter photo_exists ps with
  | [] => 0
  | p :: _ => area_of (photo_scene p)
  end.

(** Gemini confirms a crack on some photo found on disk. *)
Definition crack_confirmed (ps : list photo) : bool :=
  existsb confirmed (map photo_path (filter photo_exists ps)).

(** The reply and the stored values of a call that returned. *)
Definition no_analysis : analysis :=
  {| an_estimated_area := 0; an_room_type := "unknown";
     an_area_confidence := 0; an_room_confidence := 0; cracks_detected := 0;
     an_estimation_method := "none"; an_reference_object := None |}.

Definition reply_of (out : option string * outcome (reply * property_update))
  : reply :=
  match snd out with
  | Returned (r, _) => r
  | _ => {| reply_success := false; reply_analysis := no_analysis;
            has_discrepancy := false; details := [];
            needs_confirmation := false; next_step := "none" |}
  end.

Definition update_of (out : option string * outcome (reply * property_update))
  : property_update :=
  match snd out with
  | Returned (_, u) => u
  | _ => {| ai_estimated_area := 0; ai_room_type := "unknown";
            ai_confidence := 0; ai_crack_detected := false;
            ai_discrepancy_flag := false; ai_discrepancy_details := None;
            ai_detections := None; gemini := None |}
  end.

(** Sample photos and rows. *)
Definition photo_of (sc : scene) (verdict : crack_analysis) : photo :=
  {| photo_exists := true; photo_scene := sc; photo_basename := "photo.jpg";
     photo_gemini := verdict |}.

Definition lost_photo : photo :=
  {| photo_exists := false; photo_scene := crack_scene;
     photo_basename := "lost.jpg"; photo_gemini := answer_of true "severe" |}.

Definition row_of (ps : list photo) (claimed : option Q) : property_row :=
  {| photos := ps; claimed_area := claimed; claimed_width := None;
     claimed_length := None; ai_detections_column := true |}.

(** A row with a cracked wall photographed beside an A4 sheet, a bedroom
    photo and a photo that is no longer on disk. *)
Definition cracked_row : property_row :=
  row_of [photo_of crack_scene (answer_of false "none"); lost_photo;
          photo_of bedroom_scene (answer_of false "none")] (Some 20).

Definition bedroom_row : property_row :=
  row_of [photo_of bedroom_scene (answer_of false "none")] (Some 20).

Definition lost_row : property_row := row_of [lost_photo] (Some 20).

End Dossier.

(** ** models.py: VerificationTier, TIER_PRICING *)

Module models.

(** The enum has a single member, [STANDARD = "standard"]. *)
Inductive VerificationTier : Type := STANDARD.

(** [VerificationTier(value)]: the member with that value; ValueError when
    there is none. *)
Definition VerificationTier_of (value : string) : result VerificationTier :=
  if String.eqb value "standard" then Ok STANDARD else Raise ValueError.

(** [TIER_PRICING.get(tier, default)]. *)
Definition TIER_PRICING (tier : VerificationTier) : option Z :=
  match tier with
  | STANDARD => Some 1000%Z
  end.

End models.

(** ** main.py: submit_property (145-238), process_payment (607-701) *)

Module main_workflow.

Import models.

(** The form fields of a submission other than the tier; they are bound to
    the INSERT as given. *)
Record listing : Type := {
  seller_name : string;
  seller_email : string;
  seller_phone : string;
  property_type : string;
  listing_type : string;
  title : string;
  description : option string;
  address : string;
  city : string;
  state : string;
  pincode : string;
  claimed_area : option Q;
  claimed_width : option Q;
  claimed_length : option Q;
  bedrooms : option Z;
  bathrooms : option Z;
  price : Q
}.

(** The statements the two handlers execute, with the values they bind; of
    a log entry the clock's timestamp and the JSON metadata are left out. *)
Inductive statement : Type :=
| InsertProperty (form : listing) (verification_tier verification_status : string)
| InsertVerificationRequest (property_id : Z) (tier : string) (payment_amount : Z)
| InsertLog (property_id : Z) (action description performed_by : string)
| UpdatePropertyStatus (property_id : Z) (verification_status : string)
| UpdateRequestPayment (property_id : Z)
    (status payment_status payment_id : string)
| UpdateRequestInspector (property_id : Z) (inspector_name : string)
| UpdatePropertyInspector (property_id inspector_id : Z).

(** A connection: the statements it has committed to the database and those
    of its open transaction. *)
Record connection : Type := {
  committed : list statement;
  pending : list statement
}.

Definition get_db : connection := {| committed := []; pending := [] |}.

Definition execute (st : statement) (conn : connection) : connection :=
  {| committed := committed conn; pending := pending conn ++ [st] |}.

Definition commit (conn : connection) : connection :=
  {| committed := committed conn ++ pending conn; pending := [] |}.

Definition rollback (conn : connection) : connection :=
  {| committed := committed conn; pending := [] |}.

(** Closing discards the open transaction; what stays is what was
    committed. *)
Definition close (conn : connection) : list statement := committed conn.

(** How a handler ends: it returns, it raises an HTTPException (for the 500
    of [submit_property] the detail is [str(e)] of the exception caught), or
    an exception leaves it uncaught. *)
Inductive outcome (A : Type) : Type :=
| Returned (a : A)
| NotFound
| ServerError (e : exn)
| Uncaught (e : exn).

Arguments Returned {A} a.
Arguments NotFound {A}.
Arguments ServerError {A} e.
Arguments Uncaught {A} e.

Record submission : Type := {
  s_success : bool;
  s_property_id : Z;
  s_message : string;
  s_next_step : string
}.

(** [lastrowid] is the id SQLite gives the inserted row. The result is the
    list of statements committed by the call and how it ended. *)
Definition submit_property (form : listing) (verification_tier : string)
  (lastrowid : Z) : list statement * outcome submission :=
  let conn := get_db in
  let conn := execute (InsertProperty form verification_tier "pending") conn in
  let property_id := lastrowid in
  let conn := commit conn in
  match VerificationTier_of verification_tier with
  | Ok tier =>
      let conn :=
        execute (InsertVerificationRequest property_id verification_tier
                   (get (TIER_PRICING tier) 0%Z)) conn in
      let conn :=
        execute (InsertLog property_id "submitted"
                   "Property submitted for verification" "user") conn in
      let conn := commit conn in
      (close conn,
       Returned {| s_success := true;
                   s_property_id := property_id;
                   s_message :=
                     "Property submitted successfully. Please upload photos.";
                   s_next_step := "upload_photos" |})
  | Raise e =>
      let conn := rollback conn in
      (close conn, ServerError e)
  end.

Record receipt : Type := {
  r_success : bool;
  r_payment_id : string;
  r_amount : Z;
  r_message : string;
  r_next_step : string
}.

(** [row] is the tier of the property selected ([None]: no such row),
    [payment_id] the identifier drawn from [uuid4], [inspector] the first
    available inspector, if any. *)
Definition process_payment (property_id : Z) (row : option string)
  (payment_method payment_id : string) (inspector : option (Z * string))
  : list statement * outcome receipt :=
  let conn := get_db in
  match row with
  | None => (close conn, NotFound)
  | Some tier =>
      match VerificationTier_of tier with
      | Raise e => (close conn, Uncaught e)
      | Ok member =>
          let amount := get (TIER_PRICING member) 0%Z in
          let '(next_status, next_step, message) :=
            if String.eqb tier "standard"
            then ("document_review"%string, "document_review"%string,
                  "Payment successful! Document verification in progress."%string)
            else ("inspector_assigned"%string, "schedule_inspection"%string,
                  "Payment successful! An inspector will be assigned."%string) in
          let conn := execute (UpdatePropertyStatus property_id next_status) conn in
          let conn :=
            execute (UpdateRequestPayment property_id next_status "completed"
                       payment_id) conn in
          let conn :=
            if String.eqb tier "premium" then
              match inspector with
              | Some (inspector_id, inspector_name) =>
                  let conn :=
                    execute (UpdateRequestInspector property_id inspector_name)
                            conn in
                  execute (UpdatePropertyInspector property_id inspector_id) conn
              | None => conn
              end
            else conn in
          let conn := commit conn in
          let log_conn := get_db in
          let log_conn :=
            execute (InsertLog property_id "payment_completed"
                       (String.append "Payment request submitted via "
                                      payment_method) "user") log_conn in
          let log_conn := commit log_conn in
          (close conn ++ close log_conn,
           Returned {| r_success := true;
                       r_payment_id := payment_id;
                       r_amount := amount;
                       r_message := message;
                       r_next_step := next_step |})
      end
  end.

(** The statements that assign an inspector. *)
Definition assigns_inspector (st : statement) : bool :=
  match st with
  | UpdateRequestInspector _ _ | UpdatePropertyInspector _ _ => true
  | _ => false
  end.

End main_workflow.

(** * Properties *)

(** ** Python primitives *)

Section Primitives.

Lemma Qltb_lt (x y : Q) : Qltb x y = true <-> x < y.
Proof.
  unfold Qltb. rewrite negb_true_iff. split; intro H.
  - apply Qnot_le_lt. intro Hle. apply Qle_bool_iff in Hle. congruence.
  - destruct (Qle_bool y x) eqn:E; [|reflexivity].
    apply Qle_bool_iff in E. exfalso. apply (Qlt_not_le _ _ H E).
Qed.

Lemma Qltb_ge (x y : Q) : Qltb x y = false <-> y <= x.
Proof.
  unfold Qltb. rewrite negb_false_iff. apply Qle_bool_iff.
Qed.

Lemma Qeq_bool_false (x y : Q) : ~ x == y -> Qeq_bool x y = false.
Proof.
  intro H. destruct (Qeq_bool x y) eqn:E; [|reflexivity].
  apply Qeq_bool_iff in E. contradiction.
Qed.

Lemma truediv_ok (x y : Q) : ~ y == 0 -> truediv x y = Ok (x / y).
Proof.
  intro H. unfold truediv. now rewrite (Qeq_bool_false _ _ H).
Qed.

Lemma truediv_inv (x y q : Q) : truediv x y = Ok q -> ~ y == 0 /\ q = x / y.
Proof.
  unfold truediv. destruct (Qeq_bool y 0) eqn:E; [discriminate|].
  intro H. injection H as <-. split; [now apply Qeq_bool_neq|reflexivity].
Qed.

Lemma max2_cases (a b : Q) :
  (a < b /\ max2 a b = b) \/ (b <= a /\ max2 a b = a).
Proof.
  unfold max2. destruct (Qltb a b) eqn:E.
  - left. split; [now apply Qltb_lt|reflexivity].
  - right. split; [now apply Qltb_ge|reflexivity].
Qed.

Lemma min2_cases (a b : Q) :
  (b < a /\ min2 a b = b) \/ (a <= b /\ min2 a b = a).
Proof.
  unfold min2. destruct (Qltb b a) eqn:E.
  - left. split; [now apply Qltb_lt|reflexivity].
  - right. split; [now apply Qltb_ge|reflexivity].
Qed.

Lemma min2_le_max2 (a b : Q) : min2 a b <= max2 a b.
Proof.
  destruct (max2_cases a b) as [[H ->]|[H ->]];
    destruct (min2_cases a b) as [[H' ->]|[H' ->]]; lra.
Qed.

Lemma max2_Qmax (a b : Q) : max2 a b == Qmax a b.
Proof.
  destruct (max2_cases a b) as [[H ->]|[H ->]];
    destruct (Q.max_spec a b) as [[H' E]|[H' E]]; rewrite E; lra.
Qed.

(** The element chosen by [max]: it splits the list into a prefix of
    strictly smaller keys and a suffix of keys that are not greater. *)
Lemma max_from_split {A : Type} (key : A -> Q) (rest : list A) :
  forall best : A,
  exists pre post,
    best :: rest = pre ++ max_from key best rest :: post
    /\ (forall x, In x pre -> key x < key (max_from key best rest))
    /\ (forall x, In x post -> key x <= key (max_from key best rest)).
Proof.
  induction rest as [|x rest IH]; intro best; simpl.
  - exists [], []. repeat split; simpl; intros; contradiction.
  - destruct (Qltb (key best) (key x)) eqn:E.
    + apply Qltb_lt in E.
      destruct (IH x) as (pre & post & Hsplit & Hpre & Hpost).
      exists (best :: pre), post. repeat split.
      * simpl. now rewrite Hsplit.
      * intros y [<-|Hy]; [|now apply Hpre].
        assert (Hx : key x <= key (max_from key x rest)).
        { destruct pre as [|p pre]; simpl in Hsplit.
          - injection Hsplit as Hx _. rewrite <- Hx. lra.
          - injection Hsplit as Hx _. subst p.
            apply Qlt_le_weak, Hpre. now left. }
        lra.
      * exact Hpost.
    + apply Qltb_ge in E.
      destruct (IH best) as (pre & post & Hsplit & Hpre & Hpost).
      destruct pre as [|p pre]; simpl in Hsplit.
      * injection Hsplit as Hb Hr.
        exists [], (x :: post). repeat split.
        -- simpl. now rewrite <- Hb, Hr.
        -- intros y [].
        -- intros y [<-|Hy]; [|now apply Hpost].
           rewrite <- Hb. exact E.
      * injection Hsplit as Hb Hr. subst p.
        exists (best :: x :: pre), post. repeat split.
        -- simpl. do 2 f_equal. exact Hr.
        -- intros y [<-|[<-|Hy]].
           ++ apply Hpre. now left.
           ++ assert (key best < key (max_from key best rest))
                by (apply Hpre; now left). lra.
           ++ apply Hpre. now right.
        -- exact Hpost.
Qed.

Lemma max_from_in {A : Type} (key : A -> Q) (best : A) (rest : list A) :
  In (max_from key best rest) (best :: rest).
Proof.
  destruct (max_from_split key rest best) as (pre & post & Hsplit & _).
  rewrite Hsplit. apply in_or_app. right. now left.
Qed.

(** A split of [seq] is a split by position. *)
Lemma seq_split (pre post : list nat) (i : nat) :
  forall start len,
  seq start len = pre ++ i :: post ->
  (forall x, In x pre -> (x < i)%nat) /\ (forall x, In x post -> (i < x)%nat)
  /\ (start <= i < start + len)%nat.
Proof.
  induction pre as [|p pre IH]; intros start len H.
  - destruct len as [|len]; simpl in H; [discriminate|].
    injection H as <- <-. repeat split; try lia.
    + intros x [].
    + intros x Hx. apply in_seq in Hx. lia.
  - destruct len as [|len]; simpl in H; [discriminate|].
    injection H as <- H. destruct (IH _ _ H) as (Hpre & Hpost & Hi).
    repeat split; try lia.
    + intros x [<-|Hx]; [lia|now apply Hpre].
    + exact Hpost.
Qed.

(** [round_half_even] stays between integer bounds. *)
Lemma round_half_even_bounds (a b : Z) (q : Q) :
  inject_Z a <= q -> q <= inject_Z b ->
  (a <= round_half_even q <= b)%Z.
Proof.
  intros Ha Hb.
  assert (Hfl : inject_Z (Qfloor q) <= q) by apply Qfloor_le.
  assert (Hlo : (a <= Qfloor q)%Z).
  { rewrite <- (Qfloor_Z a). now apply Qfloor_resp_le. }
  assert (Hhi : (Qfloor q <= b)%Z).
  { rewrite <- (Qfloor_Z b). now apply Qfloor_resp_le. }
  assert (Hup : 0 < q - inject_Z (Qfloor q) -> (Qfloor q + 1 <= b)%Z).
  { intro Hpos.
    assert (Hlt : inject_Z (Qfloor q) < inject_Z b) by lra.
    rewrite <- Zlt_Qlt in Hlt. lia. }
  unfold round_half_even.
  destruct (Qcompare (q - inject_Z (Qfloor q)) (1 # 2)) eqn:E.
  - apply Qeq_alt in E.
    destruct (Z.even (Qfloor q)); [lia|].
    split; [lia|]. apply Hup. rewrite E. reflexivity.
  - lia.
  - apply Qgt_alt in E. split; [lia|]. apply Hup. lra.
Qed.

Lemma round_bounds_1 (x : Q) :
  0 <= x -> x <= 100 -> 0 <= round x 1 /\ round x 1 <= 100.
Proof.
  intros H0 H1. unfold round.
  change (inject_Z (10 ^ Z.of_nat 1)) with (inject_Z 10).
  destruct (round_half_even_bounds 0 1000 (x * inject_Z 10)) as [Hlo Hhi].
  - change (inject_Z 0) with 0. change (inject_Z 10) with 10. lra.
  - change (inject_Z 1000) with 1000. change (inject_Z 10) with 10. lra.
  - rewrite Zle_Qle in Hlo, Hhi.
    change (inject_Z 0) with 0 in Hlo. change (inject_Z 1000) with 1000 in Hhi.
    set (r := inject_Z (round_half_even (x * inject_Z 10))) in *.
    change (inject_Z 10) with 10.
    split.
    + apply Qle_shift_div_l; lra.
    + apply Qle_shift_div_r; lra.
Qed.

End Primitives.

(** ** The error monad *)

Section Monad.

Lemma bind_ok {A B : Type} (c : result A) (k : A -> result B) (b : B) :
  bind c k = Ok b -> exists a, c = Ok a /\ k a = Ok b.
Proof.
  destruct c as [a|e]; simpl; intro H; [|discriminate].
  now exists a.
Qed.

End Monad.

(** Case analysis on the next test, or the next fallible call, of a run
    that is known to return. *)
Ltac run_if H E :=
  match type of H with
  | (if ?b then _ else _) = Ok _ => destruct b eqn:E; try discriminate H
  end.

Ltac run_bind H a E :=
  apply bind_ok in H; destruct H as (a & E & H).

(** ** The calibration-target locator *)

Section Locator.

Import analyzer Vocabulary Samples.

(** A ratio of at least 1.2 between the larger and the smaller of two sides
    makes the larger one positive. *)
Lemma aspect_positive (rw rh : Q) :
  ~ min2 rw rh == 0 ->
  1.2 <= max2 rw rh / min2 rw rh ->
  0 < max2 rw rh.
Proof.
  intros Hmin Hasp.
  pose proof (min2_le_max2 rw rh) as Hle.
  set (lo := min2 rw rh) in *. set (hi := max2 rw rh) in *.
  assert (E : hi == (hi / lo) * lo) by (field; exact Hmin).
  set (a := hi / lo) in *.
  destruct (Qlt_le_dec 0 lo) as [Hpos|Hneg]; [lra|].
  assert (Hlo : lo < 0).
  { destruct (Qle_lt_or_eq _ _ Hneg) as [?|?]; [assumption|contradiction]. }
  nra.
Qed.

Lemma main_candidate_some (h_img w_img : Z) (cnt : contour) (c : candidate) :
  main_candidate h_img w_img cnt = Ok (Some c) ->
  cand_contour c = cnt /\ cand_rect c = (cnt_rw cnt, cnt_rh cnt)
  /\ 0 < long_side c.
Proof.
  unfold main_candidate. cbv zeta. intro H.
  run_if H Harea. run_if H Hlen. run_if H Hmin.
  run_bind H aspect Easp. apply truediv_inv in Easp as [Hmin' ->].
  run_if H Hband. run_if H Hval. run_if H Hsat.
  run_bind H solidity Esol. run_if H Hsol.
  run_bind H area_frac Efrac.
  injection H as <-. unfold long_side. simpl.
  repeat split. apply aspect_positive; [exact Hmin'|].
  apply orb_false_iff in Hband as [Hlo _]. now apply Qltb_ge in Hlo.
Qed.

Lemma fallback_candidate_some (h_img w_img : Z) (cnt : contour) (c : candidate) :
  fallback_candidate h_img w_img cnt = Ok (Some c) ->
  cand_contour c = cnt /\ cand_rect c = (cnt_rw cnt, cnt_rh cnt)
  /\ 0 < long_side c.
Proof.
  unfold fallback_candidate. cbv zeta. intro H.
  run_if H Harea. run_if H Hlen. run_if H Hmin.
  run_bind H aspect Easp. run_if H Hband.
  injection H as <-. unfold long_side. simpl.
  repeat split. apply Qltb_lt in Hmin.
  pose proof (min2_le_max2 (cnt_rw cnt) (cnt_rh cnt)). lra.
Qed.

Lemma collect_forall (step : contour -> result (option candidate))
  (P : candidate -> Prop) :
  (forall cnt c, step cnt = Ok (Some c) -> P c) ->
  forall cnts cs, collect step cnts = Ok cs -> Forall P cs.
Proof.
  intros Hstep. induction cnts as [|cnt cnts IH]; simpl; intros cs H.
  - injection H as <-. constructor.
  - run_bind H c Ec. run_bind H cs' Ecs. injection H as <-.
    destruct c as [c|]; [constructor|]; eauto.
Qed.

(** Every candidate of either pass has a positive longer side. *)
Lemma candidates_long_side (img : image) (cs : list candidate) :
  candidates img = Ok cs -> Forall (fun c => 0 < long_side c) cs.
Proof.
  unfold candidates. intro H. run_bind H found Emain.
  destruct found as [|c0 found].
  - eapply collect_forall; [|exact H].
    intros cnt c Hc. now apply fallback_candidate_some in Hc.
  - injection H as <-. eapply collect_forall; [|exact Emain].
    intros cnt c Hc. now apply main_candidate_some in Hc.
Qed.

(** Neither pass can raise: each division is behind its guard. *)
Lemma main_candidate_total (h_img w_img : Z) (cnt : contour) :
  exists r, main_candidate h_img w_img cnt = Ok r.
Proof.
  unfold main_candidate. cbv zeta.
  destruct (Qltb _ _ || Qltb _ _) eqn:Harea; [now eexists|].
  destruct ((_ <? _)%nat || (_ <? _)%nat) eqn:Hlen; [now eexists|].
  destruct (Qeq_bool _ 0) eqn:Hmin; [now eexists|].
  rewrite truediv_ok by (now apply Qeq_bool_neq). simpl.
  destruct (Qltb _ 1.2 || Qltb 1.7 _) eqn:Hasp; [now eexists|].
  destruct (Qltb (cnt_mean_val cnt) 140); [now eexists|].
  destruct (Qltb 40 (cnt_mean_sat cnt)); [now eexists|].
  destruct (Qltb 0 (cnt_hull_area cnt)) eqn:Hhull.
  - apply Qltb_lt in Hhull.
    rewrite truediv_ok by lra. simpl.
    destruct (Qltb _ 0.75) eqn:Hsol; [now eexists|].
    apply Qltb_ge in Hsol.
    apply orb_false_iff in Harea as [_ Hmax]. apply Qltb_ge in Hmax.
    assert (Harea : 0 < cnt_area cnt).
    { assert (E : cnt_area cnt
                  == (cnt_area cnt / cnt_hull_area cnt) * cnt_hull_area cnt)
        by (field; lra).
      set (s := cnt_area cnt / cnt_hull_area cnt) in *. nra. }
    rewrite truediv_ok by lra. simpl. now eexists.
  - simpl. now eexists.
Qed.

Lemma fallback_candidate_total (h_img w_img : Z) (cnt : contour) :
  exists r, fallback_candidate h_img w_img cnt = Ok r.
Proof.
  unfold fallback_candidate. cbv zeta.
  destruct (Qltb _ (cnt_area cnt)); [|now eexists].
  destruct (4 <=? _)%nat; [|now eexists].
  destruct (Qltb 0 _) eqn:Hmin; [|now eexists].
  apply Qltb_lt in Hmin.
  rewrite truediv_ok by lra. simpl.
  destruct (_ && _); now eexists.
Qed.

Lemma collect_total (step : contour -> result (option candidate)) :
  (forall cnt, exists r, step cnt = Ok r) ->
  forall cnts, exists cs, collect step cnts = Ok cs.
Proof.
  intros Hstep. induction cnts as [|cnt cnts [cs IH]]; simpl.
  - now eexists.
  - destruct (Hstep cnt) as [r ->]. rewrite IH. simpl. now eexists.
Qed.

Lemma candidates_total (img : image) : exists cs, candidates img = Ok cs.
Proof.
  unfold candidates.
  destruct (collect_total _ (main_candidate_total (h_orig img) (w_orig img))
              (contours img)) as [cs ->].
  simpl. destruct cs; [|now eexists].
  apply collect_total, fallback_candidate_total.
Qed.

(** What [find_a4_calibration] returns on a non-empty candidate list. *)
Lemma find_a4_calibration_found (img : image) (c0 : candidate)
  (cs : list candidate) :
  candidates img = Ok (c0 :: cs) ->
  let best := max_from cand_score c0 cs in
  find_a4_calibration img
  = Ok (Some (0.297 / long_side best),
        Some (bbox_of (cnt_bounding (cand_contour best))))
  /\ 0 < 0.297 / long_side best.
Proof.
  intros Hc best.
  assert (Hlong : 0 < long_side best).
  { pose proof (candidates_long_side _ _ Hc) as Hall.
    rewrite Forall_forall in Hall. apply Hall. apply max_from_in. }
  assert (Hscale : 0 < 0.297 / long_side best).
  { apply Qlt_shift_div_l; lra. }
  split; [|exact Hscale].
  unfold find_a4_calibration. rewrite Hc. simpl.
  fold best. fold (long_side best).
  rewrite truediv_ok by lra. simpl.
  rewrite truediv_ok by lra. reflexivity.
Qed.

(** [find_a4_calibration] never raises. *)
Lemma find_a4_calibration_total (img : image) :
  exists r, find_a4_calibration img = Ok r.
Proof.
  destruct (candidates_total img) as [[|c0 cs] Hc].
  - unfold find_a4_calibration. rewrite Hc. simpl. now eexists.
  - destruct (find_a4_calibration_found img c0 cs Hc) as [-> _]. now eexists.
Qed.

(** The rectangle of a candidate is the minimum-area rectangle of its
    contour. *)
Lemma candidates_rect (img : image) (cs : list candidate) :
  candidates img = Ok cs ->
  Forall (fun c => cand_rect c
                   = (cnt_rw (cand_contour c), cnt_rh (cand_contour c))) cs.
Proof.
  unfold candidates. intro H. run_bind H found Emain.
  destruct found as [|c0 found].
  - eapply collect_forall; [|exact H].
    intros cnt c Hc. apply fallback_candidate_some in Hc as (-> & -> & _).
    reflexivity.
  - injection H as <-. eapply collect_forall; [|exact Emain].
    intros cnt c Hc. apply main_candidate_some in Hc as (-> & -> & _).
    reflexivity.
Qed.

(** C6. Whenever a candidate survives, the locator returns the candidate of
    maximal score (the first one among equals), the scale 0.297 divided by
    the longer side of the minimum-area rectangle of its contour, and the
    four numbers of the axis-aligned bounding box of that contour; the scale
    is strictly positive. *)
Theorem find_a4_calibration_best (img : image) (cs : list candidate) :
  candidates img = Ok cs ->
  cs <> [] ->
  exists pre best post x y w h,
    cs = pre ++ best :: post
    /\ (forall c, In c pre -> cand_score c < cand_score best)
    /\ (forall c, In c post -> cand_score c <= cand_score best)
    /\ cnt_bounding (cand_contour best) = (x, y, w, h)
    /\ find_a4_calibration img
       = Ok (Some (0.297 / long_side best),
             Some [inject_Z x; inject_Z y; inject_Z w; inject_Z h])
    /\ long_side best
       == Qmax (cnt_rw (cand_contour best)) (cnt_rh (cand_contour best))
    /\ 0 < 0.297 / long_side best.
Proof.
  intros Hc Hne. destruct cs as [|c0 cs]; [contradiction|].
  destruct (max_from_split cand_score cs c0) as (pre & post & Hs & Hpre & Hpost).
  destruct (find_a4_calibration_found img c0 cs Hc) as [Hf Hpos].
  pose proof (candidates_rect img _ Hc) as Hrect.
  rewrite Forall_forall in Hrect.
  specialize (Hrect _ (max_from_in cand_score c0 cs)).
  set (best := max_from cand_score c0 cs) in *.
  destruct (cnt_bounding (cand_contour best)) as [[[x y] w] h] eqn:Hbox.
  exists pre, best, post, x, y, w, h.
  split; [exact Hs|]. split; [exact Hpre|]. split; [exact Hpost|].
  split; [exact Hbox|]. split; [exact Hf|]. split; [|exact Hpos].
  unfold long_side. rewrite Hrect. apply max2_Qmax.
Qed.

Lemma find_a4_calibration_best_witness :
  exists pre best post x y w h,
    sheet_candidates = pre ++ best :: post
    /\ (forall c, In c pre -> cand_score c < cand_score best)
    /\ (forall c, In c post -> cand_score c <= cand_score best)
    /\ cnt_bounding (cand_contour best) = (x, y, w, h)
    /\ find_a4_calibration sheet_image
       = Ok (Some (0.297 / long_side best),
             Some [inject_Z x; inject_Z y; inject_Z w; inject_Z h])
    /\ long_side best
       == Qmax (cnt_rw (cand_contour best)) (cnt_rh (cand_contour best))
    /\ 0 < 0.297 / long_side best.
Proof.
  apply (find_a4_calibration_best sheet_image sheet_candidates).
  - vm_compute. reflexivity.
  - unfold sheet_candidates. discriminate.
Defined.

(** The sheet of 297 pixels gives 0.001 metres per pixel. *)
Example find_a4_calibration_sheet :
  find_a4_calibration sheet_image
  = Ok (Some (0.297 / 297), Some [100; 100; 297; 210])
  /\ 0.297 / 297 == 0.001.
Proof. split; reflexivity. Qed.

End Locator.

(** ** The reference-object scale estimator *)

Section Estimator.

Import analyzer Vocabulary Samples.

Lemma reference_scale_dimension (ref : ref_data) (bbox : list Q) :
  reference_scale ref bbox
  = truediv (if Qltb (nth 3 bbox 0) (nth 2 bbox 0)
             then ref_width ref else ref_height ref)
            (scaling_dimension bbox).
Proof.
  unfold reference_scale, scaling_dimension.
  now destruct (Qltb (nth 3 bbox 0) (nth 2 bbox 0)).
Qed.

Lemma ref_step_unmatched (st : ref_state) (det : detection) :
  matched det = None -> ref_step st det = Ok st.
Proof.
  unfold matched, ref_step. cbv zeta.
  destruct (_ <? 4)%nat; [reflexivity|]. now intros ->.
Qed.

Lemma ref_step_matched (st : ref_state) (det : detection)
  (name : string) (ref : ref_data) :
  matched det = Some (name, ref) ->
  ref_step st det
  = (m_per_px <- reference_scale ref (get (det_bbox det) []) ;;
     if (ref_priority ref <? best_priority st)%Z
     then Ok {| best_reference := Some name;
                best_priority := ref_priority ref;
                best_m_per_px := Some m_per_px |}
     else Ok st).
Proof.
  unfold matched, ref_step. cbv zeta.
  destruct (_ <? 4)%nat; [discriminate|]. now intros ->.
Qed.

Lemma usable_scale (det : detection) (name : string) (ref : ref_data) :
  usable det = true -> matched det = Some (name, ref) ->
  exists m, reference_scale ref (get (det_bbox det) []) = Ok m.
Proof.
  unfold usable. intros Hu Hm. rewrite Hm in Hu.
  apply negb_true_iff, Qeq_bool_neq in Hu.
  rewrite reference_scale_dimension, (truediv_ok _ _ Hu). now eexists.
Qed.

(** Every catalogue priority is below the initial [best_priority]. *)
Lemma catalogue_priority (label name : string) (ref : ref_data) :
  matching_reference label = Some (name, ref) ->
  (1 <= ref_priority ref < 999)%Z.
Proof.
  unfold matching_reference. intro H. apply find_some in H as [Hin _].
  unfold REFERENCE_OBJECTS in Hin. simpl in Hin.
  repeat (destruct Hin as [Hin|Hin]; [injection Hin as _ <-; simpl; lia|]).
  contradiction.
Qed.

Lemma matched_priority (det : detection) (name : string) (ref : ref_data) :
  matched det = Some (name, ref) -> (1 <= ref_priority ref < 999)%Z.
Proof.
  unfold matched. destruct (_ <? 4)%nat; [discriminate|].
  apply catalogue_priority.
Qed.

(** The loop, from any state: either no detection improves on the state,
    or the state ends on the first detection of least priority rank, whose
    rank is below the one the loop started with. *)
Lemma ref_loop_spec (detections : list detection) :
  forall st : ref_state,
  forallb usable detections = true ->
  exists st',
    ref_loop st detections = Ok st'
    /\ ((st' = st
         /\ forall d n r, In d detections -> matched d = Some (n, r) ->
                          (best_priority st <= ref_priority r)%Z)
        \/ exists pre d post name ref m,
             detections = pre ++ d :: post
             /\ matched d = Some (name, ref)
             /\ reference_scale ref (get (det_bbox d) []) = Ok m
             /\ st' = {| best_reference := Some name;
                         best_priority := ref_priority ref;
                         best_m_per_px := Some m |}
             /\ (ref_priority ref < best_priority st)%Z
             /\ (forall d' n' r', In d' pre -> matched d' = Some (n', r') ->
                                  (ref_priority ref < ref_priority r')%Z)
             /\ (forall d' n' r', In d' post -> matched d' = Some (n', r') ->
                                  (ref_priority ref <= ref_priority r')%Z)).
Proof.
  induction detections as [|det rest IH]; intros st Hall; simpl.
  - exists st. split; [reflexivity|]. left. split; [reflexivity|].
    intros d n r [].
  - simpl in Hall. apply andb_true_iff in Hall as [Hdet Hrest].
    destruct (matched det) as [[name ref]|] eqn:Hm.
    + destruct (usable_scale det name ref Hdet Hm) as [m Hscale].
      rewrite (ref_step_matched st det name ref Hm), Hscale. simpl.
      destruct (ref_priority ref <? best_priority st)%Z eqn:Hlt.
      * apply Z.ltb_lt in Hlt.
        destruct (IH {| best_reference := Some name;
                        best_priority := ref_priority ref;
                        best_m_per_px := Some m |} Hrest)
          as (st' & Hrun & [[-> Hnone]|Hlater]).
        -- exists {| best_reference := Some name;
                     best_priority := ref_priority ref;
                     best_m_per_px := Some m |}.
           split; [exact Hrun|]. right.
           exists [], det, rest, name, ref, m. simpl in Hnone.
           repeat split; try assumption. intros d' n' r' [].
        -- destruct Hlater
             as (pre & d & post & n & r & m' & -> & Hd & Hs & -> & Hp & Hpre & Hpost).
           simpl in Hp.
           eexists. split; [exact Hrun|]. right.
           exists (det :: pre), d, post, n, r, m'.
           repeat split; try assumption; try lia.
           intros d' n' r' [<-|Hin] Hd'.
           ++ rewrite Hm in Hd'. injection Hd' as _ <-. exact Hp.
           ++ eapply Hpre; eassumption.
      * apply Z.ltb_ge in Hlt.
        destruct (IH st Hrest) as (st' & Hrun & [[-> Hnone]|Hlater]).
        -- exists st. split; [exact Hrun|]. left. split; [reflexivity|].
           intros d n r [<-|Hin] Hd.
           ++ rewrite Hm in Hd. injection Hd as _ <-. exact Hlt.
           ++ eapply Hnone; eassumption.
        -- destruct Hlater
             as (pre & d & post & n & r & m' & -> & Hd & Hs & -> & Hp & Hpre & Hpost).
           eexists. split; [exact Hrun|]. right.
           exists (det :: pre), d, post, n, r, m'.
           repeat split; try assumption.
           intros d' n' r' [<-|Hin] Hd'.
           ++ rewrite Hm in Hd'. injection Hd' as _ <-. lia.
           ++ eapply Hpre; eassumption.
    + rewrite (ref_step_unmatched st det Hm). simpl.
      destruct (IH st Hrest) as (st' & Hrun & [[-> Hnone]|Hlater]).
      * exists st. split; [exact Hrun|]. left. split; [reflexivity|].
        intros d n r [<-|Hin] Hd; [congruence|]. eapply Hnone; eassumption.
      * destruct Hlater
          as (pre & d & post & n & r & m' & -> & Hd & Hs & -> & Hp & Hpre & Hpost).
        eexists. split; [exact Hrun|]. right.
        exists (det :: pre), d, post, n, r, m'.
        repeat split; try assumption.
        intros d' n' r' [<-|Hin] Hd'; [congruence|].
        eapply Hpre; eassumption.
Qed.

(** The confidence as a function of the rank. *)
Lemma priority_confidence_max (p : Z) :
  priority_confidence p == Qmax 0.5 (1.0 - (inject_Z p - 1) * 0.1).
Proof. unfold priority_confidence. apply max2_Qmax. Qed.

Lemma priority_confidence_linear (p : Z) :
  (p <= 6)%Z -> priority_confidence p == 1 - (inject_Z p - 1) * 0.1.
Proof.
  intro Hp. rewrite Zle_Qle in Hp. change (inject_Z 6) with 6 in Hp.
  unfold priority_confidence.
  destruct (max2_cases 0.5 (1.0 - (inject_Z p - 1) * 0.1)) as [[H ->]|[H ->]]; lra.
Qed.

Lemma priority_confidence_floor (p : Z) :
  (6 <= p)%Z -> priority_confidence p == 0.5.
Proof.
  intro Hp. rewrite Zle_Qle in Hp. change (inject_Z 6) with 6 in Hp.
  unfold priority_confidence.
  destruct (max2_cases 0.5 (1.0 - (inject_Z p - 1) * 0.1)) as [[H ->]|[H ->]]; lra.
Qed.

(** Where the loop gets through, that is when no matched detection has a
    zero scaling dimension: among the detections that match a catalogue key
    the estimator keeps the first one of least priority rank, and returns
    the confidence max(0.5, 1.0 - (priority - 1) * 0.1): 1.0 for rank 1, 0.1
    less per rank, never below 0.5. *)
Theorem estimate_scale_keeps_best_priority
  (detections : list detection) (img_width img_height : Z) :
  forallb usable detections = true ->
  existsb is_matched detections = true ->
  exists pre d post name ref m,
    detections = pre ++ d :: post
    /\ matched d = Some (name, ref)
    /\ reference_scale ref (get (det_bbox d) []) = Ok m
    /\ (forall d' n' r', In d' pre -> matched d' = Some (n', r') ->
                         (ref_priority ref < ref_priority r')%Z)
    /\ (forall d' n' r', In d' post -> matched d' = Some (n', r') ->
                         (ref_priority ref <= ref_priority r')%Z)
    /\ estimate_scale_from_reference_objects detections img_width img_height
       = Ok (Some m, Some name, priority_confidence (ref_priority ref))
    /\ priority_confidence (ref_priority ref)
       == Qmax 0.5 (1.0 - (inject_Z (ref_priority ref) - 1) * 0.1)
    /\ priority_confidence 1 == 1.0
    /\ (forall p, (p < 6)%Z ->
                  priority_confidence (p + 1) == priority_confidence p - 0.1)
    /\ (forall p, (6 <= p)%Z -> priority_confidence p == 0.5).
Proof.
  intros Hall Hsome.
  destruct (ref_loop_spec detections ref_init Hall)
    as (st' & Hrun & [[-> Hnone]|Hbest]).
  - exfalso. apply existsb_exists in Hsome as (d & Hin & Hd).
    unfold is_matched in Hd. destruct (matched d) as [[n r]|] eqn:Hm;
      [|discriminate].
    pose proof (Hnone d n r Hin Hm) as Hge.
    pose proof (matched_priority d n r Hm) as Hlt.
    simpl in Hge. lia.
  - destruct Hbest
      as (pre & d & post & name & ref & m & -> & Hd & Hs & -> & Hp & Hpre & Hpost).
    exists pre, d, post, name, ref, m.
    do 5 (split; [assumption || reflexivity|]).
    split.
    { unfold estimate_scale_from_reference_objects. rewrite Hrun. reflexivity. }
    split; [apply priority_confidence_max|].
    split; [reflexivity|].
    split; [|apply priority_confidence_floor].
    intros p Hp6.
    rewrite !priority_confidence_linear by lia.
    rewrite inject_Z_plus. change (inject_Z 1) with 1. ring.
Qed.

Lemma estimate_scale_keeps_best_priority_witness :
  exists pre d post name ref m,
    door_detections = pre ++ d :: post
    /\ matched d = Some (name, ref)
    /\ reference_scale ref (get (det_bbox d) []) = Ok m
    /\ (forall d' n' r', In d' pre -> matched d' = Some (n', r') ->
                         (ref_priority ref < ref_priority r')%Z)
    /\ (forall d' n' r', In d' post -> matched d' = Some (n', r') ->
                         (ref_priority ref <= ref_priority r')%Z)
    /\ estimate_scale_from_reference_objects door_detections 640 480
       = Ok (Some m, Some name, priority_confidence (ref_priority ref))
    /\ priority_confidence (ref_priority ref)
       == Qmax 0.5 (1.0 - (inject_Z (ref_priority ref) - 1) * 0.1)
    /\ priority_confidence 1 == 1.0
    /\ (forall p, (p < 6)%Z ->
                  priority_confidence (p + 1) == priority_confidence p - 0.1)
    /\ (forall p, (6 <= p)%Z -> priority_confidence p == 0.5).
Proof.
  apply (estimate_scale_keeps_best_priority door_detections 640 480);
    reflexivity.
Defined.

(** The door, taller than wide, is scaled by its height: 2.1 m over 700
    pixels; it wins over the chair before it and the bed after it. *)
Example estimate_scale_door :
  estimate_scale_from_reference_objects door_detections 640 480
  = Ok (Some (2.1 / 700), Some "door"%string, priority_confidence 1).
Proof. reflexivity. Qed.

(** A matched detection whose scaling dimension is zero makes the whole
    call raise. *)
Lemma ref_loop_zero_dimension (detections : list detection) :
  forall st : ref_state,
  forallb usable detections = false ->
  ref_loop st detections = Raise ZeroDivisionError.
Proof.
  induction detections as [|det rest IH]; intros st H; simpl in H.
  - discriminate.
  - simpl. destruct (usable det) eqn:Hu; simpl in H.
    + destruct (matched det) as [[name ref]|] eqn:Hm.
      * destruct (usable_scale det name ref Hu Hm) as [m Hscale].
        rewrite (ref_step_matched st det name ref Hm), Hscale. simpl.
        destruct (_ <? _)%Z; now apply IH.
      * rewrite (ref_step_unmatched st det Hm). simpl. now apply IH.
    + unfold usable in Hu. destruct (matched det) as [[name ref]|] eqn:Hm;
        [|discriminate].
      apply negb_false_iff, Qeq_bool_iff in Hu.
      rewrite (ref_step_matched st det name ref Hm).
      rewrite reference_scale_dimension. unfold truediv.
      now rewrite (Qeq_eq_bool _ _ Hu).
Qed.

Lemma estimate_scale_raises_on_zero_dimension
  (detections : list detection) (img_width img_height : Z) :
  forallb usable detections = false ->
  estimate_scale_from_reference_objects detections img_width img_height
  = Raise ZeroDivisionError.
Proof.
  intro H. unfold estimate_scale_from_reference_objects.
  now rewrite (ref_loop_zero_dimension detections ref_init H).
Qed.

(** C2 (the code does not do this). The claim: a detection whose box is
    zero on the scaling axis is skipped and no division by zero happens.
    The code has no such guard: on a bed reported with a box of no extent
    the estimator divides 0.5 by 0 and raises ZeroDivisionError, and
    [detect_defects], which calls it outside any [try], raises too. *)
Theorem estimate_scale_zero_box_raises :
  is_matched zero_box_detection = true
  /\ scaling_dimension (get (det_bbox zero_box_detection) []) == 0
  /\ estimate_scale_from_reference_objects [zero_box_detection] 640 480
     = Raise ZeroDivisionError
  /\ detect_defects zero_box_scene = Raise ZeroDivisionError.
Proof. repeat split. Qed.

(** C7 (the code does not do this). The claim: among all detections that
    match a catalogue key the estimator keeps the one of lowest priority
    rank. Take a door of 300 x 700 pixels (rank 1) followed by a sink whose
    box has no extent (rank 5). Both match, the door has the lower rank, and
    on the door alone the estimator returns it with the scale 2.1 / 700 and
    the confidence of rank 1. With the sink behind it the loop divides the
    sink's 0.2 by 0 before it compares ranks, and the call raises
    ZeroDivisionError: no detection is kept. *)
Theorem estimate_scale_door_then_sink_raises :
  exists door sink ref_door ref_sink,
    Cases.door_then_sink = [door; sink]
    /\ matched door = Some ("door"%string, ref_door)
    /\ matched sink = Some ("sink"%string, ref_sink)
    /\ (ref_priority ref_door < ref_priority ref_sink)%Z
    /\ 0 < scaling_dimension (get (det_bbox door) [])
    /\ scaling_dimension (get (det_bbox sink) []) == 0
    /\ estimate_scale_from_reference_objects [door] 640 480
       = Ok (Some (2.1 / 700), Some "door"%string, priority_confidence 1)
    /\ estimate_scale_from_reference_objects Cases.door_then_sink 640 480
       = Raise ZeroDivisionError.
Proof.
  do 4 eexists. split; [reflexivity|]. split; [reflexivity|].
  split; [reflexivity|]. split; [reflexivity|]. split; [reflexivity|].
  split; [reflexivity|]. split; reflexivity.
Qed.

End Estimator.

(** ** Binary64 rounding *)

Section Binary64.

Import binary64.





















End Binary64.

(** ** The measurement synthesizer *)

Section Synthesizer.

Import analyzer main Vocabulary Samples.

Lemma max3_Qmax (a b c : Q) : max3 a b c == Qmax a (Qmax b c) /\ a <= max3 a b c.
Proof.
  unfold max3.
  destruct (max2_cases a b) as [[H1 ->]|[H1 ->]].
  - destruct (max2_cases b c) as [[H2 ->]|[H2 ->]];
      destruct (Q.max_spec b c) as [[H3 E3]|[H3 E3]];
      pose proof (Q.max_spec a (Qmax b c)) as [[H4 E4]|[H4 E4]];
      rewrite E4; rewrite ?E3 in *; split; lra.
  - destruct (max2_cases a c) as [[H2 ->]|[H2 ->]];
      destruct (Q.max_spec b c) as [[H3 E3]|[H3 E3]];
      pose proof (Q.max_spec a (Qmax b c)) as [[H4 E4]|[H4 E4]];
      rewrite E4; rewrite ?E3 in *; split; lra.
Qed.

Lemma Qmax_shift (m a d : Q) : Qmax (Qmax m a) d == Qmax m (Qmax a d).
Proof. symmetry. apply Q.max_assoc. Qed.

(** The accumulators of the crack loop are the sum and the maximum. *)
Lemma crack_fold_spec (cracks : list yolo_box) :
  forall (total maxd : Q) (count : Z),
  0 <= maxd ->
  total_of (fold_left crack_step cracks (total, maxd, count))
  == total + crack_area_sum cracks
  /\ max_dim_of (fold_left crack_step cracks (total, maxd, count))
     == Qmax maxd (max_crack_dimension cracks).
Proof.
  induction cracks as [|b cracks IH]; intros total maxd count Hpos; simpl.
  - unfold total_of, max_dim_of. simpl. split; [ring|].
    symmetry. now apply Q.max_l.
  - destruct (max3_Qmax maxd (box_width b) (box_height b)) as [Emax Hge].
    destruct (IH (total + box_width b * box_height b)
                 (max3 maxd (box_width b) (box_height b))
                 (count + 1)%Z) as [Ht Hm]; [lra|].
    split.
    + rewrite Ht. ring.
    + rewrite Hm, Emax. apply Qmax_shift.
Qed.

Lemma max_crack_dimension_nonneg (cracks : list yolo_box) :
  0 <= max_crack_dimension cracks.
Proof.
  induction cracks as [|b cracks IH]; simpl; [lra|].
  apply Q.max_le_iff. now right.
Qed.

(** [max_crack_dimension] is the greatest of 0 and the boxes' sides: it
    bounds every side, and it is 0 or one of the sides. *)
Lemma max_crack_dimension_upper (cracks : list yolo_box) (b : yolo_box) :
  In b cracks ->
  box_width b <= max_crack_dimension cracks
  /\ box_height b <= max_crack_dimension cracks.
Proof.
  induction cracks as [|c cracks IH]; simpl; [contradiction|].
  intros [->|Hin].
  - split; apply Q.max_le_iff; left; apply Q.max_le_iff;
      [left|right]; apply Qle_refl.
  - destruct (IH Hin) as [Hw Hh].
    split; apply Q.max_le_iff; right; assumption.
Qed.

Lemma max_crack_dimension_attained (cracks : list yolo_box) :
  max_crack_dimension cracks == 0
  \/ exists b, In b cracks
       /\ (max_crack_dimension cracks == box_width b
           \/ max_crack_dimension cracks == box_height b).
Proof.
  induction cracks as [|c cracks IH]; simpl; [left; reflexivity|].
  destruct (Q.max_spec (Qmax (box_width c) (box_height c))
                       (max_crack_dimension cracks)) as [[_ E]|[_ E]].
  - destruct IH as [H0|(b & Hin & Hb)].
    + left. now rewrite E.
    + right. exists b. split; [now right|].
      destruct Hb as [Hb|Hb]; [left|right]; now rewrite E.
  - right. exists c. split; [now left|].
    destruct (Q.max_spec (box_width c) (box_height c)) as [[_ E']|[_ E']];
      [right|left]; now rewrite E, E'.
Qed.

Lemma crack_loop_spec (cracks : list yolo_box) :
  total_of (crack_loop cracks) == crack_area_sum cracks
  /\ max_dim_of (crack_loop cracks) == max_crack_dimension cracks.
Proof.
  unfold crack_loop.
  destruct (crack_fold_spec cracks 0 0 0%Z) as [Ht Hm]; [lra|].
  split.
  - rewrite Ht. ring.
  - rewrite Hm. apply Q.max_r, max_crack_dimension_nonneg.
Qed.

(** [detect_defects] on a readable image, once the calibration is known. *)
Lemma detect_defects_readable (sc : scene) (img : image) (cal : calibration) :
  sc_img sc = Some img ->
  calibrate img (map object_detection (sc_objects sc)) = Ok cal ->
  detect_defects sc
  = (spatial_data <- spatial_measurements img (sc_room_type sc)
                       (sc_room_confidence sc) cal
                       (total_of (crack_loop (sc_cracks sc)))
                       (max_dim_of (crack_loop (sc_cracks sc))) ;;
     Ok ((if cal_a4_found cal
          then [Detected (a4_detection (cal_a4_bbox cal))] else [])
         ++ [RoomType (sc_room_type sc) (sc_room_confidence sc)]
         ++ map Detected (map object_detection (sc_objects sc))
         ++ map (fun b => Detected (crack_detection b)) (sc_cracks sc),
         spatial_data, cal_is_calibrated cal, (h_orig img, w_orig img))).
Proof.
  intros Himg Hcal. unfold detect_defects. rewrite Himg, Hcal. simpl.
  unfold total_of, max_dim_of.
  destruct (crack_loop (sc_cracks sc)) as [[total maxd] count]. reflexivity.
Qed.

(** [is_calibrated] holds exactly when [m_per_px] is not [None]. *)
Lemma calibrate_is_calibrated (img : image) (dets : list detection)
  (cal : calibration) :
  calibrate img dets = Ok cal ->
  cal_is_calibrated cal = is_some (cal_m_per_px cal).
Proof.
  unfold calibrate. intro H. run_bind H found Ea4.
  destruct found as [m_per_px a4_bbox].
  destruct (is_some m_per_px) eqn:Hm.
  - injection H as <-. simpl. now rewrite Hm.
  - run_bind H est Eest. destruct est as [[ref_m ref_obj] ref_conf].
    destruct (is_some ref_m) eqn:Href; injection H as <-; simpl; congruence.
Qed.

(** The keys that step 5 never assigns. *)
Lemma spatial_measurements_carried (img : image) (room_type : string)
  (room_confidence : Q) (cal : calibration) (total maxd : Q) (sp : spatial) :
  spatial_measurements img room_type room_confidence cal total maxd = Ok sp ->
  sp_room_type sp = Some room_type
  /\ sp_room_confidence sp = Some (round (room_confidence * 100) 1)
  /\ sp_reference_object sp = cal_reference_object cal
  /\ sp_area_confidence sp = None
  /\ sp_estimation_method sp = None.
Proof.
  unfold spatial_measurements. cbv zeta. intro H.
  run_if H Hcal; run_if H Harea.
  - run_bind H m Em. run_bind H ratio Eratio. run_bind H width Ew.
    injection H as <-. simpl. auto.
  - run_bind H m Em. injection H as <-. simpl. auto.
  - run_bind H ratio Eratio. injection H as <-. simpl. auto.
  - injection H as <-. simpl. auto.
Qed.

Lemma detect_defects_carried (sc : scene) (results : list result_entry)
  (sp : spatial) (calibrated : bool) (size : Z * Z) :
  detect_defects sc = Ok (results, sp, calibrated, size) ->
  sp_area_confidence sp = None
  /\ sp_estimation_method sp = None
  /\ exists v, sp_room_confidence sp = Some v
       /\ (sc_img sc = None -> v = 0.0)
       /\ (sc_img sc <> None -> v = round (sc_room_confidence sc * 100) 1).
Proof.
  unfold detect_defects. intro H.
  destruct (sc_img sc) as [img|].
  - run_bind H cal Ecal.
    destruct (crack_loop (sc_cracks sc)) as [[total maxd] count].
    run_bind H sp' Esp. injection H as _ <- _ _.
    apply spatial_measurements_carried in Esp
      as (_ & Hconf & _ & Harea & Hmethod).
    repeat split; try assumption.
    eexists. split; [exact Hconf|]. split; [discriminate|reflexivity].
  - injection H as _ <- _ _. simpl. repeat split.
    eexists. split; [reflexivity|]. split; [reflexivity|congruence].
Qed.

(** C3, as the code has it. No measurement of the synthesizer carries an
    [estimation_method] key (nor an [area_confidence] key), whichever path
    supplied the scale; the fuser's read of the absent key,
    [.get("estimation_method", "unknown")], gives "unknown". *)
Theorem detect_defects_estimation_method_absent (sc : scene)
  (results : list result_entry) (sp : spatial) (calibrated : bool)
  (size : Z * Z) :
  detect_defects sc = Ok (results, sp, calibrated, size) ->
  sp_estimation_method sp = None
  /\ sp_area_confidence sp = None
  /\ get (sp_estimation_method sp) "unknown"%string = "unknown"%string.
Proof.
  intro H. apply detect_defects_carried in H as (Harea & Hmethod & _).
  rewrite Hmethod. auto.
Qed.

Lemma detect_defects_estimation_method_absent_witness :
  sp_estimation_method (measurement (detect_defects bedroom_scene)) = None
  /\ sp_area_confidence (measurement (detect_defects bedroom_scene)) = None
  /\ get (sp_estimation_method (measurement (detect_defects bedroom_scene)))
         "unknown"%string = "unknown"%string.
Proof.
  apply (detect_defects_estimation_method_absent bedroom_scene
           (entries (detect_defects bedroom_scene))
           (measurement (detect_defects bedroom_scene))
           true (800, 1000)%Z).
  reflexivity.
Defined.

(** C3 as stated fails: the scale of [bedroom_scene] comes from the
    calibration target, yet its measurement has no estimation_method, so
    not "calibration_target"; fused, it reads "unknown". *)
Lemma detect_defects_never_tags_calibration_target :
  calibrate sheet_image [] = Ok sheet_calibration
  /\ cal_a4_found sheet_calibration = true
  /\ detect_defects bedroom_scene
     = Ok (entries (detect_defects bedroom_scene),
           measurement (detect_defects bedroom_scene), true, (800, 1000)%Z)
  /\ sp_estimation_method (measurement (detect_defects bedroom_scene))
     <> Some "calibration_target"%string
  /\ exists resp,
       reconstruct_room [bedroom_scene] = Ok resp
       /\ f_estimation_method (spatial_data resp) = Some "unknown"%string.
Proof.
  split; [reflexivity|]. split; [reflexivity|]. split; [reflexivity|].
  split; [discriminate|].
  eexists. split; reflexivity.
Qed.

(** C8, as the code has it. For a classifier probability in [0, 1] the
    [room_confidence] of a measurement is a percentage in [0, 100]: the
    probability times 100, rounded to one decimal (0.0 for an unreadable
    image). *)
Theorem detect_defects_room_confidence_percent (sc : scene)
  (results : list result_entry) (sp : spatial) (calibrated : bool)
  (size : Z * Z) :
  0 <= sc_room_confidence sc -> sc_room_confidence sc <= 1 ->
  detect_defects sc = Ok (results, sp, calibrated, size) ->
  exists v, sp_room_confidence sp = Some v
    /\ 0 <= v /\ v <= 100
    /\ (sc_img sc <> None -> v = round (sc_room_confidence sc * 100) 1)
    /\ (sc_img sc = None -> v = 0.0).
Proof.
  intros Hlo Hhi H.
  apply detect_defects_carried in H as (_ & _ & v & Hv & Hnone & Hsome).
  exists v. split; [exact Hv|].
  destruct (sc_img sc) as [img|].
  - rewrite Hsome by discriminate.
    destruct (round_bounds_1 (sc_room_confidence sc * 100)) as [H0 H1]; try lra.
    split; [exact H0|]. split; [exact H1|]. split; [reflexivity|discriminate].
  - rewrite Hnone by reflexivity.
    split; [lra|]. split; [lra|]. split; [congruence|reflexivity].
Qed.

Lemma detect_defects_room_confidence_percent_witness :
  exists v,
    sp_room_confidence (measurement (detect_defects bedroom_scene)) = Some v
    /\ 0 <= v /\ v <= 100
    /\ (sc_img bedroom_scene <> None ->
        v = round (sc_room_confidence bedroom_scene * 100) 1)
    /\ (sc_img bedroom_scene = None -> v = 0.0).
Proof.
  apply (detect_defects_room_confidence_percent bedroom_scene
           (entries (detect_defects bedroom_scene))
           (measurement (detect_defects bedroom_scene))
           true (800, 1000)%Z).
  - vm_compute. discriminate.
  - vm_compute. discriminate.
  - reflexivity.
Defined.

(** C8 as stated fails: a classifier probability of 0.8 is stored as 80.0,
    outside [0, 1]. *)
Lemma detect_defects_room_confidence_above_one :
  exists v,
    sp_room_confidence (measurement (detect_defects bedroom_scene)) = Some v
    /\ v == 80
    /\ ~ v <= 1.
Proof.
  eexists. split; [reflexivity|]. split; [reflexivity|].
  intro H. vm_compute in H. apply H. reflexivity.
Qed.

(** C9. An unreadable image gives the empty detection list, a measurement
    whose width, height, length and area are 0.0, [is_calibrated] false and
    the size [0, 0]; the call returns, it does not raise. *)
Theorem detect_defects_unreadable (sc : scene) :
  sc_img sc = None ->
  exists sp,
    detect_defects sc = Ok ([], sp, false, (0%Z, 0%Z))
    /\ sp_width sp = Some 0.0 /\ sp_height sp = Some 0.0
    /\ sp_length sp = Some 0.0 /\ sp_area sp = Some 0.0.
Proof.
  intro H. exists unreadable_spatial. unfold detect_defects. rewrite H.
  repeat split.
Qed.

Lemma detect_defects_unreadable_witness :
  exists sp,
    detect_defects unreadable_scene = Ok ([], sp, false, (0%Z, 0%Z))
    /\ sp_width sp = Some 0.0 /\ sp_height sp = Some 0.0
    /\ sp_length sp = Some 0.0 /\ sp_area sp = Some 0.0.
Proof.
  apply (detect_defects_unreadable unreadable_scene). reflexivity.
Defined.

(** C4, as the code has it. On a calibrated image (scale s) whose crack boxes
    have a positive aggregate pixel area A, with D the greatest crack-box
    width or height counted from 0 upward: area = A * s^2, length = D * s,
    width = (A / D) * s when D > 0 and 0 otherwise, and height is the
    width. *)
Theorem detect_defects_crack_measurements (sc : scene) (img : image)
  (cal : calibration) (s : Q) :
  sc_img sc = Some img ->
  calibrate img (map object_detection (sc_objects sc)) = Ok cal ->
  cal_m_per_px cal = Some s ->
  0 < crack_area_sum (sc_cracks sc) ->
  exists results sp area length width,
    detect_defects sc = Ok (results, sp, true, (h_orig img, w_orig img))
    /\ sp_area sp = Some area
    /\ area == crack_area_sum (sc_cracks sc) * s ^ 2
    /\ sp_length sp = Some length
    /\ length == max_crack_dimension (sc_cracks sc) * s
    /\ sp_width sp = Some width
    /\ (0 < max_crack_dimension (sc_cracks sc) ->
        width == crack_area_sum (sc_cracks sc)
                 / max_crack_dimension (sc_cracks sc) * s)
    /\ (max_crack_dimension (sc_cracks sc) <= 0 -> width == 0)
    /\ sp_height sp = Some width.
Proof.
  intros Himg Hcal Hs Harea.
  pose proof (calibrate_is_calibrated _ _ _ Hcal) as Hflag.
  rewrite Hs in Hflag. simpl in Hflag.
  destruct (crack_loop_spec (sc_cracks sc)) as [Ht Hm].
  rewrite (detect_defects_readable sc img cal Himg Hcal).
  set (total := total_of (crack_loop (sc_cracks sc))) in *.
  set (maxd := max_dim_of (crack_loop (sc_cracks sc))) in *.
  assert (Hpos : Qltb 0 total = true) by (apply Qltb_lt; lra).
  unfold spatial_measurements. cbv zeta.
  rewrite Hflag, Hpos, Hs. simpl number. cbv beta iota delta [bind].
  destruct (Qltb 0 maxd) eqn:Hd.
  - apply Qltb_lt in Hd. rewrite truediv_ok by lra.
    do 5 eexists. split; [reflexivity|]. simpl.
    split; [reflexivity|]. split; [now rewrite Ht|].
    split; [reflexivity|]. split; [now rewrite Hm|].
    split; [reflexivity|]. split; [intros _; now rewrite Ht, Hm|].
    split; [intro; lra|reflexivity].
  - apply Qltb_ge in Hd.
    do 5 eexists. split; [reflexivity|]. simpl.
    split; [reflexivity|]. split; [now rewrite Ht|].
    split; [reflexivity|]. split; [now rewrite Hm|].
    split; [reflexivity|]. split; [intro; lra|].
    split; [intros _; ring|reflexivity].
Qed.

Lemma detect_defects_crack_measurements_witness :
  exists results sp area length width,
    detect_defects crack_scene = Ok (results, sp, true, (800, 1000)%Z)
    /\ sp_area sp = Some area
    /\ area == crack_area_sum (sc_cracks crack_scene) * (0.297 / 297) ^ 2
    /\ sp_length sp = Some length
    /\ length == max_crack_dimension (sc_cracks crack_scene) * (0.297 / 297)
    /\ sp_width sp = Some width
    /\ (0 < max_crack_dimension (sc_cracks crack_scene) ->
        width == crack_area_sum (sc_cracks crack_scene)
                 / max_crack_dimension (sc_cracks crack_scene) * (0.297 / 297))
    /\ (max_crack_dimension (sc_cracks crack_scene) <= 0 -> width == 0)
    /\ sp_height sp = Some width.
Proof.
  apply (detect_defects_crack_measurements crack_scene sheet_image
           sheet_calibration (0.297 / 297)).
  - reflexivity.
  - reflexivity.
  - reflexivity.
  - vm_compute. reflexivity.
Defined.

(** The crack of 200 x 50 pixels at 0.001 m per pixel: 0.01 square metres,
    0.2 m long, 0.05 m wide. *)
Example detect_defects_crack_scene :
  exists area length width,
    sp_area (measurement (detect_defects crack_scene)) = Some area
    /\ area == 0.01
    /\ sp_length (measurement (detect_defects crack_scene)) = Some length
    /\ length == 0.2
    /\ sp_width (measurement (detect_defects crack_scene)) = Some width
    /\ width == 0.05
    /\ sp_height (measurement (detect_defects crack_scene)) = Some width.
Proof. do 3 eexists. repeat split; reflexivity. Qed.

(** C4 as stated fails: [hairline_scene] is calibrated and has a crack
    detection, of pixel area A = 0 and greatest dimension D = 50; the code
    takes the branch of the floor estimate, so the area is not A * s^2 = 0
    but 0.48, and the length is not D * s = 0.05 but 0.64. *)
Lemma detect_defects_zero_area_crack :
  calibrate sheet_image (map object_detection (sc_objects hairline_scene))
  = Ok sheet_calibration
  /\ cal_m_per_px sheet_calibration = Some (0.297 / 297)
  /\ sc_cracks hairline_scene <> []
  /\ crack_area_sum (sc_cracks hairline_scene) == 0
  /\ max_crack_dimension (sc_cracks hairline_scene) == 50
  /\ exists area length,
       sp_area (measurement (detect_defects hairline_scene)) = Some area
       /\ sp_length (measurement (detect_defects hairline_scene)) = Some length
       /\ area == 0.48 /\ length == 0.64
       /\ ~ area == crack_area_sum (sc_cracks hairline_scene) * (0.297 / 297) ^ 2
       /\ ~ length == max_crack_dimension (sc_cracks hairline_scene) * (0.297 / 297).
Proof.
  split; [reflexivity|]. split; [reflexivity|]. split; [discriminate|].
  split; [reflexivity|]. split; [reflexivity|].
  do 2 eexists. split; [reflexivity|]. split; [reflexivity|].
  split; [reflexivity|]. split; [reflexivity|].
  split; intro H; vm_compute in H; discriminate H.
Qed.




End Synthesizer.

(** ** The multi-image fuser *)

Section Fuser.

Import analyzer main Vocabulary Samples.

Lemma dict_get_set {V : Type} (k : string) (v : V) (d : list (string * V)) :
  dict_get k (dict_set k v d) = Some v.
Proof.
  induction d as [|[k' v'] d IH]; simpl.
  - now rewrite String.eqb_refl.
  - destruct (String.eqb k' k) eqn:E; simpl; now rewrite E.
Qed.

Lemma dict_set_nonempty {V : Type} (k : string) (v : V) (d : list (string * V)) :
  dict_set k v d <> [].
Proof.
  destruct d as [|[k' v'] d]; simpl; [discriminate|].
  destruct (String.eqb k' k); discriminate.
Qed.

Lemma dict_get_key {V : Type} (k : string) (d : list (string * V)) :
  In k (map fst d) -> exists v, dict_get k d = Some v.
Proof.
  induction d as [|[k' v'] d IH]; simpl; [contradiction|].
  intros [->|Hin].
  - rewrite String.eqb_refl. now eexists.
  - destruct (String.eqb k' k); [now eexists|now apply IH].
Qed.

Lemma vote_total (room_votes : list (string * Q)) (rt : string * Q) :
  exists votes, vote room_votes rt = Ok votes /\ votes <> [].
Proof.
  destruct rt as [room_type conf]. unfold vote, dict_item.
  destruct (dict_get room_type room_votes) as [v|] eqn:E.
  - rewrite E. simpl. eexists. split; [reflexivity|apply dict_set_nonempty].
  - rewrite dict_get_set. simpl.
    eexists. split; [reflexivity|apply dict_set_nonempty].
Qed.

Lemma count_votes_total (room_types : list (string * Q)) :
  forall room_votes,
  exists votes,
    count_votes room_votes room_types = Ok votes
    /\ (room_votes <> [] \/ room_types <> [] -> votes <> []).
Proof.
  induction room_types as [|rt rest IH]; intro room_votes; simpl.
  - exists room_votes. split; [reflexivity|]. intros [H|H]; congruence.
  - destruct (vote_total room_votes rt) as (votes1 & -> & Hne). simpl.
    destruct (IH votes1) as (votes & Hrun & Hkeep).
    exists votes. split; [exact Hrun|]. intros _. apply Hkeep. now left.
Qed.

(** The vote never raises. *)
Lemma vote_room_total (room_types : list (string * Q)) :
  exists r, vote_room room_types = Ok r.
Proof.
  unfold vote_room. destruct room_types as [|rt rest]; [now eexists|].
  destruct (count_votes_total (rt :: rest) []) as (votes & -> & Hne). simpl.
  destruct votes as [|[k v] votes]; [exfalso; apply Hne; [now right|reflexivity]|].
  set (d := (k, v) :: votes).
  change (map fst d) with (k :: map fst votes). simpl max_by.
  cbv beta iota delta [bind].
  set (best := max_from _ k (map fst votes)).
  assert (Hin : In best (map fst d)) by apply max_from_in.
  destruct (dict_get_key best d Hin) as [total Htotal].
  unfold dict_item. rewrite Htotal. cbv beta iota delta [bind].
  now eexists.
Qed.

(** Two images voting Bedroom (80 and 60) and one voting Kitchen (30): the
    sums are 140 and 30, Bedroom wins with 140 / 3. *)
Example vote_room_bedroom :
  vote_room [("Bedroom"%string, 80); ("Kitchen"%string, 30); ("Bedroom"%string, 60)]
  = Ok ("Bedroom"%string, (0 + 80 + 60) / 3).
Proof. reflexivity. Qed.

(** The index chosen by [max(range(len(all_spatial)), key=...)]. *)
Lemma best_index (s0 : spatial) (rest : list spatial) :
  exists i best,
    max_by (area_confidence_at (s0 :: rest)) (seq 0 (List.length (s0 :: rest)))
    = Ok i
    /\ nth_error (s0 :: rest) i = Some best
    /\ (forall j s, nth_error (s0 :: rest) j = Some s ->
                    area_confidence_of s <= area_confidence_of best)
    /\ (forall j s, (j < i)%nat -> nth_error (s0 :: rest) j = Some s ->
                    area_confidence_of s < area_confidence_of best).
Proof.
  set (l := s0 :: rest). set (key := area_confidence_at l).
  change (seq 0 (List.length l)) with (0%nat :: seq 1 (List.length rest)).
  simpl max_by.
  destruct (max_from_split key (seq 1 (List.length rest)) 0%nat)
    as (pre & post & Hsplit & Hpre & Hpost).
  set (i := max_from key 0%nat (seq 1 (List.length rest))) in *.
  change (0%nat :: seq 1 (List.length rest)) with (seq 0 (List.length l)) in Hsplit.
  destruct (seq_split pre post i 0 (List.length l) Hsplit) as (Hlt & Hgt & Hi).
  destruct (nth_error l i) as [best|] eqn:Hbest;
    [|apply nth_error_None in Hbest; lia].
  assert (Hkey : forall j s, nth_error l j = Some s -> key j = area_confidence_of s).
  { intros j s Hj. unfold key, area_confidence_at. now rewrite Hj. }
  assert (Hmem : forall j s, nth_error l j = Some s ->
                 In j pre \/ j = i \/ In j post).
  { intros j s Hj.
    assert (Hin : In j (seq 0 (List.length l))).
    { apply in_seq. split; [lia|].
      apply nth_error_Some. congruence. }
    rewrite Hsplit in Hin. apply in_app_or in Hin as [Hin|[Hin|Hin]]; auto. }
  exists i, best. split; [reflexivity|]. split; [exact Hbest|]. split.
  - intros j s Hj. rewrite <- (Hkey _ _ Hj), <- (Hkey _ _ Hbest).
    destruct (Hmem j s Hj) as [Hin|[->|Hin]].
    + apply Qlt_le_weak, Hpre, Hin.
    + apply Qle_refl.
    + apply Hpost, Hin.
  - intros j s Hji Hj. rewrite <- (Hkey _ _ Hj), <- (Hkey _ _ Hbest).
    destruct (Hmem j s Hj) as [Hin|[->|Hin]].
    + apply Hpre, Hin.
    + lia.
    + apply Hgt in Hin. lia.
Qed.

(** The fusion block on a non-empty batch. *)
Lemma fuse_nonempty (all_spatial : list spatial)
  (room_types : list (string * Q)) :
  all_spatial <> [] ->
  exists i best best_room_type room_confidence,
    nth_error all_spatial i = Some best
    /\ (forall j s, nth_error all_spatial j = Some s ->
                    area_confidence_of s <= area_confidence_of best)
    /\ (forall j s, (j < i)%nat -> nth_error all_spatial j = Some s ->
                    area_confidence_of s < area_confidence_of best)
    /\ vote_room room_types = Ok (best_room_type, room_confidence)
    /\ fuse all_spatial room_types
       = Ok ({| f_width := get (sp_width best) 0;
                f_height := get (sp_height best) 2.7;
                f_length := get (sp_length best) 0;
                f_area := round (get (sp_area best) 0) 2;
                f_area_confidence := Some (area_confidence_of best);
                f_estimation_method :=
                  Some (get (sp_estimation_method best) "unknown"%string);
                f_reference_object := Some (sp_reference_object best) |},
             best_room_type, room_confidence,
             (area_confidence_of best + room_confidence) / 2).
Proof.
  intro Hne. destruct all_spatial as [|s0 rest]; [contradiction|].
  destruct (best_index s0 rest) as (i & best & Hmax & Hbest & Hall & Hfirst).
  destruct (vote_room_total room_types) as [[rt rc] Hvote].
  exists i, best, rt, rc.
  repeat (split; [assumption|]).
  unfold fuse. rewrite Hmax. cbv beta iota delta [bind].
  unfold index. rewrite Hbest. cbv beta iota delta [bind].
  rewrite Hvote. reflexivity.
Qed.

(** Records without an [area_confidence] key all have the key 0: the
    first record of the batch is the one taken. *)
Lemma fuse_unrated_takes_first (s0 : spatial) (rest : list spatial)
  (room_types : list (string * Q)) :
  Forall (fun s => sp_area_confidence s = None) (s0 :: rest) ->
  exists best_room_type room_confidence,
    fuse (s0 :: rest) room_types
    = Ok ({| f_width := get (sp_width s0) 0;
             f_height := get (sp_height s0) 2.7;
             f_length := get (sp_length s0) 0;
             f_area := round (get (sp_area s0) 0) 2;
             f_area_confidence := Some (area_confidence_of s0);
             f_estimation_method :=
               Some (get (sp_estimation_method s0) "unknown"%string);
             f_reference_object := Some (sp_reference_object s0) |},
          best_room_type, room_confidence,
          (area_confidence_of s0 + room_confidence) / 2).
Proof.
  intro Hall. rewrite Forall_forall in Hall.
  destruct (fuse_nonempty (s0 :: rest) room_types)
    as (i & best & rt & rc & Hbest & _ & Hfirst & _ & Hfuse); [discriminate|].
  exists rt, rc. destruct i as [|i].
  - injection Hbest as <-. exact Hfuse.
  - exfalso.
    assert (H0 : area_confidence_of s0 < area_confidence_of best).
    { apply (Hfirst 0%nat s0); [lia|reflexivity]. }
    unfold area_confidence_of in H0.
    rewrite (Hall s0 (or_introl eq_refl)) in H0.
    rewrite (Hall best (nth_error_In _ _ Hbest)) in H0.
    simpl in H0. lra.
Qed.

(** C1, as the code has it. On a non-empty batch the fuser takes the first
    record of greatest [area_confidence] (an absent key counting as 0) and
    copies its width, height, length, estimation_method and
    reference_object, each read with the default of its [.get]; the fused
    area is that record's area rounded to two decimals. Nothing is
    averaged. *)
Theorem fuse_takes_best_measurement (all_spatial : list spatial)
  (room_types : list (string * Q)) :
  all_spatial <> [] ->
  exists i best fused best_room_type room_confidence overall_confidence,
    fuse all_spatial room_types
    = Ok (fused, best_room_type, room_confidence, overall_confidence)
    /\ nth_error all_spatial i = Some best
    /\ (forall j s, nth_error all_spatial j = Some s ->
                    area_confidence_of s <= area_confidence_of best)
    /\ (forall j s, (j < i)%nat -> nth_error all_spatial j = Some s ->
                    area_confidence_of s < area_confidence_of best)
    /\ f_width fused = get (sp_width best) 0
    /\ f_height fused = get (sp_height best) 2.7
    /\ f_length fused = get (sp_length best) 0
    /\ f_area fused = round (get (sp_area best) 0) 2
    /\ f_estimation_method fused
       = Some (get (sp_estimation_method best) "unknown"%string)
    /\ f_reference_object fused = Some (sp_reference_object best).
Proof.
  intro Hne.
  destruct (fuse_nonempty all_spatial room_types Hne)
    as (i & best & rt & rc & Hbest & Hall & Hfirst & _ & Hfuse).
  exists i, best. do 4 eexists.
  split; [exact Hfuse|]. simpl. repeat (split; [assumption || reflexivity|]).
  reflexivity.
Qed.

Lemma fuse_takes_best_measurement_witness :
  exists i best fused best_room_type room_confidence overall_confidence,
    fuse three_records three_room_types
    = Ok (fused, best_room_type, room_confidence, overall_confidence)
    /\ nth_error three_records i = Some best
    /\ (forall j s, nth_error three_records j = Some s ->
                    area_confidence_of s <= area_confidence_of best)
    /\ (forall j s, (j < i)%nat -> nth_error three_records j = Some s ->
                    area_confidence_of s < area_confidence_of best)
    /\ f_width fused = get (sp_width best) 0
    /\ f_height fused = get (sp_height best) 2.7
    /\ f_length fused = get (sp_length best) 0
    /\ f_area fused = round (get (sp_area best) 0) 2
    /\ f_estimation_method fused
       = Some (get (sp_estimation_method best) "unknown"%string)
    /\ f_reference_object fused = Some (sp_reference_object best).
Proof.
  apply (fuse_takes_best_measurement three_records three_room_types).
  unfold three_records. discriminate.
Defined.

(** Of the records of area_confidence 0.9, 0.4 and 0.6 the first is
    taken. *)
Example fuse_three_records :
  exists fused rt rc oc,
    fuse three_records three_room_types = Ok (fused, rt, rc, oc)
    /\ f_width fused = 4 /\ f_height fused = 2.7 /\ f_length fused = 3
    /\ f_area fused == 12
    /\ f_estimation_method fused = Some "calibration_target"%string
    /\ f_reference_object fused = Some None.
Proof. do 4 eexists. repeat split; reflexivity. Qed.

(** C1 as stated fails on the area: the single record has area 0.125 and
    the fused area is 0.12. *)
Lemma fuse_rounds_area :
  exists fused rt rc oc,
    fuse [eighth_record] [("Bedroom"%string, 80)] = Ok (fused, rt, rc, oc)
    /\ sp_area eighth_record = Some 0.125
    /\ f_area fused == 0.12
    /\ ~ f_area fused == 0.125.
Proof.
  do 4 eexists. split; [reflexivity|]. split; [reflexivity|].
  split; [reflexivity|]. intro H. vm_compute in H. discriminate H.
Qed.

(** C10. An empty batch fuses to zero width, height, length and area, room
    type "unknown" with room confidence 0, overall confidence 0 and
    [needs_user_confirmation] true; the endpoint returns, it does not
    raise. *)
Theorem reconstruct_room_empty :
  exists resp,
    reconstruct_room [] = Ok resp
    /\ f_width (spatial_data resp) == 0
    /\ f_height (spatial_data resp) == 0
    /\ f_length (spatial_data resp) == 0
    /\ f_area (spatial_data resp) == 0
    /\ f_area_confidence (spatial_data resp) = None
    /\ f_estimation_method (spatial_data resp) = None
    /\ f_reference_object (spatial_data resp) = None
    /\ room_type resp = "unknown"%string
    /\ room_confidence resp == 0
    /\ overall_confidence resp == 0
    /\ needs_user_confirmation resp = true
    /\ analysis_results resp = []
    /\ is_calibrated resp = false.
Proof.
  eexists. split; [reflexivity|]. simpl.
  repeat (split; [reflexivity|]). reflexivity.
Qed.

(** The batch loop keeps a property of the measurements it collects. *)
Lemma analyse_files_all (P : spatial -> Prop) :
  (forall sc results sp calibrated size,
     detect_defects sc = Ok (results, sp, calibrated, size) -> P sp) ->
  forall files b b',
  Forall P (all_spatial b) ->
  analyse_files b files = Ok b' ->
  Forall P (all_spatial b')
  /\ List.length (all_spatial b')
     = (List.length (all_spatial b) + List.length files)%nat.
Proof.
  intros HP. induction files as [|file files IH]; intros b b' Hb H; simpl in H.
  - injection H as <-. split; [assumption|simpl; lia].
  - run_bind H b1 E1. unfold analyse_file in E1. run_bind E1 out Eout.
    destruct out as [[[detections sp] calibrated] size].
    injection E1 as <-.
    assert (Hb1 : Forall P (all_spatial b ++ [sp])).
    { apply Forall_app. split; [exact Hb|].
      constructor; [eapply HP; exact Eout|constructor]. }
    apply IH in H as [Hall Hlen]; [|exact Hb1].
    split; [exact Hall|]. rewrite Hlen. simpl. rewrite length_app. simpl. lia.
Qed.

(** Through the endpoint: a non-empty batch of analysed images is always
    reported with estimation_method "unknown" and area_confidence 0. *)
Lemma reconstruct_room_estimation_method (files : list scene) (resp : response) :
  files <> [] ->
  reconstruct_room files = Ok resp ->
  f_estimation_method (spatial_data resp) = Some "unknown"%string
  /\ f_area_confidence (spatial_data resp) = Some 0.
Proof.
  intros Hne H. unfold reconstruct_room in H. run_bind H b Eb.
  destruct (analyse_files_all
              (fun sp => sp_estimation_method sp = None
                         /\ sp_area_confidence sp = None)
              (fun sc r sp c sz Hd =>
                 let '(conj Ha (conj Hm _)) := detect_defects_carried sc r sp c sz Hd
                 in conj Hm Ha)
              files empty_batch b (Forall_nil _) Eb) as [Hall Hlen].
  assert (Hb : all_spatial b <> []).
  { destruct (all_spatial b); [|discriminate].
    destruct files; [contradiction|]. simpl in Hlen. lia. }
  destruct (fuse_nonempty (all_spatial b) (room_types b) Hb)
    as (i & best & rt & rc & Hbest & _ & _ & _ & Hfuse).
  rewrite Hfuse in H. simpl in H. injection H as <-. simpl.
  rewrite Forall_forall in Hall.
  destruct (Hall best (nth_error_In _ _ Hbest)) as [Hm Ha].
  unfold area_confidence_of. now rewrite Hm, Ha.
Qed.

End Fuser.

(** * Further properties of the code *)

(** ** analyzer.py *)

Section AnalyzerCoverage.

Import analyzer main Vocabulary Samples Terms Cases.

Lemma bbox_of_length (r : Z * Z * Z * Z) : List.length (bbox_of r) = 4%nat.
Proof. destruct r as [[[x y] w] h]. reflexivity. Qed.

(** X1. [find_a4_calibration] never raises. It returns [(None, None)] when no
    candidate survives; otherwise it returns a scale and a box together, the
    scale positive and the box of four entries. *)
Theorem find_a4_calibration_returns (img : image) :
  exists cs,
    candidates img = Ok cs
    /\ ((cs = [] /\ find_a4_calibration img = Ok (None, None))
        \/ (cs <> []
            /\ exists s box,
                 find_a4_calibration img = Ok (Some s, Some box)
                 /\ 0 < s /\ List.length box = 4%nat)).
Proof.
  destruct (candidates_total img) as [[|c0 cs] Hc].
  - exists []. split; [exact Hc|]. left. split; [reflexivity|].
    unfold find_a4_calibration. now rewrite Hc.
  - exists (c0 :: cs). split; [exact Hc|]. right. split; [discriminate|].
    destruct (find_a4_calibration_found img c0 cs Hc) as [Hf Hpos].
    do 2 eexists. split; [exact Hf|]. split; [exact Hpos|].
    apply bbox_of_length.
Qed.





Lemma ref_loop_unmatched (detections : list detection) (st : ref_state) :
  existsb is_matched detections = false -> ref_loop st detections = Ok st.
Proof.
  induction detections as [|det rest IH]; simpl; intro H; [reflexivity|].
  apply orb_false_iff in H as [Hdet Hrest]. unfold is_matched in Hdet.
  destruct (matched det) eqn:Hm; [discriminate|].
  rewrite (ref_step_unmatched st det Hm). simpl. now apply IH.
Qed.

(** X3. When no detection names a catalogue object with a box of four
    entries (in particular for no detection at all), the estimator returns
    [(None, None, 0.0)]: no scale, no reference, confidence 0. *)
Theorem estimate_scale_no_reference (detections : list detection)
  (img_width img_height : Z) :
  existsb is_matched detections = false ->
  estimate_scale_from_reference_objects detections img_width img_height
  = Ok (None, None, 0.0).
Proof.
  intro H. unfold estimate_scale_from_reference_objects.
  now rewrite (ref_loop_unmatched detections ref_init H).
Qed.

Lemma estimate_scale_no_reference_witness :
  estimate_scale_from_reference_objects person_detections 640 480
  = Ok (None, None, 0.0).
Proof.
  apply (estimate_scale_no_reference person_detections 640 480). reflexivity.
Defined.

Lemma estimate_scale_error (detections : list detection)
  (img_width img_height : Z) :
  (estimate_scale_from_reference_objects detections img_width img_height
   = Raise ZeroDivisionError
   <-> forallb usable detections = false)
  /\ (forall e,
        estimate_scale_from_reference_objects detections img_width img_height
        = Raise e -> e = ZeroDivisionError).
Proof.
  destruct (forallb usable detections) eqn:Hall.
  - destruct (ref_loop_spec detections ref_init Hall) as (st & Hrun & _).
    assert (Hret : exists r,
               estimate_scale_from_reference_objects detections img_width img_height
               = Ok r).
    { unfold estimate_scale_from_reference_objects. rewrite Hrun. simpl.
      destruct (best_m_per_px st); now eexists. }
    destruct Hret as [r Hr]. rewrite Hr.
    split; [split; discriminate|]. intros e He. discriminate.
  - rewrite (estimate_scale_raises_on_zero_dimension _ img_width img_height Hall).
    split; [split; reflexivity|]. intros e He. now injection He as <-.
Qed.

(** X4. The estimator raises exactly when some matched detection has a zero
    scaling dimension, wherever it stands in the list and whatever was found
    before it; the exception is ZeroDivisionError and no other. *)
Theorem estimate_scale_raises_iff (detections : list detection)
  (img_width img_height : Z) :
  (estimate_scale_from_reference_objects detections img_width img_height
   = Raise ZeroDivisionError
   <-> forallb usable detections = false)
  /\ (forall e,
        estimate_scale_from_reference_objects detections img_width img_height
        = Raise e -> e = ZeroDivisionError).
Proof. apply estimate_scale_error. Qed.

(** The catalogue holds positive sizes only. *)
Lemma catalogue_sizes (label name : string) (ref : ref_data) :
  matching_reference label = Some (name, ref) ->
  0 < ref_width ref /\ 0 < ref_height ref.
Proof.
  unfold matching_reference. intro H. apply find_some in H as [Hin _].
  unfold REFERENCE_OBJECTS in Hin. simpl in Hin.
  repeat (destruct Hin as [Hin|Hin];
          [injection Hin as _ <-; simpl; split; reflexivity|]).
  contradiction.
Qed.

Lemma positive_scaling_usable (detections : list detection) :
  forallb positive_scaling detections = true ->
  forallb usable detections = true.
Proof.
  induction detections as [|det rest IH]; simpl; [reflexivity|].
  intro H. apply andb_true_iff in H as [Hdet Hrest].
  rewrite (IH Hrest), andb_true_r.
  unfold usable. destruct (matched det); [|reflexivity].
  unfold positive_scaling in Hdet. apply Qltb_lt in Hdet.
  apply negb_true_iff, Qeq_bool_false. lra.
Qed.

Lemma priority_confidence_bounds (p : Z) :
  (1 <= p)%Z -> 0.5 <= priority_confidence p /\ priority_confidence p <= 1.
Proof.
  intro Hp. rewrite Zle_Qle in Hp. change (inject_Z 1) with 1 in Hp.
  unfold priority_confidence.
  destruct (max2_cases 0.5 (1.0 - (inject_Z p - 1) * 0.1)) as [[H ->]|[H ->]];
    split; lra.
Qed.

(** X5. On detections whose scaling dimension is positive the estimator
    returns, and what it returns is either [(None, None, 0.0)] or a strictly
    positive scale, the key of a catalogue entry and a confidence between
    0.5 and 1. *)
Theorem estimate_scale_positive (detections : list detection)
  (img_width img_height : Z) :
  forallb positive_scaling detections = true ->
  estimate_scale_from_reference_objects detections img_width img_height
  = Ok (None, None, 0.0)
  \/ exists m name ref confidence,
       estimate_scale_from_reference_objects detections img_width img_height
       = Ok (Some m, Some name, confidence)
       /\ In (name, ref) REFERENCE_OBJECTS
       /\ 0 < m /\ 0.5 <= confidence /\ confidence <= 1.
Proof.
  intro Hpos.
  destruct (ref_loop_spec detections ref_init (positive_scaling_usable _ Hpos))
    as (st & Hrun & [[-> _]|Hbest]).
  - left. unfold estimate_scale_from_reference_objects. now rewrite Hrun.
  - right.
    destruct Hbest
      as (pre & d & post & name & ref & m & -> & Hd & Hs & -> & _).
    exists m, name, ref, (priority_confidence (ref_priority ref)).
    split.
    { unfold estimate_scale_from_reference_objects. now rewrite Hrun. }
    assert (Hm : matching_reference (lower (get (det_label d) EmptyString))
                 = Some (name, ref)).
    { unfold matched in Hd. destruct (_ <? 4)%nat; [discriminate|exact Hd]. }
    split.
    { unfold matching_reference in Hm. apply find_some in Hm. tauto. }
    split.
    { rewrite forallb_forall in Hpos.
      assert (Hdim : positive_scaling d = true).
      { apply Hpos. apply in_or_app. right. now left. }
      unfold positive_scaling in Hdim. apply Qltb_lt in Hdim.
      rewrite reference_scale_dimension in Hs.
      apply truediv_inv in Hs as [_ ->].
      destruct (catalogue_sizes _ _ _ Hm) as [Hw Hh].
      apply Qlt_shift_div_l; [exact Hdim|].
      destruct (Qltb _ _); lra. }
    apply priority_confidence_bounds.
    pose proof (matched_priority d name ref Hd). lia.
Qed.

Lemma estimate_scale_positive_witness :
  estimate_scale_from_reference_objects door_detections 640 480
  = Ok (None, None, 0.0)
  \/ exists m name ref confidence,
       estimate_scale_from_reference_objects door_detections 640 480
       = Ok (Some m, Some name, confidence)
       /\ In (name, ref) REFERENCE_OBJECTS
       /\ 0 < m /\ 0.5 <= confidence /\ confidence <= 1.
Proof.
  apply (estimate_scale_positive door_detections 640 480). reflexivity.
Defined.

(** The calibration step with and without a sheet. *)
Lemma calibrate_with_sheet (img : image) (dets : list detection) :
  no_sheet img = false ->
  exists s box,
    0 < s
    /\ calibrate img dets
       = Ok {| cal_a4_bbox := Some box;
               cal_a4_found := true;
               cal_m_per_px := Some s;
               cal_is_calibrated := true;
               cal_reference_object := None |}.
Proof.
  unfold no_sheet. intro H.
  destruct (candidates_total img) as [[|c0 cs] Hc]; rewrite Hc in H;
    [discriminate|].
  destruct (find_a4_calibration_found img c0 cs Hc) as [Hf Hpos].
  do 2 eexists. split; [exact Hpos|].
  unfold calibrate. rewrite Hf. reflexivity.
Qed.

Lemma calibrate_without_sheet (img : image) (dets : list detection) :
  no_sheet img = true ->
  calibrate img dets
  = ('(ref_m_per_px, reference_object, ref_confidence) <-
       estimate_scale_from_reference_objects dets (w_orig img) (h_orig img) ;;
     Ok {| cal_a4_bbox := None;
           cal_a4_found := false;
           cal_m_per_px := ref_m_per_px;
           cal_is_calibrated := is_some ref_m_per_px;
           cal_reference_object := reference_object |}).
Proof.
  unfold no_sheet. intro H.
  destruct (candidates img) as [[|c0 cs]|e] eqn:Hc; try discriminate.
  unfold calibrate, find_a4_calibration. rewrite Hc. simpl.
  destruct (estimate_scale_from_reference_objects dets (w_orig img) (h_orig img))
    as [[[m r] c]|e]; [|reflexivity].
  simpl. now destruct m.
Qed.

(** Step 5 never raises once [is_calibrated] agrees with [m_per_px]. *)
Lemma spatial_measurements_total (img : image) (room_type : string)
  (room_confidence : Q) (cal : calibration) (total maxd : Q) :
  cal_is_calibrated cal = is_some (cal_m_per_px cal) ->
  exists sp,
    spatial_measurements img room_type room_confidence cal total maxd = Ok sp.
Proof.
  intro Hflag. unfold spatial_measurements. cbv zeta. rewrite Hflag.
  destruct (cal_m_per_px cal) as [m|]; simpl.
  - destruct (Qltb 0 total); [|now eexists].
    destruct (Qltb 0 maxd) eqn:Hd; [|now eexists].
    apply Qltb_lt in Hd. rewrite truediv_ok by lra. now eexists.
  - destruct (Qltb 0 total); [|now eexists].
    destruct (Qltb 0 maxd) eqn:Hd; [|now eexists].
    apply Qltb_lt in Hd. rewrite truediv_ok by lra. now eexists.
Qed.

Lemma detect_defects_after_calibration (sc : scene) (img : image)
  (cal : calibration) :
  sc_img sc = Some img ->
  calibrate img (map object_detection (sc_objects sc)) = Ok cal ->
  exists results sp,
    detect_defects sc
    = Ok (results, sp, cal_is_calibrated cal, (h_orig img, w_orig img))
    /\ spatial_measurements img (sc_room_type sc) (sc_room_confidence sc) cal
         (total_of (crack_loop (sc_cracks sc)))
         (max_dim_of (crack_loop (sc_cracks sc))) = Ok sp
    /\ results
       = (if cal_a4_found cal
          then [Detected (a4_detection (cal_a4_bbox cal))] else [])
         ++ [RoomType (sc_room_type sc) (sc_room_confidence sc)]
         ++ map Detected (map object_detection (sc_objects sc))
         ++ map (fun b => Detected (crack_detection b)) (sc_cracks sc).
Proof.
  intros Himg Hcal.
  destruct (spatial_measurements_total img (sc_room_type sc)
              (sc_room_confidence sc) cal
              (total_of (crack_loop (sc_cracks sc)))
              (max_dim_of (crack_loop (sc_cracks sc)))
              (calibrate_is_calibrated _ _ _ Hcal)) as [sp Hsp].
  rewrite (detect_defects_readable sc img cal Himg Hcal), Hsp. simpl.
  do 2 eexists. split; [reflexivity|]. split; reflexivity.
Qed.

Lemma detect_defects_error (sc : scene) :
  (detect_defects sc = Raise ZeroDivisionError <-> raising_scene sc = true)
  /\ (forall e, detect_defects sc = Raise e -> e = ZeroDivisionError).
Proof.
  unfold raising_scene.
  destruct (sc_img sc) as [img|] eqn:Himg.
  - set (dets := map object_detection (sc_objects sc)).
    destruct (no_sheet img) eqn:Hsheet.
    + pose proof (calibrate_without_sheet img dets Hsheet) as Hcal.
      destruct (forallb usable dets) eqn:Hall; simpl.
      * destruct (estimate_scale_error dets (w_orig img) (h_orig img))
          as [Hiff Honly].
        destruct (estimate_scale_from_reference_objects dets (w_orig img)
                    (h_orig img)) as [[[m r] c]|e] eqn:Hest.
        -- simpl in Hcal.
           destruct (detect_defects_after_calibration sc img _ Himg Hcal)
             as (results & sp & Hd & _).
           rewrite Hd.
           split; [split; discriminate|]. intros e He. discriminate.
        -- rewrite (Honly e eq_refl) in Hiff.
           destruct Hiff as [Hiff _]. specialize (Hiff eq_refl). congruence.
      * rewrite (estimate_scale_raises_on_zero_dimension dets _ _ Hall) in Hcal.
        simpl in Hcal.
        assert (Hd : detect_defects sc = Raise ZeroDivisionError).
        { unfold detect_defects. rewrite Himg. fold dets. now rewrite Hcal. }
        rewrite Hd. split; [split; reflexivity|].
        intros e He. now injection He as <-.
    + destruct (calibrate_with_sheet img dets Hsheet) as (s & box & _ & Hcal).
      destruct (detect_defects_after_calibration sc img _ Himg Hcal)
        as (results & sp & Hd & _).
      rewrite Hd. simpl.
      split; [split; discriminate|]. intros e He. discriminate.
  - assert (Hd : detect_defects sc
                 = Ok ([], unreadable_spatial, false, (0%Z, 0%Z))).
    { unfold detect_defects. now rewrite Himg. }
    rewrite Hd. split; [split; discriminate|]. intros e He. discriminate.
Qed.

(** X6. [detect_defects] raises in one situation only: the image is
    readable, no A4 candidate survives, and the object detector reports a
    matched box whose scaling dimension is zero; it then raises
    ZeroDivisionError. With a sheet in the image the reference objects are
    never consulted and the call always returns. *)
Theorem detect_defects_raises_iff (sc : scene) :
  (detect_defects sc = Raise ZeroDivisionError <-> raising_scene sc = true)
  /\ (forall e, detect_defects sc = Raise e -> e = ZeroDivisionError).
Proof. apply detect_defects_error. Qed.

(** The four outcomes of step 5, field by field. *)
Lemma spatial_measurements_fields (img : image) (room_type : string)
  (room_confidence : Q) (cal : calibration) (total maxd : Q) (sp : spatial) :
  spatial_measurements img room_type room_confidence cal total maxd = Ok sp ->
  exists area length width height,
    sp_area sp = Some area /\ sp_length sp = Some length
    /\ sp_width sp = Some width /\ sp_height sp = Some height
    /\ match cal_is_calibrated cal, cal_m_per_px cal with
       | true, Some m =>
           if Qltb 0 total
           then area = total * m ^ 2 /\ length = maxd * m
                /\ width = (if Qltb 0 maxd then total / maxd else 0) * m
                /\ height = width
           else area = inject_Z (w_orig img) * inject_Z (h_orig img) * 0.6 * m ^ 2
                /\ length = inject_Z (h_orig img) * m * 0.8
                /\ width = inject_Z (w_orig img) * m
                /\ height = 2.7
       | true, None => False
       | false, _ =>
           if Qltb 0 total
           then area = total /\ length = maxd
                /\ width = (if Qltb 0 maxd then total / maxd else 0)
                /\ height = 0.0
           else area = 0.0 /\ length = 0.0 /\ width = 0.0 /\ height = 0.0
       end.
Proof.
  unfold spatial_measurements. cbv zeta. intro H.
  destruct (cal_is_calibrated cal); destruct (Qltb 0 total).
  - run_bind H m Em. destruct (cal_m_per_px cal) as [m'|]; [|discriminate].
    injection Em as ->.
    run_bind H ratio Eratio. run_bind H width Ew. injection H as <-.
    simpl in Ew. injection Ew as <-.
    do 4 eexists. repeat (split; [reflexivity|]).
    destruct (Qltb 0 maxd) eqn:Hd.
    + apply truediv_inv in Eratio as [_ ->]. repeat split.
    + injection Eratio as <-. repeat split.
  - run_bind H m Em. destruct (cal_m_per_px cal) as [m'|]; [|discriminate].
    injection Em as ->. injection H as <-.
    do 4 eexists. repeat (split; [reflexivity|]). repeat split.
  - run_bind H ratio Eratio. injection H as <-.
    do 4 eexists. repeat (split; [reflexivity|]).
    destruct (Qltb 0 maxd) eqn:Hd.
    + apply truediv_inv in Eratio as [_ ->]. repeat split.
    + injection Eratio as <-. repeat split.
  - injection H as <-.
    do 4 eexists. repeat (split; [reflexivity|]). repeat split.
Qed.

(** X7. Without a scale (no sheet and no usable reference object) the
    measurement is in pixel units and [is_calibrated] is false: for a
    positive aggregate crack area A, area = A, length = D and width = A / D
    (0 when D is 0); otherwise area, length and width are 0. The height stays
    0.0 in both cases, it does not follow the width. *)
Theorem detect_defects_uncalibrated (sc : scene) (img : image)
  (cal : calibration) :
  sc_img sc = Some img ->
  calibrate img (map object_detection (sc_objects sc)) = Ok cal ->
  cal_m_per_px cal = None ->
  exists results sp area length width,
    detect_defects sc = Ok (results, sp, false, (h_orig img, w_orig img))
    /\ sp_area sp = Some area /\ sp_length sp = Some length
    /\ sp_width sp = Some width /\ sp_height sp = Some 0.0
    /\ (0 < crack_area_sum (sc_cracks sc) ->
        area == crack_area_sum (sc_cracks sc)
        /\ length == max_crack_dimension (sc_cracks sc)
        /\ (0 < max_crack_dimension (sc_cracks sc) ->
            width == crack_area_sum (sc_cracks sc)
                     / max_crack_dimension (sc_cracks sc))
        /\ (max_crack_dimension (sc_cracks sc) <= 0 -> width == 0))
    /\ (crack_area_sum (sc_cracks sc) <= 0 ->
        area == 0 /\ length == 0 /\ width == 0).
Proof.
  intros Himg Hcal Hnone.
  pose proof (calibrate_is_calibrated _ _ _ Hcal) as Hflag.
  rewrite Hnone in Hflag. simpl in Hflag.
  destruct (detect_defects_after_calibration sc img cal Himg Hcal)
    as (results & sp & Hd & Hsp & _).
  rewrite Hflag in Hd.
  apply spatial_measurements_fields in Hsp
    as (area & length & width & height & Ha & Hl & Hw & Hh & Hcase).
  rewrite Hflag in Hcase.
  destruct (crack_loop_spec (sc_cracks sc)) as [Ht Hm].
  set (total := total_of (crack_loop (sc_cracks sc))) in *.
  set (maxd := max_dim_of (crack_loop (sc_cracks sc))) in *.
  exists results, sp, area, length, width.
  split; [exact Hd|]. split; [exact Ha|]. split; [exact Hl|].
  split; [exact Hw|].
  destruct (Qltb 0 total) eqn:Hpos.
  - apply Qltb_lt in Hpos. destruct Hcase as (-> & -> & -> & ->).
    split; [exact Hh|]. split; [|intro; lra].
    intros _. split; [exact Ht|]. split; [exact Hm|].
    destruct (Qltb 0 maxd) eqn:Hdim.
    + apply Qltb_lt in Hdim. split; [intros _; now rewrite Ht, Hm|intro; lra].
    + apply Qltb_ge in Hdim. split; [intro; lra|intros _; reflexivity].
  - apply Qltb_ge in Hpos. destruct Hcase as (-> & -> & -> & ->).
    split; [exact Hh|]. split; [intro; lra|].
    intros _. repeat split; reflexivity.
Qed.

Lemma detect_defects_uncalibrated_witness :
  exists results sp area length width,
    detect_defects pixel_scene = Ok (results, sp, false, (480, 640)%Z)
    /\ sp_area sp = Some area /\ sp_length sp = Some length
    /\ sp_width sp = Some width /\ sp_height sp = Some 0.0
    /\ (0 < crack_area_sum (sc_cracks pixel_scene) ->
        area == crack_area_sum (sc_cracks pixel_scene)
        /\ length == max_crack_dimension (sc_cracks pixel_scene)
        /\ (0 < max_crack_dimension (sc_cracks pixel_scene) ->
            width == crack_area_sum (sc_cracks pixel_scene)
                     / max_crack_dimension (sc_cracks pixel_scene))
        /\ (max_crack_dimension (sc_cracks pixel_scene) <= 0 -> width == 0))
    /\ (crack_area_sum (sc_cracks pixel_scene) <= 0 ->
        area == 0 /\ length == 0 /\ width == 0).
Proof.
  apply (detect_defects_uncalibrated pixel_scene plain_image uncalibrated);
    reflexivity.
Defined.

(** X8. How the reported area relates to the reported sides on a calibrated
    image: for crack measurements (A > 0, D > 0) the area is width x length;
    for the floor estimate (A <= 0) it is three quarters of width x length,
    since the width is not reduced, the length is taken at 0.8 and the area
    at 0.6. *)
Theorem detect_defects_area_of_sides (sc : scene) (img : image)
  (cal : calibration) (s : Q) :
  sc_img sc = Some img ->
  calibrate img (map object_detection (sc_objects sc)) = Ok cal ->
  cal_m_per_px cal = Some s ->
  exists results sp area length width,
    detect_defects sc = Ok (results, sp, true, (h_orig img, w_orig img))
    /\ sp_area sp = Some area /\ sp_length sp = Some length
    /\ sp_width sp = Some width
    /\ (0 < crack_area_sum (sc_cracks sc) ->
        0 < max_crack_dimension (sc_cracks sc) ->
        area == width * length)
    /\ (crack_area_sum (sc_cracks sc) <= 0 ->
        area == 0.75 * (width * length)
        /\ width == inject_Z (w_orig img) * s
        /\ length == 0.8 * (inject_Z (h_orig img) * s)).
Proof.
  intros Himg Hcal Hs.
  pose proof (calibrate_is_calibrated _ _ _ Hcal) as Hflag.
  rewrite Hs in Hflag. simpl in Hflag.
  destruct (detect_defects_after_calibration sc img cal Himg Hcal)
    as (results & sp & Hd & Hsp & _).
  rewrite Hflag in Hd.
  apply spatial_measurements_fields in Hsp
    as (area & length & width & height & Ha & Hl & Hw & Hh & Hcase).
  rewrite Hflag, Hs in Hcase.
  destruct (crack_loop_spec (sc_cracks sc)) as [Ht Hm].
  set (total := total_of (crack_loop (sc_cracks sc))) in *.
  set (maxd := max_dim_of (crack_loop (sc_cracks sc))) in *.
  exists results, sp, area, length, width.
  split; [exact Hd|]. split; [exact Ha|]. split; [exact Hl|].
  split; [exact Hw|].
  destruct (Qltb 0 total) eqn:Hpos.
  - apply Qltb_lt in Hpos. destruct Hcase as (-> & -> & -> & _).
    split; [|intro; lra]. intros _ HD.
    assert (Hdim : Qltb 0 maxd = true) by (apply Qltb_lt; lra).
    rewrite Hdim. apply Qltb_lt in Hdim. field. lra.
  - apply Qltb_ge in Hpos. destruct Hcase as (-> & -> & -> & _).
    split; [intro; lra|]. intros _. repeat split; ring.
Qed.

Lemma detect_defects_area_of_sides_witness :
  exists results sp area length width,
    detect_defects crack_scene = Ok (results, sp, true, (800, 1000)%Z)
    /\ sp_area sp = Some area /\ sp_length sp = Some length
    /\ sp_width sp = Some width
    /\ (0 < crack_area_sum (sc_cracks crack_scene) ->
        0 < max_crack_dimension (sc_cracks crack_scene) ->
        area == width * length)
    /\ (crack_area_sum (sc_cracks crack_scene) <= 0 ->
        area == 0.75 * (width * length)
        /\ width == inject_Z 1000 * (0.297 / 297)
        /\ length == 0.8 * (inject_Z 800 * (0.297 / 297))).
Proof.
  apply (detect_defects_area_of_sides crack_scene sheet_image
           sheet_calibration (0.297 / 297)); reflexivity.
Defined.

(** X9. A single crack box of positive width and height on a calibrated
    image is reported with its longer side as the length and its shorter
    side as the width, both times the scale, and its pixel area times the
    squared scale as the area. *)
Theorem detect_defects_single_crack (sc : scene) (img : image)
  (cal : calibration) (s : Q) (b : yolo_box) :
  sc_img sc = Some img ->
  calibrate img (map object_detection (sc_objects sc)) = Ok cal ->
  cal_m_per_px cal = Some s ->
  sc_cracks sc = [b] ->
  0 < box_width b -> 0 < box_height b ->
  exists results sp area length width,
    detect_defects sc = Ok (results, sp, true, (h_orig img, w_orig img))
    /\ sp_area sp = Some area /\ sp_length sp = Some length
    /\ sp_width sp = Some width /\ sp_height sp = Some width
    /\ area == box_width b * box_height b * s ^ 2
    /\ length == Qmax (box_width b) (box_height b) * s
    /\ width == Qmin (box_width b) (box_height b) * s.
Proof.
  intros Himg Hcal Hs Hcracks Hbw Hbh.
  pose proof (calibrate_is_calibrated _ _ _ Hcal) as Hflag.
  rewrite Hs in Hflag. simpl in Hflag.
  destruct (detect_defects_after_calibration sc img cal Himg Hcal)
    as (results & sp & Hd & Hsp & _).
  rewrite Hflag in Hd.
  apply spatial_measurements_fields in Hsp
    as (area & length & width & height & Ha & Hl & Hw & Hh & Hcase).
  rewrite Hflag, Hs, Hcracks in Hcase.
  unfold crack_loop, total_of, max_dim_of in Hcase. simpl in Hcase.
  set (bw := box_width b) in *. set (bh := box_height b) in *.
  assert (Hpos : Qltb 0 (0 + bw * bh) = true) by (apply Qltb_lt; nra).
  rewrite Hpos in Hcase.
  destruct (max3_Qmax 0 bw bh) as [Emax _].
  assert (Emax' : max3 0 bw bh == Qmax bw bh).
  { rewrite Emax. apply Q.max_r.
    apply Q.max_le_iff. left. lra. }
  assert (Hdim : Qltb 0 (max3 0 bw bh) = true).
  { apply Qltb_lt. rewrite Emax'.
    destruct (Q.max_spec bw bh) as [[_ E]|[_ E]]; rewrite E; lra. }
  rewrite Hdim in Hcase. destruct Hcase as (-> & -> & -> & ->).
  exists results, sp. do 3 eexists.
  split; [exact Hd|]. split; [exact Ha|]. split; [exact Hl|].
  split; [exact Hw|]. split; [exact Hh|].
  split; [ring|]. split; [now rewrite Emax'|].
  rewrite Emax'.
  destruct (Q.max_spec bw bh) as [[Hlt E]|[Hle E]];
    destruct (Q.min_spec bw bh) as [[Hlt' E']|[Hle' E']];
    rewrite E, E'; try lra; field; lra.
Qed.

Lemma detect_defects_single_crack_witness :
  exists results sp area length width,
    detect_defects crack_scene = Ok (results, sp, true, (800, 1000)%Z)
    /\ sp_area sp = Some area /\ sp_length sp = Some length
    /\ sp_width sp = Some width /\ sp_height sp = Some width
    /\ area == box_width (nth 0 (sc_cracks crack_scene) sample_box)
               * box_height (nth 0 (sc_cracks crack_scene) sample_box)
               * (0.297 / 297) ^ 2
    /\ length == Qmax (box_width (nth 0 (sc_cracks crack_scene) sample_box))
                      (box_height (nth 0 (sc_cracks crack_scene) sample_box))
                 * (0.297 / 297)
    /\ width == Qmin (box_width (nth 0 (sc_cracks crack_scene) sample_box))
                     (box_height (nth 0 (sc_cracks crack_scene) sample_box))
                * (0.297 / 297).
Proof.
  apply (detect_defects_single_crack crack_scene sheet_image
           sheet_calibration (0.297 / 297)
           (nth 0 (sc_cracks crack_scene) sample_box));
    try reflexivity; vm_compute; reflexivity.
Defined.

Lemma detect_defects_calibrated (sc : scene) (img : image)
  (results : list result_entry) (sp : spatial) (calibrated : bool)
  (size : Z * Z) :
  sc_img sc = Some img ->
  detect_defects sc = Ok (results, sp, calibrated, size) ->
  exists cal, calibrate img (map object_detection (sc_objects sc)) = Ok cal.
Proof.
  intros Himg H. unfold detect_defects in H. rewrite Himg in H.
  run_bind H cal Ecal. now exists cal.
Qed.

Lemma count_object_entries (f : result_entry -> bool) (objects : list yolo_box) :
  (forall b, f (Detected (object_detection b)) = false) ->
  filter f (map Detected (map object_detection objects)) = [].
Proof.
  intro Hf. induction objects as [|b objects IH]; simpl; [reflexivity|].
  now rewrite Hf.
Qed.

Lemma count_crack_entries (f : result_entry -> bool) (v : bool)
  (cracks : list yolo_box) :
  (forall b, f (Detected (crack_detection b)) = v) ->
  List.length (filter f (map (fun b => Detected (crack_detection b)) cracks))
  = if v then List.length cracks else 0%nat.
Proof.
  intro Hf. induction cracks as [|b cracks IH]; simpl.
  - now destruct v.
  - rewrite Hf. destruct v; simpl; now rewrite IH.
Qed.

(** X10. In the entries returned for a readable image, those flagged
    [isCrack] are as many as the crack model's boxes, there is exactly one
    room-type entry, and there is at most one calibration entry: it is
    present only when the A4 sheet was found, never when the scale comes from
    a reference object. *)
Theorem detect_defects_entries (sc : scene) (img : image)
  (results : list result_entry) (sp : spatial) (calibrated : bool)
  (size : Z * Z) :
  sc_img sc = Some img ->
  detect_defects sc = Ok (results, sp, calibrated, size) ->
  List.length (filter is_crack_entry results) = List.length (sc_cracks sc)
  /\ List.length (filter is_room_entry results) = 1%nat
  /\ List.length (filter is_calibration_entry results)
     = (if no_sheet img then 0%nat else 1%nat)
  /\ List.length results
     = ((if no_sheet img then 0 else 1) + 1
        + List.length (sc_objects sc) + List.length (sc_cracks sc))%nat.
Proof.
  intros Himg H.
  destruct (detect_defects_calibrated sc img _ _ _ _ Himg H) as [cal Hcal].
  destruct (detect_defects_after_calibration sc img cal Himg Hcal)
    as (results' & sp' & Hd & _ & Hres).
  rewrite Hd in H. injection H as <- _ _ _. subst results'.
  assert (Hfound : cal_a4_found cal = negb (no_sheet img)).
  { destruct (no_sheet img) eqn:Hsheet.
    - rewrite (calibrate_without_sheet _ _ Hsheet) in Hcal.
      run_bind Hcal est Eest. destruct est as [[m r] c].
      now injection Hcal as <-.
    - destruct (calibrate_with_sheet img (map object_detection (sc_objects sc))
                  Hsheet) as (s & box & _ & Hcal').
      rewrite Hcal' in Hcal. now injection Hcal as <-. }
  rewrite Hfound.
  rewrite !filter_app, !length_app, !length_map.
  rewrite !count_object_entries by reflexivity.
  rewrite (count_crack_entries is_crack_entry true) by reflexivity.
  rewrite (count_crack_entries is_room_entry false) by reflexivity.
  rewrite (count_crack_entries is_calibration_entry false) by reflexivity.
  destruct (no_sheet img); simpl; repeat split; lia.
Qed.

Lemma detect_defects_entries_witness :
  List.length (filter is_crack_entry (entries (detect_defects crack_scene)))
  = List.length (sc_cracks crack_scene)
  /\ List.length (filter is_room_entry (entries (detect_defects crack_scene)))
     = 1%nat
  /\ List.length (filter is_calibration_entry
                    (entries (detect_defects crack_scene)))
     = (if no_sheet sheet_image then 0%nat else 1%nat)
  /\ List.length (entries (detect_defects crack_scene))
     = ((if no_sheet sheet_image then 0 else 1) + 1
        + List.length (sc_objects crack_scene)
        + List.length (sc_cracks crack_scene))%nat.
Proof.
  apply (detect_defects_entries crack_scene sheet_image
           (entries (detect_defects crack_scene))
           (measurement (detect_defects crack_scene)) true (800, 1000)%Z);
    reflexivity.
Defined.

(** What the estimator can return. *)
Lemma estimate_scale_shape (detections : list detection)
  (img_width img_height : Z) (m : option Q) (r : option string) (c : Q) :
  estimate_scale_from_reference_objects detections img_width img_height
  = Ok (m, r, c) ->
  (m = None /\ r = None)
  \/ exists s name ref,
       m = Some s /\ r = Some name /\ In (name, ref) REFERENCE_OBJECTS.
Proof.
  intro H.
  destruct (forallb usable detections) eqn:Hall.
  - destruct (ref_loop_spec detections ref_init Hall)
      as (st & Hrun & [[-> _]|Hbest]);
      unfold estimate_scale_from_reference_objects in H; rewrite Hrun in H.
    + simpl in H. injection H as <- <- _. now left.
    + destruct Hbest
        as (pre & d & post & name & ref & s & _ & Hd & _ & -> & _).
      simpl in H. injection H as <- <- _. right. exists s, name, ref.
      repeat split. unfold matched in Hd.
      destruct (_ <? 4)%nat; [discriminate|].
      unfold matching_reference in Hd. apply find_some in Hd. tauto.
  - rewrite (estimate_scale_raises_on_zero_dimension _ _ _ Hall) in H.
    discriminate.
Qed.

(** X11. Where the scale of a readable image comes from: the sheet takes
    precedence, and then the measurement names no reference object, even
    when catalogue objects are in view; without a sheet [is_calibrated]
    holds exactly when a reference object is named, and the name is a key of
    the catalogue. *)
Theorem detect_defects_scale_source (sc : scene) (img : image)
  (results : list result_entry) (sp : spatial) (calibrated : bool)
  (size : Z * Z) :
  sc_img sc = Some img ->
  detect_defects sc = Ok (results, sp, calibrated, size) ->
  (no_sheet img = false ->
   calibrated = true /\ sp_reference_object sp = None)
  /\ (no_sheet img = true ->
      (calibrated = true <-> sp_reference_object sp <> None)
      /\ forall name, sp_reference_object sp = Some name ->
                      exists ref, In (name, ref) REFERENCE_OBJECTS).
Proof.
  intros Himg H.
  destruct (detect_defects_calibrated sc img _ _ _ _ Himg H) as [cal Hcal].
  destruct (detect_defects_after_calibration sc img cal Himg Hcal)
    as (results' & sp' & Hd & Hsp & _).
  rewrite Hd in H. injection H as _ <- <- _.
  apply spatial_measurements_carried in Hsp as (_ & _ & Href & _).
  rewrite Href. split; intro Hsheet.
  - destruct (calibrate_with_sheet img (map object_detection (sc_objects sc))
                Hsheet) as (s & box & _ & Hcal').
    rewrite Hcal' in Hcal. injection Hcal as <-. now split.
  - rewrite (calibrate_without_sheet _ _ Hsheet) in Hcal.
    run_bind Hcal est Eest. destruct est as [[m r] c].
    injection Hcal as <-. simpl.
    destruct (estimate_scale_shape _ _ _ _ _ _ Eest)
      as [[-> ->]|(s & name & ref & -> & -> & Hin)]; simpl.
    + split; [split; [discriminate|congruence]|]. intros name Hn. discriminate.
    + split; [split; [discriminate|reflexivity]|].
      intros name' Hn. injection Hn as <-. now exists ref.
Qed.

Lemma detect_defects_scale_source_witness :
  (no_sheet plain_image = false ->
   calibrated_flag (detect_defects door_scene) = true
   /\ sp_reference_object (measurement (detect_defects door_scene)) = None)
  /\ (no_sheet plain_image = true ->
      (calibrated_flag (detect_defects door_scene) = true
       <-> sp_reference_object (measurement (detect_defects door_scene)) <> None)
      /\ forall name,
           sp_reference_object (measurement (detect_defects door_scene))
           = Some name ->
           exists ref, In (name, ref) REFERENCE_OBJECTS).
Proof.
  apply (detect_defects_scale_source door_scene plain_image
           (entries (detect_defects door_scene))
           (measurement (detect_defects door_scene))
           (calibrated_flag (detect_defects door_scene))
           (480, 640)%Z); reflexivity.
Defined.

End AnalyzerCoverage.

(** ** main.py: reconstruct_room, both definitions *)

Section FuserCoverage.

Import analyzer main Vocabulary Samples Terms Cases.

(** [detect_defects] returns unless the scene is a raising one. *)
Lemma detect_defects_returned (sc : scene) :
  returned (detect_defects sc) = negb (raising_scene sc).
Proof.
  destruct (detect_defects_error sc) as [Hiff Honly].
  destruct (detect_defects sc) as [out|e] eqn:Hd; simpl.
  - destruct (raising_scene sc); [|reflexivity].
    destruct Hiff as [_ Hiff]. specialize (Hiff eq_refl). discriminate Hiff.
  - rewrite (Honly e eq_refl) in Hiff.
    destruct Hiff as [Hiff _]. now rewrite (Hiff eq_refl).
Qed.

(** What the loop over the files accumulates. *)
Lemma analyse_files_spec (files : list scene) :
  forall b b',
  analyse_files b files = Ok b' ->
  forallb (fun f => returned (detect_defects f)) files = true
  /\ all_spatial b'
     = all_spatial b ++ map (fun f => measurement (detect_defects f)) files
  /\ room_types b' = room_types b ++ map vote_of files
  /\ calibration_status b'
     = calibration_status b
       || existsb (fun f => calibrated_flag (detect_defects f)) files
  /\ per_image_results b'
     = per_image_results b
       ++ map (fun f => (entries (detect_defects f), size_of (detect_defects f)))
              files.
Proof.
  induction files as [|file files IH]; intros b b' H; simpl in H.
  - injection H as <-. simpl. rewrite !app_nil_r, orb_false_r. repeat split.
  - run_bind H b1 E1. unfold analyse_file in E1. run_bind E1 out Eout.
    destruct out as [[[detections sp] calibrated] size].
    injection E1 as <-.
    destruct (IH _ _ H) as (Hret & Hsp & Hrt & Hcal & Hres). simpl in *.
    unfold vote_of. rewrite Eout. simpl.
    rewrite Hret, Hsp, Hrt, Hcal, Hres, <- !app_assoc. simpl.
    split; [reflexivity|]. split; [reflexivity|]. split; [reflexivity|].
    split; [|reflexivity].
    destruct calibrated; [now rewrite orb_true_r|reflexivity].
Qed.

Lemma analyse_files_total (files : list scene) :
  forall b,
  forallb (fun f => returned (detect_defects f)) files = true ->
  exists b', analyse_files b files = Ok b'.
Proof.
  induction files as [|file files IH]; intros b H; simpl.
  - now eexists.
  - simpl in H. apply andb_true_iff in H as [Hfile Hrest].
    unfold analyse_file.
    destruct (detect_defects file) as [[[[detections sp] calibrated] size]|e];
      [|discriminate].
    simpl. apply IH, Hrest.
Qed.

Lemma analyse_files_raises (files : list scene) :
  forall b,
  forallb (fun f => returned (detect_defects f)) files = false ->
  analyse_files b files = Raise ZeroDivisionError.
Proof.
  induction files as [|file files IH]; intros b H; simpl in H; [discriminate|].
  simpl. unfold analyse_file.
  destruct (detect_defects_error file) as [_ Honly].
  destruct (detect_defects file) as [[[[detections sp] calibrated] size]|e].
  - simpl in *. now apply IH.
  - simpl. now rewrite (Honly e eq_refl).
Qed.

Lemma returned_raising (files : list scene) :
  forallb (fun f => returned (detect_defects f)) files
  = negb (existsb raising_scene files).
Proof.
  induction files as [|file files IH]; simpl; [reflexivity|].
  rewrite IH, detect_defects_returned. now rewrite negb_orb.
Qed.

(** X12. A batch with a raising image never returns: if the endpoint
    returns, no uploaded image is a raising one. The loop has no handler
    for the exception, so a single image whose analysis raises makes the
    whole request fail, whatever the other images are. *)
Theorem reconstruct_room_returns_without_raising (files : list scene)
  (resp : response) :
  reconstruct_room files = Ok resp ->
  existsb raising_scene files = false
  /\ forall f, In f files -> returned (detect_defects f) = true.
Proof.
  intro H. unfold reconstruct_room in H. run_bind H b Eb.
  destruct (analyse_files_spec files empty_batch b Eb) as (Hall & _).
  split.
  - rewrite returned_raising in Hall. now apply negb_true_iff in Hall.
  - rewrite forallb_forall in Hall. exact Hall.
Qed.

Lemma reconstruct_room_returns_without_raising_witness :
  existsb raising_scene [bedroom_scene; crack_scene] = false
  /\ forall f, In f [bedroom_scene; crack_scene] ->
               returned (detect_defects f) = true.
Proof.
  apply (reconstruct_room_returns_without_raising [bedroom_scene; crack_scene]
           (answer (reconstruct_room [bedroom_scene; crack_scene]))).
  reflexivity.
Defined.

Lemma dict_get_set_other {V : Type} (k l : string) (v : V)
  (d : list (string * V)) :
  l <> k -> dict_get k (dict_set l v d) = dict_get k d.
Proof.
  intro Hne. induction d as [|[k' v'] d IH]; simpl.
  - destruct (String.eqb l k) eqn:E; [apply String.eqb_eq in E; contradiction|].
    reflexivity.
  - destruct (String.eqb k' l) eqn:El; simpl.
    + apply String.eqb_eq in El. subst k'.
      destruct (String.eqb l k) eqn:E;
        [apply String.eqb_eq in E; contradiction|reflexivity].
    + destruct (String.eqb k' k); [reflexivity|exact IH].
Qed.

Lemma dict_get_keys {V : Type} (k : string) (v : V) (d : list (string * V)) :
  dict_get k d = Some v -> In k (map fst d).
Proof.
  induction d as [|[k' v'] d IH]; simpl; [discriminate|].
  destruct (String.eqb k' k) eqn:E.
  - apply String.eqb_eq in E. intros _. now left.
  - intro H. right. now apply IH.
Qed.

Lemma vote_get (room_votes : list (string * Q)) (label : string) (conf : Q) :
  exists votes,
    vote room_votes (label, conf) = Ok votes
    /\ dict_get label votes = Some (get (dict_get label room_votes) 0 + conf)
    /\ forall k, k <> label -> dict_get k votes = dict_get k room_votes.
Proof.
  unfold vote, dict_item.
  destruct (dict_get label room_votes) as [v|] eqn:E.
  - rewrite E. simpl. eexists. split; [reflexivity|].
    split; [apply dict_get_set|].
    intros k Hk. apply dict_get_set_other. congruence.
  - rewrite dict_get_set. simpl. eexists. split; [reflexivity|].
    split; [apply dict_get_set|].
    intros k Hk. rewrite !dict_get_set_other by congruence. reflexivity.
Qed.

(** After the loop each label holds what it held before plus its tally. *)
Lemma count_votes_get (room_types : list (string * Q)) :
  forall room_votes,
  exists votes,
    count_votes room_votes room_types = Ok votes
    /\ forall k,
         match dict_get k votes with
         | Some v =>
             v == get (dict_get k room_votes) 0 + tally k room_types
             /\ (dict_get k room_votes <> None \/ In k (map fst room_types))
         | None =>
             dict_get k room_votes = None /\ ~ In k (map fst room_types)
         end.
Proof.
  induction room_types as [|[label conf] rest IH]; intro room_votes.
  - simpl. exists room_votes. split; [reflexivity|]. intro k.
    destruct (dict_get k room_votes) eqn:E; simpl.
    + split; [ring|]. left. discriminate.
    + split; [reflexivity|]. tauto.
  - destruct (vote_get room_votes label conf) as (votes1 & Hv & Hsame & Hother).
    change (count_votes room_votes ((label, conf) :: rest))
      with (bind (vote room_votes (label, conf))
                 (fun votes => count_votes votes rest)).
    rewrite Hv. cbv beta iota delta [bind].
    destruct (IH votes1) as (votes & Hrun & Hget).
    exists votes. split; [exact Hrun|]. intro k. specialize (Hget k).
    simpl tally. simpl map. simpl fst.
    destruct (String.eqb label k) eqn:Ek.
    + apply String.eqb_eq in Ek. subst k. rewrite Hsame in Hget.
      destruct (dict_get label votes) as [v|].
      * destruct Hget as [Hval _]. simpl in Hval.
        split; [rewrite Hval; ring|]. right. now left.
      * destruct Hget as [Hnone _]. discriminate.
    + assert (Hne : k <> label).
      { intros ->. rewrite String.eqb_refl in Ek. discriminate. }
      rewrite (Hother k Hne) in Hget.
      destruct (dict_get k votes) as [v|].
      * destruct Hget as [Hval Hin]. split; [exact Hval|]. simpl. tauto.
      * destruct Hget as [Hnone Hin]. split; [exact Hnone|].
        intros [Heq|Hin']; [congruence|contradiction].
Qed.

(** The vote on a non-empty list of [(type, confidence)] pairs. *)
Lemma vote_room_spec (room_types : list (string * Q)) :
  room_types <> [] ->
  exists label total,
    vote_room room_types
    = Ok (label, total / inject_Z (Z.of_nat (List.length room_types)))
    /\ In label (map fst room_types)
    /\ total == tally label room_types
    /\ forall l, In l (map fst room_types) ->
                 tally l room_types <= tally label room_types.
Proof.
  intro Hne. destruct room_types as [|rt rest]; [contradiction|].
  destruct (count_votes_get (rt :: rest) []) as (votes & Hrun & Hget).
  unfold vote_room. rewrite Hrun. cbv beta iota delta [bind].
  assert (Hkeys : forall l, In l (map fst (rt :: rest)) ->
            exists v, dict_get l votes = Some v
                      /\ v == tally l (rt :: rest) /\ In l (map fst votes)).
  { intros l Hl. specialize (Hget l).
    destruct (dict_get l votes) as [v|] eqn:E.
    - exists v. split; [reflexivity|]. destruct Hget as [Hval _].
      change (get (dict_get l []) 0) with 0 in Hval.
      split; [rewrite Hval; ring|].
      now apply (dict_get_keys l v).
    - destruct Hget as [_ Hnot]. contradiction. }
  destruct votes as [|[k0 v0] votes'] eqn:Hvotes.
  { destruct (Hkeys (fst rt) (or_introl eq_refl)) as (v & Hv & _).
    discriminate. }
  rewrite <- Hvotes in *.
  set (key := fun k : string => get (dict_get k votes) 0).
  assert (Hmap : map fst votes = k0 :: map fst votes') by now rewrite Hvotes.
  rewrite Hmap. simpl max_by. cbv beta iota.
  set (best := max_from key k0 (map fst votes')).
  assert (Hbest_in : In best (map fst votes)).
  { rewrite Hmap. apply max_from_in. }
  destruct (max_from_split key (map fst votes') k0)
    as (pre & post & Hsplit & Hpre & Hpost).
  fold best in Hsplit, Hpre, Hpost.
  assert (Hmax : forall k, In k (map fst votes) -> key k <= key best).
  { intros k Hk. rewrite Hmap, Hsplit in Hk.
    apply in_app_or in Hk as [Hk|[<-|Hk]].
    - apply Qlt_le_weak, Hpre, Hk.
    - apply Qle_refl.
    - apply Hpost, Hk. }
  pose proof (Hget best) as Hb.
  destruct (dict_get best votes) as [total|] eqn:Etotal.
  - destruct Hb as [Hval [Hin|Hin]]; [now elim Hin|].
    change (get (dict_get best []) 0) with 0 in Hval.
    exists best, total. unfold dict_item. rewrite Etotal.
    cbv beta iota delta [bind].
    rewrite truediv_ok.
    2:{ unfold Qeq. simpl. lia. }
    split; [reflexivity|]. split; [exact Hin|].
    split; [rewrite Hval; ring|].
    intros l Hl. destruct (Hkeys l Hl) as (v & Hv & Hvt & Hlk).
    pose proof (Hmax l Hlk) as Hle. unfold key in Hle.
    rewrite Hv, Etotal in Hle. simpl in Hle.
    rewrite <- Hvt. rewrite Hval in Hle. lra.
  - destruct (dict_get_key best votes Hbest_in) as [v Hv]. congruence.
Qed.

(** X13. The room vote. For a non-empty batch the label returned is one of
    the labels voted, its accumulated confidence is not exceeded by that of
    any other label, and the confidence returned is that sum divided by the
    number of images, not by the number of images that voted for it. *)
Theorem vote_room_winner (room_types : list (string * Q)) :
  room_types <> [] ->
  exists label total,
    vote_room room_types
    = Ok (label, total / inject_Z (Z.of_nat (List.length room_types)))
    /\ In label (map fst room_types)
    /\ total == tally label room_types
    /\ forall l, In l (map fst room_types) ->
                 tally l room_types <= tally label room_types.
Proof. apply vote_room_spec. Qed.

Lemma vote_room_winner_witness :
  exists label total,
    vote_room split_votes
    = Ok (label, total / inject_Z (Z.of_nat (List.length split_votes)))
    /\ In label (map fst split_votes)
    /\ total == tally label split_votes
    /\ forall l, In l (map fst split_votes) ->
                 tally l split_votes <= tally label split_votes.
Proof.
  apply (vote_room_winner split_votes). unfold split_votes. discriminate.
Defined.

Lemma round_1_between (a b : Z) (x : Q) :
  inject_Z a <= x -> x <= inject_Z b ->
  inject_Z a <= round x 1 /\ round x 1 <= inject_Z b.
Proof.
  intros Ha Hb. unfold round.
  change (inject_Z (10 ^ Z.of_nat 1)) with 10.
  destruct (round_half_even_bounds (a * 10) (b * 10) (x * 10)) as [Hlo Hhi].
  - rewrite inject_Z_mult. change (inject_Z 10) with 10. lra.
  - rewrite inject_Z_mult. change (inject_Z 10) with 10. lra.
  - rewrite Zle_Qle, inject_Z_mult in Hlo, Hhi.
    change (inject_Z 10) with 10 in Hlo, Hhi.
    set (r := inject_Z (round_half_even (x * 10))) in *.
    split; [apply Qle_shift_div_l|apply Qle_shift_div_r]; lra.
Qed.

Lemma tally_bound (label : string) (room_types : list (string * Q)) :
  (forall rt, In rt room_types -> 0 <= snd rt /\ snd rt <= 100) ->
  0 <= tally label room_types
  /\ tally label room_types <= 100 * inject_Z (Z.of_nat (List.length room_types)).
Proof.
  induction room_types as [|rt rest IH]; intro H.
  - simpl. split; [apply Qle_refl|]. change (inject_Z 0) with 0. lra.
  - destruct IH as [Hlo Hhi]; [intros r Hr; apply H; now right|].
    destruct (H rt (or_introl eq_refl)) as [H0 H1].
    change (List.length (rt :: rest)) with (S (List.length rest)).
    rewrite Nat2Z.inj_succ. unfold Z.succ. rewrite inject_Z_plus.
    change (inject_Z 1) with 1.
    simpl tally. destruct (String.eqb (fst rt) label); split; lra.
Qed.

(** What a scene contributes to the batch, whether its analysis is the
    unreadable default or a measurement. *)
Lemma measurement_unrated (sc : scene) :
  sp_area_confidence (measurement (detect_defects sc)) = None
  /\ sp_estimation_method (measurement (detect_defects sc)) = None.
Proof.
  destruct (detect_defects sc) as [[[[results sp] calibrated] size]|e] eqn:Hd;
    simpl.
  - apply detect_defects_carried in Hd as (Ha & Hm & _). now split.
  - now split.
Qed.

Lemma vote_of_percent (sc : scene) :
  probability sc = true ->
  0 <= snd (vote_of sc) /\ snd (vote_of sc) <= 100.
Proof.
  unfold probability, vote_of. intro Hp.
  apply andb_true_iff in Hp as [Hlo Hhi].
  apply Qle_bool_iff in Hlo, Hhi. simpl.
  destruct (detect_defects sc) as [[[[results sp] calibrated] size]|e] eqn:Hd;
    simpl.
  - apply detect_defects_carried in Hd as (_ & _ & v & Hv & Hnone & Hsome).
    rewrite Hv. simpl. destruct (sc_img sc) as [img|].
    + rewrite Hsome by discriminate.
      apply (round_1_between 0 100); change (inject_Z 0) with 0;
        change (inject_Z 100) with 100; lra.
    + rewrite Hnone by reflexivity. split; lra.
  - split; lra.
Qed.

(** X14. Whatever images are uploaded, as long as the classifier's
    probabilities lie in [0, 1], the endpoint answers with
    needs_user_confirmation = true: area_confidence is 0 for every
    measurement of the synthesizer, so the overall confidence is half the
    room confidence, at most 50, and the threshold is 70. *)
Theorem reconstruct_room_always_needs_confirmation (files : list scene)
  (resp : response) :
  forallb probability files = true ->
  reconstruct_room files = Ok resp ->
  needs_user_confirmation resp = true
  /\ 0 <= overall_confidence resp /\ overall_confidence resp <= 50
  /\ 0 <= room_confidence resp /\ room_confidence resp <= 100.
Proof.
  intros Hprob H. unfold reconstruct_room in H. run_bind H b Eb.
  destruct (analyse_files_spec files empty_batch b Eb)
    as (_ & Hsp & Hrt & _ & _).
  simpl in Hsp, Hrt. rewrite Hsp, Hrt in H.
  destruct files as [|f0 rest].
  - simpl in H. injection H as <-. simpl. repeat split; reflexivity || discriminate.
  - run_bind H fused Efuse. destruct fused as [[[fused rt] rc] oc].
    injection H as <-.
    cbn [needs_user_confirmation overall_confidence room_confidence].
    destruct (fuse_nonempty (map (fun f => measurement (detect_defects f)) (f0 :: rest))
                (map vote_of (f0 :: rest)))
      as (i & best & rt' & rc' & Hbest & _ & _ & Hvote & Hfuse);
      [discriminate|].
    rewrite Hfuse in Efuse. injection Efuse as _ <- <- <-.
    destruct (vote_room_spec (map vote_of (f0 :: rest)))
      as (label & total & Hvote' & _ & Htotal & _); [discriminate|].
    assert (Hzero : area_confidence_of best = 0).
    { apply nth_error_In, in_map_iff in Hbest as (f & <- & _).
      unfold area_confidence_of.
      now rewrite (proj1 (measurement_unrated f)). }
    rewrite Hzero.
    destruct (tally_bound label (map vote_of (f0 :: rest))) as [Hlo Hhi].
    { intros r Hr. apply in_map_iff in Hr as (f & <- & Hf).
      apply vote_of_percent. rewrite forallb_forall in Hprob. now apply Hprob. }
    rewrite <- Htotal in Hlo, Hhi.
    set (n := inject_Z (Z.of_nat (List.length (map vote_of (f0 :: rest))))) in *.
    assert (Hn : 0 < n).
    { unfold n. rewrite length_map. simpl List.length.
      rewrite <- (Zlt_Qlt 0). lia. }
    assert (Hrc : rc' = total / n) by congruence.
    assert (Hrc0 : 0 <= rc' /\ rc' <= 100).
    { rewrite Hrc. clear - Hlo Hhi Hn.
      split; [apply Qle_shift_div_l|apply Qle_shift_div_r];
        try exact Hn; lra. }
    destruct Hrc0 as [Hrc0 Hrc1].
    clear - Hrc0 Hrc1.
    assert (Hhalf : 0 <= (0 + rc') / 2 /\ (0 + rc') / 2 <= 50).
    { split; [apply Qle_shift_div_l|apply Qle_shift_div_r];
        reflexivity || lra. }
    destruct Hhalf as [Hh0 Hh1].
    split; [apply Qltb_lt; eapply Qle_lt_trans; [exact Hh1|reflexivity]|].
    destruct (round_1_between 0 50 ((0 + rc') / 2)) as [Ho0 Ho1];
      [exact Hh0|exact Hh1|].
    destruct (round_1_between 0 100 rc') as [Hr0 Hr1];
      [exact Hrc0|exact Hrc1|].
    repeat split; assumption.
Qed.

Lemma reconstruct_room_always_needs_confirmation_witness :
  needs_user_confirmation (answer (reconstruct_room [bedroom_scene; crack_scene]))
  = true
  /\ 0 <= overall_confidence (answer (reconstruct_room [bedroom_scene; crack_scene]))
  /\ overall_confidence (answer (reconstruct_room [bedroom_scene; crack_scene]))
     <= 50
  /\ 0 <= room_confidence (answer (reconstruct_room [bedroom_scene; crack_scene]))
  /\ room_confidence (answer (reconstruct_room [bedroom_scene; crack_scene]))
     <= 100.
Proof.
  apply (reconstruct_room_always_needs_confirmation
           [bedroom_scene; crack_scene]); reflexivity.
Defined.

(** X15. The fused measurement is that of the image uploaded first: with no
    area_confidence on any measurement every image has the key 0 and the
    first one is kept, so the order of the upload decides the result. *)
Theorem reconstruct_room_takes_first_image (first : scene) (others : list scene)
  (resp : response) :
  reconstruct_room (first :: others) = Ok resp ->
  f_width (spatial_data resp)
  = get (sp_width (measurement (detect_defects first))) 0
  /\ f_height (spatial_data resp)
     = get (sp_height (measurement (detect_defects first))) 2.7
  /\ f_length (spatial_data resp)
     = get (sp_length (measurement (detect_defects first))) 0
  /\ f_area (spatial_data resp)
     = round (get (sp_area (measurement (detect_defects first))) 0) 2
  /\ f_reference_object (spatial_data resp)
     = Some (sp_reference_object (measurement (detect_defects first))).
Proof.
  intro H. unfold reconstruct_room in H. run_bind H b Eb.
  destruct (analyse_files_spec (first :: others) empty_batch b Eb)
    as (_ & Hsp & _).
  simpl in Hsp. rewrite Hsp in H.
  destruct (fuse_unrated_takes_first (measurement (detect_defects first))
              (map (fun f => measurement (detect_defects f)) others)
              (room_types b)) as (rt & rc & Hfuse).
  { apply Forall_forall. intros sp Hin.
    change (In sp (map (fun f => measurement (detect_defects f)) (first :: others)))
      in Hin.
    apply in_map_iff in Hin as (f & <- & _). apply measurement_unrated. }
  rewrite Hfuse in H. simpl in H. injection H as <-. simpl. repeat split.
Qed.

Lemma reconstruct_room_takes_first_image_witness :
  f_width (spatial_data (answer (reconstruct_room [crack_scene; bedroom_scene])))
  = get (sp_width (measurement (detect_defects crack_scene))) 0
  /\ f_height (spatial_data (answer (reconstruct_room [crack_scene; bedroom_scene])))
     = get (sp_height (measurement (detect_defects crack_scene))) 2.7
  /\ f_length (spatial_data (answer (reconstruct_room [crack_scene; bedroom_scene])))
     = get (sp_length (measurement (detect_defects crack_scene))) 0
  /\ f_area (spatial_data (answer (reconstruct_room [crack_scene; bedroom_scene])))
     = round (get (sp_area (measurement (detect_defects crack_scene))) 0) 2
  /\ f_reference_object
       (spatial_data (answer (reconstruct_room [crack_scene; bedroom_scene])))
     = Some (sp_reference_object (measurement (detect_defects crack_scene))).
Proof.
  apply (reconstruct_room_takes_first_image crack_scene [bedroom_scene]).
  reflexivity.
Defined.

(** X16. [is_calibrated] in the answer is true when any image of the batch
    was calibrated, also when the fused measurement, taken from the first
    image, was not; [analysis_results] lists the detections and the size of
    every image in upload order. *)
Theorem reconstruct_room_batch_fields (files : list scene) (resp : response) :
  reconstruct_room files = Ok resp ->
  is_calibrated resp
  = existsb (fun f => calibrated_flag (detect_defects f)) files
  /\ analysis_results resp
     = map (fun f => (entries (detect_defects f), size_of (detect_defects f)))
           files.
Proof.
  intro H. unfold reconstruct_room in H. run_bind H b Eb.
  destruct (analyse_files_spec files empty_batch b Eb)
    as (_ & _ & _ & Hcal & Hres).
  run_bind H fused Efuse. destruct fused as [[[fused rt] rc] oc].
  injection H as <-. simpl. simpl in Hcal, Hres. now split.
Qed.

Lemma reconstruct_room_batch_fields_witness :
  is_calibrated (answer (reconstruct_room [pixel_scene; bedroom_scene]))
  = existsb (fun f => calibrated_flag (detect_defects f))
            [pixel_scene; bedroom_scene]
  /\ analysis_results (answer (reconstruct_room [pixel_scene; bedroom_scene]))
     = map (fun f => (entries (detect_defects f), size_of (detect_defects f)))
           [pixel_scene; bedroom_scene].
Proof.
  apply (reconstruct_room_batch_fields [pixel_scene; bedroom_scene]).
  reflexivity.
Defined.

End FuserCoverage.

(** ** The second reconstruct_room of main.py *)

Section LegacyCoverage.

Import analyzer main Vocabulary Samples Terms Cases.

(** Every measurement of the synthesizer has the four keys the legacy
    fusion subscripts. *)
Lemma measurement_fields (sc : scene) :
  exists width height length area,
    sp_width (measurement (detect_defects sc)) = Some width
    /\ sp_height (measurement (detect_defects sc)) = Some height
    /\ sp_length (measurement (detect_defects sc)) = Some length
    /\ sp_area (measurement (detect_defects sc)) = Some area.
Proof.
  destruct (detect_defects sc) as [[[[results sp] calibrated] size]|e] eqn:Hd;
    simpl; [|now do 4 eexists].
  unfold detect_defects in Hd. destruct (sc_img sc) as [img|].
  - run_bind Hd cal Ecal.
    destruct (crack_loop (sc_cracks sc)) as [[total maxd] count].
    run_bind Hd sp' Esp. injection Hd as _ <- _ _.
    apply spatial_measurements_fields in Esp
      as (area & length & width & height & Ha & Hl & Hw & Hh & _).
    now exists width, height, length, area.
  - injection Hd as _ <- _ _. now do 4 eexists.
Qed.

Lemma items_measurements (field : spatial -> option Q) (files : list scene) :
  (forall sc, field (measurement (detect_defects sc)) <> None) ->
  main_legacy.items field (map (fun f => measurement (detect_defects f)) files)
  = Ok (map (fun f => get (field (measurement (detect_defects f))) 0) files).
Proof.
  intro Hsome. induction files as [|f files IH]; [reflexivity|].
  simpl. rewrite IH. specialize (Hsome f).
  destruct (field (measurement (detect_defects f))); [reflexivity|contradiction].
Qed.

Lemma greatest_measurements (field : spatial -> option Q) (files : list scene) :
  (forall sc, field (measurement (detect_defects sc)) <> None) ->
  files <> [] ->
  exists m,
    main_legacy.greatest field (map (fun f => measurement (detect_defects f)) files)
    = Ok m
    /\ greatest_of (fun f => get (field (measurement (detect_defects f))) 0) files m.
Proof.
  intros Hsome Hne. unfold main_legacy.greatest.
  rewrite items_measurements by exact Hsome.
  destruct files as [|f0 rest]; [contradiction|].
  cbv beta iota delta [bind]. simpl map. simpl max_by.
  set (key := fun f => get (field (measurement (detect_defects f))) 0).
  set (m := max_from (fun v : Q => v) (key f0) (map key rest)).
  exists m. split; [reflexivity|].
  destruct (max_from_split (fun v : Q => v) (map key rest) (key f0))
    as (pre & post & Hsplit & Hpre & Hpost).
  fold m in Hsplit, Hpre, Hpost.
  assert (Hall : forall v, In v (key f0 :: map key rest) -> v <= m).
  { intros v Hv. rewrite Hsplit in Hv.
    apply in_app_or in Hv as [Hv|[<-|Hv]].
    - apply Qlt_le_weak. now apply Hpre.
    - apply Qle_refl.
    - now apply Hpost. }
  split.
  - intros file Hfile. apply Hall.
    change (In (key file) (map key (f0 :: rest))). now apply in_map.
  - assert (Hin : In m (map key (f0 :: rest))) by apply max_from_in.
    apply in_map_iff in Hin as (file & Hfile & Hin).
    exists file. now split.
Qed.

(** The legacy fusion on the measurements of a non-empty batch. *)
Lemma legacy_fuse_measurements (first : scene) (others : list scene)
  (room_types : list (string * Q)) :
  exists width height length best_room_type room_confidence,
    main_legacy.fuse
      (map (fun f => measurement (detect_defects f)) (first :: others)) room_types
    = Ok ({| f_width := width;
             f_height := height;
             f_length := length;
             f_area := round (area_of first) 2;
             f_area_confidence := Some 0;
             f_estimation_method := Some "unknown"%string;
             f_reference_object :=
               Some (sp_reference_object (measurement (detect_defects first))) |},
          best_room_type, room_confidence, (0 + room_confidence) / 2)
    /\ greatest_of width_of (first :: others) width
    /\ greatest_of height_of (first :: others) height
    /\ greatest_of length_of (first :: others) length
    /\ vote_room room_types = Ok (best_room_type, room_confidence).
Proof.
  assert (Hw : forall sc, sp_width (measurement (detect_defects sc)) <> None).
  { intro sc. destruct (measurement_fields sc) as (w & h & l & a & -> & _).
    discriminate. }
  assert (Hh : forall sc, sp_height (measurement (detect_defects sc)) <> None).
  { intro sc. destruct (measurement_fields sc) as (w & h & l & a & _ & -> & _).
    discriminate. }
  assert (Hl : forall sc, sp_length (measurement (detect_defects sc)) <> None).
  { intro sc.
    destruct (measurement_fields sc) as (w & h & l & a & _ & _ & -> & _).
    discriminate. }
  destruct (greatest_measurements sp_width (first :: others) Hw)
    as (width & Ewidth & Gwidth); [discriminate|].
  destruct (greatest_measurements sp_height (first :: others) Hh)
    as (height & Eheight & Gheight); [discriminate|].
  destruct (greatest_measurements sp_length (first :: others) Hl)
    as (length & Elength & Glength); [discriminate|].
  destruct (vote_room_total room_types) as ([rt rc] & Hvote).
  exists width, height, length, rt, rc.
  split;
    [|split; [exact Gwidth|split; [exact Gheight|split; [exact Glength|exact Hvote]]]].
  unfold main_legacy.fuse. rewrite Ewidth, Eheight, Elength.
  cbv beta iota delta [bind].
  change (map (fun f => measurement (detect_defects f)) (first :: others))
    with (measurement (detect_defects first)
          :: map (fun f => measurement (detect_defects f)) others).
  set (l := measurement (detect_defects first)
            :: map (fun f => measurement (detect_defects f)) others).
  destruct (best_index (measurement (detect_defects first))
              (map (fun f => measurement (detect_defects f)) others))
    as (i & best & Hmax & Hbest & _ & Hbefore).
  fold l in Hmax, Hbest, Hbefore. rewrite Hmax. cbv beta iota delta [bind].
  assert (Hunrated : forall s, In s l -> area_confidence_of s = 0).
  { intros s Hs.
    change (In s (map (fun f => measurement (detect_defects f)) (first :: others)))
      in Hs.
    apply in_map_iff in Hs as (f & <- & _).
    unfold area_confidence_of. now rewrite (proj1 (measurement_unrated f)). }
  assert (Hi : i = 0%nat).
  { destruct i as [|i]; [reflexivity|exfalso].
    specialize (Hbefore 0%nat (measurement (detect_defects first))
                  (Nat.lt_0_succ i) eq_refl).
    rewrite (Hunrated best), (Hunrated (measurement (detect_defects first)))
      in Hbefore.
    - now apply Qlt_irrefl in Hbefore.
    - now left.
    - eapply nth_error_In, Hbest. }
  subst i. unfold index. simpl nth_error. cbv beta iota delta [bind].
  destruct (measurement_fields first) as (w & h & len & a & _ & _ & _ & Ha).
  unfold area_of. rewrite Ha. simpl item. cbv beta iota delta [bind].
  rewrite Hvote. cbv beta iota delta [bind].
  destruct (measurement_unrated first) as [-> ->]. reflexivity.
Qed.

(** X17. On the empty batch the legacy handler raises ValueError ([max] of
    an empty sequence), where the first handler returns its all-zero answer.
    If it returns, the batch is not empty and holds no raising image. *)
Theorem legacy_reconstruct_room_returns_only_if (files : list scene) :
  main_legacy.reconstruct_room [] = Raise ValueError
  /\ forall resp,
       main_legacy.reconstruct_room files = Ok resp ->
       files <> [] /\ existsb raising_scene files = false.
Proof.
  split; [reflexivity|].
  intros resp H. unfold main_legacy.reconstruct_room in H.
  run_bind H b Eb.
  destruct (analyse_files_spec files empty_batch b Eb) as (Hall & Hsp & _).
  rewrite returned_raising in Hall. apply negb_true_iff in Hall.
  split; [|exact Hall].
  intros ->. simpl in Eb. injection Eb as <-. discriminate H.
Qed.

(** X18. In the legacy answer width, height and length are each the greatest
    value measured on any image of the batch, so the three sides may come
    from three different images; the area is not computed from them but is
    the first image's area rounded to two decimals. *)
Theorem legacy_reconstruct_room_sides (first : scene) (others : list scene)
  (resp : response) :
  main_legacy.reconstruct_room (first :: others) = Ok resp ->
  greatest_of width_of (first :: others) (f_width (spatial_data resp))
  /\ greatest_of height_of (first :: others) (f_height (spatial_data resp))
  /\ greatest_of length_of (first :: others) (f_length (spatial_data resp))
  /\ f_area (spatial_data resp) = round (area_of first) 2.
Proof.
  intro H. unfold main_legacy.reconstruct_room in H. run_bind H b Eb.
  destruct (analyse_files_spec (first :: others) empty_batch b Eb)
    as (_ & Hsp & _).
  simpl in Hsp. rewrite Hsp in H.
  destruct (legacy_fuse_measurements first others (room_types b))
    as (width & height & length & rt & rc & Hfuse & Gw & Gh & Gl & _).
  change (measurement (detect_defects first)
          :: map (fun f => measurement (detect_defects f)) others)
    with (map (fun f => measurement (detect_defects f)) (first :: others)) in H.
  rewrite Hfuse in H. cbv beta iota delta [bind] in H.
  injection H as <-. cbn [spatial_data f_width f_height f_length f_area].
  split; [exact Gw|]. split; [exact Gh|]. split; [exact Gl|reflexivity].
Qed.

Lemma legacy_reconstruct_room_sides_witness :
  greatest_of width_of [crack_scene; bedroom_scene]
    (f_width (spatial_data
       (answer (main_legacy.reconstruct_room [crack_scene; bedroom_scene]))))
  /\ greatest_of height_of [crack_scene; bedroom_scene]
       (f_height (spatial_data
          (answer (main_legacy.reconstruct_room [crack_scene; bedroom_scene]))))
  /\ greatest_of length_of [crack_scene; bedroom_scene]
       (f_length (spatial_data
          (answer (main_legacy.reconstruct_room [crack_scene; bedroom_scene]))))
  /\ f_area (spatial_data
       (answer (main_legacy.reconstruct_room [crack_scene; bedroom_scene])))
     = round (area_of crack_scene) 2.
Proof.
  apply (legacy_reconstruct_room_sides crack_scene [bedroom_scene]).
  reflexivity.
Defined.

End LegacyCoverage.

(** ** The second-stage verdict of gemini_verifier.py *)

Section VerdictCoverage.

Import gemini_verifier Verdicts.

Lemma rank_cases (s : string) :
  (rank s = 0%Z /\ (known s -> s = "none"%string))
  \/ (s = "minor"%string /\ rank s = 1%Z)
  \/ (s = "moderate"%string /\ rank s = 2%Z)
  \/ (s = "severe"%string /\ rank s = 3%Z).
Proof.
  destruct (String.eqb "none" s) eqn:E0.
  { apply String.eqb_eq in E0. subst s. left. now split. }
  destruct (String.eqb "minor" s) eqn:E1.
  { apply String.eqb_eq in E1. subst s. right. left. now split. }
  destruct (String.eqb "moderate" s) eqn:E2.
  { apply String.eqb_eq in E2. subst s. right. right. left. now split. }
  destruct (String.eqb "severe" s) eqn:E3.
  { apply String.eqb_eq in E3. subst s. right. right. right. now split. }
  left. split.
  { unfold rank, severity_order. cbn [dict_get].
    now rewrite E0, E1, E2, E3. }
  apply String.eqb_neq in E0, E1, E2, E3.
  intros [H|[H|[H|[H|[]]]]]; congruence.
Qed.

Lemma rank_nonneg (s : string) : (0 <= rank s)%Z.
Proof.
  destruct (rank_cases s) as [[-> _]|[[_ ->]|[[_ ->]|[_ ->]]]]; lia.
Qed.

Lemma rank_positive_known (s : string) : (0 < rank s)%Z -> known s.
Proof.
  unfold known.
  destruct (rank_cases s) as [[H _]|[[-> _]|[[-> _]|[-> _]]]]; simpl; intro;
    try lia; tauto.
Qed.

(** On its four keys [severity_order] is one to one. *)
Lemma rank_injective (s t : string) :
  known s -> known t -> rank s = rank t -> s = t.
Proof.
  intros Hs Ht.
  destruct (rank_cases s) as [[Hs0 Hnone]|[[-> Hr]|[[-> Hr]|[-> Hr]]]];
    destruct (rank_cases t) as [[Ht0 Hnone']|[[-> Hr']|[[-> Hr']|[-> Hr']]]];
    intro H; try reflexivity; try (rewrite ?Hr, ?Hr', ?Hs0, ?Ht0 in H; lia).
  now rewrite (Hnone Hs), (Hnone' Ht).
Qed.

(** What the loop has accumulated after a list of paths. *)
Lemma loop_spec (paths : list image_path) :
  forall st : progress,
  known (max_severity st) ->
  let st' := fold_left step paths st in
  results st' = results st ++ map analysed (filter path_exists paths)
  /\ has_real_crack st' = has_real_crack st || existsb confirmed paths
  /\ known (max_severity st')
  /\ rank (max_severity st') = Z.max (rank (max_severity st)) (top_rank paths)
  /\ (max_severity st' = max_severity st
      \/ exists p, In p paths /\ confirmed p = true
                   /\ severity_of p = max_severity st').
Proof.
  induction paths as [|p paths IH]; intros st Hknown; cbv zeta.
  - simpl. rewrite app_nil_r, orb_false_r.
    repeat split; try assumption; [|now left].
    pose proof (rank_nonneg (max_severity st)). lia.
  - simpl fold_left.
    assert (Hstep :
      results (step st p)
      = results st ++ map analysed (filter path_exists [p])
      /\ has_real_crack (step st p) = has_real_crack st || confirmed p
      /\ known (max_severity (step st p))
      /\ rank (max_severity (step st p))
         = (if confirmed p
            then Z.max (rank (max_severity st)) (rank (severity_of p))
            else rank (max_severity st))
      /\ (max_severity (step st p) = max_severity st
          \/ (confirmed p = true /\ severity_of p = max_severity (step st p)))).
    { unfold step, confirmed, severity_of. simpl filter.
      destruct (path_exists p); simpl.
      - destruct (success (path_analysis p)
                  && get (is_real_crack (data (path_analysis p))) false);
          simpl.
        + destruct (Z.ltb_spec (rank (max_severity st))
                      (rank (get (severity (data (path_analysis p))) "none"%string)))
            as [Hlt|Hge]; simpl.
          * rewrite orb_true_r. repeat split; try lia; [|now right].
            apply rank_positive_known.
            pose proof (rank_nonneg (max_severity st)). lia.
          * rewrite orb_true_r. repeat split; try assumption; try lia.
            now left.
        + rewrite orb_false_r. repeat split; try assumption. now left.
      - rewrite app_nil_r, orb_false_r. repeat split; try assumption. now left. }
    destruct Hstep as (Hres & Hhas & Hkn & Hrank & Horigin).
    destruct (IH (step st p) Hkn) as (Hres' & Hhas' & Hkn' & Hrank' & Horigin').
    cbv zeta in Hres', Hhas', Hkn', Hrank', Horigin'.
    split; [|split; [|split; [|split]]].
    + rewrite Hres', Hres. simpl filter.
      destruct (path_exists p); simpl; now rewrite <- ?app_assoc, ?app_nil_r.
    + rewrite Hhas', Hhas. simpl existsb. now rewrite orb_assoc.
    + exact Hkn'.
    + rewrite Hrank', Hrank. simpl top_rank. destruct (confirmed p); lia.
    + destruct Horigin' as [Heq|(q & Hq & Hc & Hs)].
      * rewrite Heq. destruct Horigin as [Heq'|[Hc Hs]]; [now left|].
        right. exists p. split; [now left|]. now split.
      * right. exists q. split; [now right|]. now split.
Qed.

Lemma top_rank_bound (paths : list image_path) :
  (0 <= top_rank paths)%Z
  /\ forall p, In p paths -> confirmed p = true ->
                (rank (severity_of p) <= top_rank paths)%Z.
Proof.
  induction paths as [|q paths [IH0 IH]]; simpl.
  - split; [lia|]. intros p [].
  - split.
    + destruct (confirmed q); lia.
    + intros p [<-|Hp] Hc.
      * rewrite Hc. lia.
      * specialize (IH p Hp Hc). destruct (confirmed q); lia.
Qed.

Lemma top_rank_permutation (paths paths' : list image_path) :
  Permutation paths paths' -> top_rank paths = top_rank paths'.
Proof.
  induction 1; simpl.
  - reflexivity.
  - now rewrite IHPermutation.
  - destruct (confirmed x), (confirmed y); lia.
  - congruence.
Qed.

Lemma existsb_permutation {A : Type} (f : A -> bool) (l l' : list A) :
  Permutation l l' -> existsb f l = existsb f l'.
Proof.
  induction 1; simpl.
  - reflexivity.
  - now rewrite IHPermutation.
  - destruct (f x), (f y); reflexivity.
  - congruence.
Qed.

Lemma filter_permutation {A : Type} (f : A -> bool) (l l' : list A) :
  Permutation l l' -> List.length (filter f l) = List.length (filter f l').
Proof.
  induction 1; simpl.
  - reflexivity.
  - destruct (f x); simpl; now rewrite IHPermutation.
  - destruct (f x), (f y); reflexivity.
  - congruence.
Qed.

Lemma known_none : known "none".
Proof. now left. Qed.

Lemma verdict_summary (image_paths : list image_path) :
  v_has_real_crack (verify_property_images image_paths)
  = existsb confirmed image_paths
  /\ known (v_max_severity (verify_property_images image_paths)).
Proof.
  destruct (loop_spec image_paths start known_none) as (_ & Hhas & Hkn & _).
  split; [exact Hhas|exact Hkn].
Qed.

(** X19. [max_severity] of the verdict is always one of none, minor,
    moderate, severe, whatever labels Gemini answers with: a label outside
    [severity_order] ranks 0 and is never kept. It ranks at least as high as
    the severity of every confirmed image, and unless it is "none" it is the
    severity of a confirmed image. *)
Theorem verify_property_images_max_severity (image_paths : list image_path) :
  known (v_max_severity (verify_property_images image_paths))
  /\ (forall p, In p image_paths -> confirmed p = true ->
       (rank (severity_of p)
        <= rank (v_max_severity (verify_property_images image_paths)))%Z)
  /\ (v_max_severity (verify_property_images image_paths) <> "none"%string ->
      exists p, In p image_paths /\ confirmed p = true
                /\ severity_of p
                   = v_max_severity (verify_property_images image_paths)).
Proof.
  destruct (loop_spec image_paths start known_none)
    as (_ & _ & Hkn & Hrank & Horigin).
  unfold verify_property_images. simpl v_max_severity.
  split; [exact Hkn|]. split.
  - intros p Hp Hc. rewrite Hrank.
    pose proof (proj2 (top_rank_bound image_paths) p Hp Hc). lia.
  - intro Hne. destruct Horigin as [Heq|Hex]; [|exact Hex].
    now rewrite Heq in Hne.
Qed.

(** X20. The verdict reports a real crack exactly when some image is
    confirmed (exists, analysed successfully, flagged as a real crack). The
    recommendation is the good-condition sentence exactly when no image is
    confirmed, and the unspecific sentence exactly when images are confirmed
    but none carries one of the severities minor, moderate, severe. *)
Theorem verify_property_images_recommendation (image_paths : list image_path) :
  v_has_real_crack (verify_property_images image_paths)
  = existsb confirmed image_paths
  /\ (recommendation (verify_property_images image_paths)
      = "No structural issues detected. Property appears to be in good condition."%string
      <-> existsb confirmed image_paths = false)
  /\ (recommendation (verify_property_images image_paths)
      = "Cracks detected. Further inspection may be needed."%string
      <-> existsb confirmed image_paths = true /\ top_rank image_paths = 0%Z).
Proof.
  destruct (loop_spec image_paths start known_none)
    as (_ & Hhas & Hkn & Hrank & _).
  cbv zeta in Hhas, Hkn, Hrank. simpl in Hhas.
  unfold verify_property_images.
  cbn [v_has_real_crack recommendation]. rewrite Hhas.
  change (rank (max_severity start)) with 0%Z in Hrank.
  pose proof (proj1 (top_rank_bound image_paths)) as Htop.
  rewrite Z.max_r in Hrank by exact Htop.
  split; [reflexivity|].
  unfold get_recommendation.
  destruct (existsb confirmed image_paths); simpl negb; cbv iota.
  - destruct (rank_cases (max_severity (fold_left step image_paths start)))
      as [[H0 Hnone]|[[Hs Hr]|[[Hs Hr]|[Hs Hr]]]].
    + rewrite (Hnone Hkn). simpl. split; split; try discriminate; try reflexivity.
      * intros _. split; [reflexivity|]. congruence.
    + rewrite Hs. simpl. split; split; try discriminate.
      intros [_ H]. rewrite H in Hrank. rewrite Hr in Hrank. discriminate.
    + rewrite Hs. simpl. split; split; try discriminate.
      intros [_ H]. rewrite H in Hrank. rewrite Hr in Hrank. discriminate.
    + rewrite Hs. simpl. split; split; try discriminate.
      intros [_ H]. rewrite H in Hrank. rewrite Hr in Hrank. discriminate.
  - split; split; try reflexivity; try discriminate.
    intros [H _]. discriminate.
Qed.

(** X21. The verdict does not depend on the order of the paths, except for
    the order of [detailed_results]: a permutation of the paths gives the
    same count, the same flag, the same [max_severity] and the same
    recommendation. *)
Theorem verify_property_images_order (paths paths' : list image_path) :
  Permutation paths paths' ->
  images_analyzed (verify_property_images paths)
  = images_analyzed (verify_property_images paths')
  /\ v_has_real_crack (verify_property_images paths)
     = v_has_real_crack (verify_property_images paths')
  /\ v_max_severity (verify_property_images paths)
     = v_max_severity (verify_property_images paths')
  /\ recommendation (verify_property_images paths)
     = recommendation (verify_property_images paths').
Proof.
  intro Hperm.
  destruct (loop_spec paths start known_none)
    as (Hres & Hhas & Hkn & Hrank & _).
  destruct (loop_spec paths' start known_none)
    as (Hres' & Hhas' & Hkn' & Hrank' & _).
  cbv zeta in *.
  assert (Hsev : max_severity (fold_left step paths start)
                 = max_severity (fold_left step paths' start)).
  { apply rank_injective; try assumption.
    rewrite Hrank, Hrank'. now rewrite (top_rank_permutation _ _ Hperm). }
  assert (Hflag : has_real_crack (fold_left step paths start)
                  = has_real_crack (fold_left step paths' start)).
  { rewrite Hhas, Hhas'. now rewrite (existsb_permutation _ _ _ Hperm). }
  unfold verify_property_images.
  cbn [images_analyzed v_has_real_crack v_max_severity recommendation].
  rewrite Hsev, Hflag. repeat split.
  rewrite Hres, Hres'. simpl. rewrite !length_map.
  now apply filter_permutation.
Qed.

Lemma verify_property_images_order_witness :
  images_analyzed (verify_property_images [ceiling; wall; missing; floor_tiles])
  = images_analyzed (verify_property_images [wall; ceiling; missing; floor_tiles])
  /\ v_has_real_crack (verify_property_images [ceiling; wall; missing; floor_tiles])
     = v_has_real_crack (verify_property_images [wall; ceiling; missing; floor_tiles])
  /\ v_max_severity (verify_property_images [ceiling; wall; missing; floor_tiles])
     = v_max_severity (verify_property_images [wall; ceiling; missing; floor_tiles])
  /\ recommendation (verify_property_images [ceiling; wall; missing; floor_tiles])
     = recommendation (verify_property_images [wall; ceiling; missing; floor_tiles]).
Proof.
  apply (verify_property_images_order [ceiling; wall; missing; floor_tiles]
           [wall; ceiling; missing; floor_tiles]).
  apply perm_swap.
Defined.

(** X22. Paths that do not exist are passed over without a trace: the
    verdict is that of the existing paths alone, and [images_analyzed]
    counts them. *)
Theorem verify_property_images_existing (image_paths : list image_path) :
  verify_property_images image_paths
  = verify_property_images (filter path_exists image_paths)
  /\ images_analyzed (verify_property_images image_paths)
     = List.length (filter path_exists image_paths)
  /\ detailed_results (verify_property_images image_paths)
     = map analysed (filter path_exists image_paths).
Proof.
  assert (Hfold : forall st,
    fold_left step image_paths st
    = fold_left step (filter path_exists image_paths) st).
  { induction image_paths as [|p paths IH]; intro st; [reflexivity|].
    simpl. destruct (path_exists p) eqn:E.
    - simpl. apply IH.
    - rewrite <- IH. unfold step at 2. now rewrite E. }
  destruct (loop_spec image_paths start known_none) as (Hres & _).
  cbv zeta in Hres. simpl in Hres.
  split; [|split].
  - unfold verify_property_images. now rewrite Hfold.
  - unfold verify_property_images. cbn [images_analyzed].
    now rewrite Hres, length_map.
  - unfold verify_property_images. cbn [detailed_results]. exact Hres.
Qed.

End VerdictCoverage.

(** ** The property analysis of main.py *)

Section PropertyCoverage.

Import analyzer Vocabulary Samples Terms Cases.
Import gemini_verifier Verdicts main_property Dossier.

(** The entries flagged [isCrack] are the crack model's boxes. *)
Lemma crack_entries_count (sc : scene) (results : list result_entry)
  (sp : spatial) (calibrated : bool) (size : Z * Z) :
  detect_defects sc = Ok (results, sp, calibrated, size) ->
  List.length (filter is_crack_entry results)
  = match sc_img sc with
    | Some _ => List.length (sc_cracks sc)
    | None => 0%nat
    end.
Proof.
  intro H. destruct (sc_img sc) as [img|] eqn:Himg.
  - destruct (detect_defects_calibrated sc img _ _ _ _ Himg H) as [cal Hcal].
    destruct (detect_defects_after_calibration sc img cal Himg Hcal)
      as (results' & sp' & Hd & _ & Hres).
    rewrite Hd in H. injection H as <- _ _ _. subst results'.
    rewrite !filter_app, !length_app.
    rewrite count_object_entries by reflexivity.
    rewrite (count_crack_entries is_crack_entry true) by reflexivity.
    destruct (cal_a4_found cal); reflexivity.
  - unfold detect_defects in H. rewrite Himg in H. now injection H as <- _ _ _.
Qed.

(** What the loop over the photos gathers. *)
Lemma gather_spec (ps : list photo) :
  forall g g',
  gather g ps = Ok g' ->
  forallb (fun p => returned (detect_defects (photo_scene p)))
          (filter photo_exists ps) = true
  /\ all_spatial g'
     = all_spatial g
       ++ map (fun p => measurement (detect_defects (photo_scene p)))
              (filter photo_exists ps)
  /\ room_types g'
     = room_types g ++ map (fun p => vote_of (photo_scene p))
                           (filter photo_exists ps)
  /\ total_cracks g' = (total_cracks g + total_crack_boxes ps)%nat
  /\ all_detections g'
     = all_detections g
       ++ List.concat (map (fun p => entries (detect_defects (photo_scene p)))
                      (filter photo_exists ps)).
Proof.
  unfold total_crack_boxes.
  induction ps as [|p ps IH]; intros g g' H.
  - simpl in H. injection H as <-. simpl.
    rewrite !app_nil_r. repeat split. lia.
  - simpl in H. run_bind H g1 Eg.
    destruct (IH _ _ H) as (Hall & Hsp & Hrt & Hcr & Hdet).
    unfold gather_photo in Eg. simpl filter.
    destruct (photo_exists p) eqn:Hex.
    + unfold vote_of.
      destruct (detect_defects (photo_scene p))
        as [[[[detections sp] calibrated] size]|e] eqn:Hd; [|discriminate].
      simpl in Eg. injection Eg as <-. simpl in Hsp, Hrt, Hcr, Hdet.
      simpl. rewrite Hd. simpl.
      rewrite Hsp, Hrt, Hcr, Hdet, <- !app_assoc.
      rewrite (crack_entries_count _ _ _ _ _ Hd).
      unfold crack_boxes at 2.
      split; [exact Hall|]. split; [reflexivity|]. split; [reflexivity|].
      split; [lia|reflexivity].
    + injection Eg as <-. repeat split; assumption.
Qed.

Lemma gather_total (ps : list photo) :
  forall g,
  existsb raising_photo ps = false ->
  exists g', gather g ps = Ok g'.
Proof.
  induction ps as [|p ps IH]; intros g H; simpl.
  - now eexists.
  - simpl in H. apply orb_false_iff in H as [Hp Hrest].
    unfold gather_photo, raising_photo in *.
    destruct (photo_exists p); simpl in *.
    + pose proof (detect_defects_returned (photo_scene p)) as Hret.
      rewrite Hp in Hret.
      destruct (detect_defects (photo_scene p))
        as [[[[detections sp] calibrated] size]|e]; [|discriminate].
      simpl. now apply IH.
    + now apply IH.
Qed.

Lemma gather_raises (ps : list photo) :
  forall g,
  existsb raising_photo ps = true ->
  gather g ps = Raise ZeroDivisionError.
Proof.
  induction ps as [|p ps IH]; intros g H; simpl in H; [discriminate|].
  simpl. unfold gather_photo, raising_photo in *.
  destruct (photo_exists p); simpl in *.
  - destruct (detect_defects_error (photo_scene p)) as [Hiff Honly].
    destruct (detect_defects (photo_scene p))
      as [[[[detections sp] calibrated] size]|e] eqn:Hd.
    + simpl. apply IH.
      destruct (raising_scene (photo_scene p)); [|exact H].
      destruct Hiff as [_ Hiff]. specialize (Hiff eq_refl). discriminate.
    + simpl. now rewrite (Honly e eq_refl).
  - now apply IH.
Qed.

(** The fusion block on the measurements of the photos found on disk. *)
Lemma property_fuse_measurements (first : scene) (others : list scene)
  (rts : list (string * Q)) :
  exists rt rc,
    main.vote_room rts = Ok (rt, rc)
    /\ fuse (map (fun f => measurement (detect_defects f)) (first :: others)) rts
       = Ok {| estimated_area := area_of first;
               area_confidence := 0;
               estimation_method := "unknown";
               reference_object :=
                 sp_reference_object (measurement (detect_defects first));
               best_room_type := rt;
               room_confidence := rc |}.
Proof.
  destruct (vote_room_total rts) as ([rt rc] & Hvote).
  exists rt, rc. split; [exact Hvote|].
  unfold fuse.
  change (map (fun f => measurement (detect_defects f)) (first :: others))
    with (measurement (detect_defects first)
          :: map (fun f => measurement (detect_defects f)) others).
  set (l := measurement (detect_defects first)
            :: map (fun f => measurement (detect_defects f)) others).
  destruct (best_index (measurement (detect_defects first))
              (map (fun f => measurement (detect_defects f)) others))
    as (i & best & Hmax & Hbest & _ & Hbefore).
  fold l in Hmax, Hbest, Hbefore. unfold l at 1. rewrite Hmax.
  cbv beta iota delta [bind].
  assert (Hunrated : forall s, In s l -> area_confidence_of s = 0).
  { intros s Hs.
    change (In s (map (fun f => measurement (detect_defects f)) (first :: others)))
      in Hs.
    apply in_map_iff in Hs as (f & <- & _).
    unfold area_confidence_of. now rewrite (proj1 (measurement_unrated f)). }
  assert (Hi : i = 0%nat).
  { destruct i as [|i]; [reflexivity|exfalso].
    specialize (Hbefore 0%nat (measurement (detect_defects first))
                  (Nat.lt_0_succ i) eq_refl).
    rewrite (Hunrated best), (Hunrated (measurement (detect_defects first)))
      in Hbefore.
    - now apply Qlt_irrefl in Hbefore.
    - now left.
    - eapply nth_error_In, Hbest. }
  subst i. unfold index. simpl nth_error. cbv beta iota delta [bind].
  rewrite Hvote. cbv beta iota delta [bind].
  destruct (measurement_unrated first) as [-> ->]. reflexivity.
Qed.

Lemma fuse_gathered (ps : list photo) (g : gathered) (e : estimate) :
  gather nothing_gathered ps = Ok g ->
  fuse (all_spatial g) (room_types g) = Ok e ->
  estimated_area e = first_area ps
  /\ area_confidence e = 0
  /\ main.vote_room (map (fun p => vote_of (photo_scene p))
                         (filter photo_exists ps))
     = Ok (best_room_type e, room_confidence e)
  /\ estimation_method e
     = match filter photo_exists ps with
       | [] => "none"%string
       | _ :: _ => "unknown"%string
       end.
Proof.
  intros Hg Hf.
  destruct (gather_spec ps _ _ Hg) as (_ & Hsp & Hrt & _).
  simpl in Hsp, Hrt. rewrite Hsp, Hrt in Hf. unfold first_area.
  destruct (filter photo_exists ps) as [|p0 rest].
  - simpl in Hf. injection Hf as <-. now repeat split.
  - rewrite <- (map_map photo_scene
                  (fun f => measurement (detect_defects f))) in Hf.
    destruct (property_fuse_measurements (photo_scene p0)
                (map photo_scene rest)
                (map (fun p => vote_of (photo_scene p)) (p0 :: rest)))
      as (rt & rc & Hvote & Hfuse).
    change (map photo_scene (p0 :: rest))
      with (photo_scene p0 :: map photo_scene rest) in Hf.
    rewrite Hfuse in Hf. injection Hf as <-. now repeat split.
Qed.

Lemma fuse_gathered_total (ps : list photo) (g : gathered) :
  gather nothing_gathered ps = Ok g ->
  exists e, fuse (all_spatial g) (room_types g) = Ok e.
Proof.
  intro Hg. destruct (gather_spec ps _ _ Hg) as (_ & Hsp & Hrt & _).
  simpl in Hsp, Hrt. rewrite Hsp, Hrt.
  destruct (filter photo_exists ps) as [|p0 rest]; [now eexists|].
  rewrite <- (map_map photo_scene (fun f => measurement (detect_defects f))).
  destruct (property_fuse_measurements (photo_scene p0)
              (map photo_scene rest)
              (map (fun p => vote_of (photo_scene p)) (p0 :: rest)))
    as (rt & rc & _ & Hfuse).
  eexists. exact Hfuse.
Qed.

(** A relative difference above 15 percent, without the division. *)
Lemma percent_exceeds (c est : Q) :
  ~ c == 0 ->
  15 < Qabs (c - est) / c * 100
  <-> 0 < c /\ (est < 0.85 * c \/ 1.15 * c < est).
Proof.
  intro Hc.
  assert (Hq : Qabs (c - est) / c * c == Qabs (c - est)) by (field; exact Hc).
  set (q := Qabs (c - est) / c) in *. clearbody q.
  assert (Habs : (0 <= c - est /\ Qabs (c - est) == c - est)
                 \/ (c - est <= 0 /\ Qabs (c - est) == - (c - est))).
  { destruct (Qlt_le_dec (c - est) 0) as [Hneg|Hpos].
    - right. split; [lra|]. apply Qabs_neg. lra.
    - left. split; [exact Hpos|]. now apply Qabs_pos. }
  set (x := Qabs (c - est)) in *. clearbody x.
  destruct (Q_dec c 0) as [[Hlt|Hgt]|Heq]; [| |contradiction].
  - split.
    + intro H. exfalso. destruct Habs as [[H0 Hx]|[H0 Hx]]; nra.
    + intros [H _]. lra.
  - split.
    + intro H. split; [exact Hgt|].
      destruct Habs as [[H0 Hx]|[H0 Hx]]; [left|right]; nra.
    + intros [_ [H|H]]; destruct Habs as [[H0 Hx]|[H0 Hx]]; nra.
Qed.

(** The area comparison never raises; what it flags. *)
Lemma compare_area_spec (claimed : option Q) (est : Q) :
  exists flag ds,
    compare_area claimed est = Ok (flag, ds)
    /\ (flag = true
        <-> exists c, claimed = Some c /\ 0 < c /\ 0 < est
                      /\ (est < 0.85 * c \/ 1.15 * c < est))
    /\ (forall d, In d ds -> exists c e pc, d = AreaDiscrepancy c e pc)
    /\ (flag = false -> ds = []).
Proof.
  unfold compare_area. destruct claimed as [c|].
  2:{ exists false, []. split; [reflexivity|]. split; [|split; [intros d []|reflexivity]].
      split; [discriminate|]. intros (c & H & _). discriminate. }
  destruct (Qeq_bool c 0) eqn:Ec; cbv beta iota delta [negb andb].
  { apply Qeq_bool_iff in Ec.
    exists false, []. split; [reflexivity|]. split; [|split; [intros d []|reflexivity]].
    split; [discriminate|]. intros (c' & H & Hpos & _).
    injection H as <-. lra. }
  apply Qeq_bool_neq in Ec.
  destruct (Qltb 0 est) eqn:Ee.
  2:{ apply Qltb_ge in Ee.
      exists false, []. split; [reflexivity|]. split; [|split; [intros d []|reflexivity]].
      split; [discriminate|]. intros (c' & _ & _ & Hpos & _). lra. }
  apply Qltb_lt in Ee. rewrite (truediv_ok _ _ Ec). cbv beta iota delta [bind].
  destruct (Qltb 15 (Qabs (c - est) / c * 100)) eqn:Ed.
  - apply Qltb_lt, (percent_exceeds c est Ec) in Ed as [Hpos Hout].
    eexists true, _. split; [reflexivity|]. split; [|split].
    + split; [|reflexivity]. intros _. now exists c.
    + intros d [<-|[]]. now do 3 eexists.
    + discriminate.
  - apply Qltb_ge in Ed.
    exists false, []. split; [reflexivity|]. split; [|split; [intros d []|reflexivity]].
    split; [discriminate|]. intros (c' & H & Hpos & _ & Hout).
    injection H as <-.
    assert (H15 : 15 < Qabs (c - est) / c * 100)
      by (apply (percent_exceeds c est Ec); now split).
    exfalso. apply (Qlt_not_le _ _ H15 Ed).
Qed.

Lemma analyse_raises (GEMINI_AVAILABLE : bool) (row : property_row) :
  existsb raising_photo (photos row) = true ->
  analyse GEMINI_AVAILABLE row = Raise ZeroDivisionError.
Proof.
  intro H. unfold analyse. now rewrite (gather_raises _ _ H).
Qed.

Lemma analyse_total (GEMINI_AVAILABLE : bool) (row : property_row) :
  existsb raising_photo (photos row) = false ->
  exists r, analyse GEMINI_AVAILABLE row = Ok r.
Proof.
  intro H. unfold analyse.
  destruct (gather_total (photos row) nothing_gathered H) as [g Hg].
  rewrite Hg. cbv beta iota delta [bind].
  destruct (fuse_gathered_total _ _ Hg) as [e He]. rewrite He.
  cbv beta iota delta [bind].
  destruct (compare_area_spec (claimed_area row) (estimated_area e))
    as (flag & ds & -> & _).
  cbv beta iota delta [bind].
  destruct (0 <? total_cracks g)%nat; [|now eexists].
  destruct (second_stage GEMINI_AVAILABLE (photos row)
              (ds ++ [StructuralIssues (total_cracks g)])).
  now eexists.
Qed.

(** X23. How a call of the analysis ends. Without a row it raises the 404,
    with an empty photo list the 400, and neither commits anything. With
    photos it commits the status ai_analyzing first. If a photo found on
    disk is a raising image the ZeroDivisionError leaves the handler and
    ai_analyzing stays committed. Otherwise the outcome depends on the
    table: without the column ai_detections, as [init_db] creates it, the
    UPDATE that stores the analysis raises sqlite3.OperationalError and
    ai_analyzing stays committed; with the column the call returns and
    ai_complete is committed. *)
Theorem analyze_property_outcome (GEMINI_AVAILABLE : bool) (row : property_row) :
  analyze_property GEMINI_AVAILABLE None
  = (None, HTTPException 404 "Property not found")
  /\ (photos row = [] ->
      analyze_property GEMINI_AVAILABLE (Some row)
      = (None, HTTPException 400 "No photos uploaded"))
  /\ (photos row <> [] -> existsb raising_photo (photos row) = true ->
      analyze_property GEMINI_AVAILABLE (Some row)
      = (Some "ai_analyzing"%string, Uncaught ZeroDivisionError))
  /\ (photos row <> [] -> existsb raising_photo (photos row) = false ->
      ai_detections_column row = false ->
      analyze_property GEMINI_AVAILABLE (Some row)
      = (Some "ai_analyzing"%string, OperationalError))
  /\ (photos row <> [] -> existsb raising_photo (photos row) = false ->
      ai_detections_column row = true ->
      exists r, analyze_property GEMINI_AVAILABLE (Some row)
                = (Some "ai_complete"%string, Returned r)).
Proof.
  split; [reflexivity|]. unfold analyze_property. split; [|split; [|split]].
  - now intros ->.
  - intros Hne Hraise. destruct (photos row) eqn:E; [contradiction|].
    rewrite <- E in Hraise. now rewrite (analyse_raises _ _ Hraise).
  - intros Hne Hraise Hcol. destruct (photos row) eqn:E; [contradiction|].
    rewrite <- E in Hraise.
    destruct (analyse_total GEMINI_AVAILABLE row Hraise) as [r ->].
    now rewrite Hcol.
  - intros Hne Hraise Hcol. destruct (photos row) eqn:E; [contradiction|].
    rewrite <- E in Hraise.
    destruct (analyse_total GEMINI_AVAILABLE row Hraise) as [r ->].
    rewrite Hcol. now exists r.
Qed.

Ltac open_analyse H g Eg e Ee flag ds Ec :=
  unfold analyse in H; run_bind H g Eg; run_bind H e Ee;
  apply bind_ok in H; destruct H as ([flag ds] & Ec & H).

Lemma returned_analyse (GEMINI_AVAILABLE : bool) (row : property_row)
  (status : option string) (r : reply * property_update) :
  analyze_property GEMINI_AVAILABLE (Some row) = (status, Returned r) ->
  analyse GEMINI_AVAILABLE row = Ok r /\ status = Some "ai_complete"%string.
Proof.
  unfold analyze_property. destruct (photos row); [discriminate|].
  destruct (analyse GEMINI_AVAILABLE row); [|discriminate].
  destruct (ai_detections_column row); [|discriminate].
  intro H. injection H as <- <-. now split.
Qed.

Lemma second_stage_spec (GEMINI_AVAILABLE : bool) (ps : list photo)
  (ds : list discrepancy_detail) :
  filter photo_exists ps <> [] ->
  second_stage GEMINI_AVAILABLE ps ds
  = if GEMINI_AVAILABLE then
      let verdict :=
        verify_property_images (map photo_path (filter photo_exists ps)) in
      (if crack_confirmed ps then ds
       else ds ++ [SecondStageNote (v_max_severity verdict)],
       Some {| gemini_crack_is_real := crack_confirmed ps;
               gemini_crack_description := recommendation verdict;
               gemini_crack_severity := v_max_severity verdict;
               gemini_confidence := if crack_confirmed ps then 0.9 else 0.85 |})
    else (ds, None).
Proof.
  intro Hne. unfold second_stage, crack_confirmed.
  destruct GEMINI_AVAILABLE; [|reflexivity].
  destruct (filter photo_exists ps) as [|p0 rest] eqn:E; [contradiction|].
  cbv zeta.
  rewrite (proj1 (verdict_summary (map photo_path (p0 :: rest)))).
  reflexivity.
Qed.

Lemma total_crack_boxes_existing (ps : list photo) :
  (0 < total_crack_boxes ps)%nat -> filter photo_exists ps <> [].
Proof.
  unfold total_crack_boxes. intros H E. rewrite E in H. simpl in H. lia.
Qed.

(** X24. [cracks_detected] is the number of boxes the crack model reports on
    the readable photos found on disk. A single box sets the discrepancy
    flag and adds the structural-issues entry, whatever the area comparison
    gave; the stored crack flag is set exactly then. *)
Theorem analyze_property_cracks (GEMINI_AVAILABLE : bool) (row : property_row)
  (status : option string) (rep : reply) (upd : property_update) :
  analyze_property GEMINI_AVAILABLE (Some row) = (status, Returned (rep, upd)) ->
  cracks_detected (reply_analysis rep) = total_crack_boxes (photos row)
  /\ ai_crack_detected upd = (0 <? total_crack_boxes (photos row))%nat
  /\ ai_discrepancy_flag upd = has_discrepancy rep
  /\ ((0 < total_crack_boxes (photos row))%nat ->
      has_discrepancy rep = true
      /\ In (StructuralIssues (total_crack_boxes (photos row))) (details rep)).
Proof.
  intro H. apply returned_analyse in H as [H _].
  open_analyse H g Eg e Ee flag ds Ec.
  destruct (gather_spec _ _ _ Eg) as (_ & _ & _ & Hcr & _).
  simpl in Hcr. rewrite Hcr in H.
  destruct (0 <? total_crack_boxes (photos row))%nat eqn:Epos.
  - apply Nat.ltb_lt in Epos.
    rewrite (second_stage_spec _ _ _ (total_crack_boxes_existing _ Epos)) in H.
    destruct GEMINI_AVAILABLE; cbv zeta in H.
    + injection H as <- <-.
      cbn [cracks_detected reply_analysis ai_crack_detected ai_discrepancy_flag
           has_discrepancy details].
      repeat split.
      destruct (crack_confirmed (photos row)); rewrite ?in_app_iff; simpl; tauto.
    + injection H as <- <-.
      cbn [cracks_detected reply_analysis ai_crack_detected ai_discrepancy_flag
           has_discrepancy details].
      repeat split. rewrite in_app_iff. simpl. tauto.
  - injection H as <- <-.
    cbn [cracks_detected reply_analysis ai_crack_detected ai_discrepancy_flag
         has_discrepancy details].
    apply Nat.ltb_ge in Epos.
    split; [reflexivity|]. split; [reflexivity|]. split; [reflexivity|]. lia.
Qed.

Lemma analyze_property_cracks_witness :
  cracks_detected (reply_analysis (reply_of (analyze_property true (Some cracked_row))))
  = total_crack_boxes (photos cracked_row)
  /\ ai_crack_detected (update_of (analyze_property true (Some cracked_row)))
     = (0 <? total_crack_boxes (photos cracked_row))%nat
  /\ ai_discrepancy_flag (update_of (analyze_property true (Some cracked_row)))
     = has_discrepancy (reply_of (analyze_property true (Some cracked_row)))
  /\ ((0 < total_crack_boxes (photos cracked_row))%nat ->
      has_discrepancy (reply_of (analyze_property true (Some cracked_row))) = true
      /\ In (StructuralIssues (total_crack_boxes (photos cracked_row)))
            (details (reply_of (analyze_property true (Some cracked_row))))).
Proof.
  apply (analyze_property_cracks true cracked_row (Some "ai_complete"%string)).
  reflexivity.
Defined.

(** X25. The second stage never clears a discrepancy. With crack boxes
    found, Gemini is consulted exactly when it is available; its verdict is
    stored with confidence 0.9 when it confirms a crack and 0.85 when it does
    not, and in the latter case only a note is appended to the details: the
    flag stays set. Without crack boxes Gemini is not consulted. *)
Theorem analyze_property_second_stage (GEMINI_AVAILABLE : bool)
  (row : property_row) (status : option string) (rep : reply)
  (upd : property_update) :
  analyze_property GEMINI_AVAILABLE (Some row) = (status, Returned (rep, upd)) ->
  ((total_crack_boxes (photos row) = 0)%nat ->
   gemini upd = None
   /\ forall sev, ~ In (SecondStageNote sev) (details rep))
  /\ ((0 < total_crack_boxes (photos row))%nat ->
      has_discrepancy rep = true
      /\ (gemini upd = None <-> GEMINI_AVAILABLE = false)
      /\ (forall u, gemini upd = Some u ->
           gemini_crack_is_real u = crack_confirmed (photos row)
           /\ gemini_confidence u
              = (if crack_confirmed (photos row) then 0.9 else 0.85)
           /\ known (gemini_crack_severity u))
      /\ ((exists sev, In (SecondStageNote sev) (details rep))
          <-> GEMINI_AVAILABLE = true /\ crack_confirmed (photos row) = false)).
Proof.
  intro H. apply returned_analyse in H as [H _].
  open_analyse H g Eg e Ee flag ds Ec.
  destruct (gather_spec _ _ _ Eg) as (_ & _ & _ & Hcr & _).
  simpl in Hcr. rewrite Hcr in H.
  destruct (compare_area_spec (claimed_area row) (estimated_area e))
    as (flag' & ds' & Ec' & _ & Hds & _).
  rewrite Ec' in Ec. injection Ec as -> ->.
  assert (Hnote : forall sev, ~ In (SecondStageNote sev) ds).
  { intros sev Hin. destruct (Hds _ Hin) as (c & a & pc & Hd). discriminate. }
  destruct (0 <? total_crack_boxes (photos row))%nat eqn:Epos.
  - apply Nat.ltb_lt in Epos. split; [lia|]. intros _.
    rewrite (second_stage_spec _ _ _ (total_crack_boxes_existing _ Epos)) in H.
    destruct GEMINI_AVAILABLE; cbv zeta in H; injection H as <- <-;
      cbn [has_discrepancy details gemini].
    + split; [reflexivity|]. split; [split; discriminate|]. split.
      * intros u Hu. injection Hu as <-.
        cbn [gemini_crack_is_real gemini_confidence gemini_crack_severity].
        split; [reflexivity|]. split; [reflexivity|].
        apply verdict_summary.
      * destruct (crack_confirmed (photos row)); split.
        -- intros [sev Hin]. apply in_app_or in Hin as [Hin|[Hin|[]]];
             [now apply Hnote in Hin|discriminate].
        -- intros [_ Hc]. discriminate.
        -- intros _. now split.
        -- intros _. eexists. apply in_or_app. right. now left.
    + split; [reflexivity|]. split; [split; reflexivity|]. split.
      * intros u Hu. discriminate.
      * split; [|intros [Hg _]; discriminate].
        intros [sev Hin]. apply in_app_or in Hin as [Hin|[Hin|[]]];
          [now apply Hnote in Hin|discriminate].
  - apply Nat.ltb_ge in Epos. split; [|lia]. intros _.
    injection H as <- <-. cbn [has_discrepancy details gemini].
    split; [reflexivity|exact Hnote].
Qed.

Lemma analyze_property_second_stage_witness :
  ((total_crack_boxes (photos cracked_row) = 0)%nat ->
   gemini (update_of (analyze_property true (Some cracked_row))) = None
   /\ forall sev,
        ~ In (SecondStageNote sev)
             (details (reply_of (analyze_property true (Some cracked_row)))))
  /\ ((0 < total_crack_boxes (photos cracked_row))%nat ->
      has_discrepancy (reply_of (analyze_property true (Some cracked_row))) = true
      /\ (gemini (update_of (analyze_property true (Some cracked_row))) = None
          <-> true = false)
      /\ (forall u,
           gemini (update_of (analyze_property true (Some cracked_row))) = Some u ->
           gemini_crack_is_real u = crack_confirmed (photos cracked_row)
           /\ gemini_confidence u
              = (if crack_confirmed (photos cracked_row) then 0.9 else 0.85)
           /\ known (gemini_crack_severity u))
      /\ ((exists sev,
             In (SecondStageNote sev)
                (details (reply_of (analyze_property true (Some cracked_row)))))
          <-> true = true /\ crack_confirmed (photos cracked_row) = false)).
Proof.
  apply (analyze_property_second_stage true cracked_row
           (Some "ai_complete"%string)).
  reflexivity.
Defined.

(** X26. Without crack boxes the discrepancy flag is decided by the area
    alone. The estimate is the unrounded area of the first photo found on
    disk (0 when there is none), and the flag is set exactly when a positive
    area was claimed, the estimate is positive and it lies below 85 percent
    or above 115 percent of the claim; a claim of zero, a negative claim or a
    missing one never flags. *)
Theorem analyze_property_area_discrepancy (GEMINI_AVAILABLE : bool)
  (row : property_row) (status : option string) (rep : reply)
  (upd : property_update) :
  analyze_property GEMINI_AVAILABLE (Some row) = (status, Returned (rep, upd)) ->
  ai_estimated_area upd = first_area (photos row)
  /\ an_estimated_area (reply_analysis rep) = round (first_area (photos row)) 2
  /\ ((total_crack_boxes (photos row) = 0)%nat ->
      (has_discrepancy rep = true
       <-> exists claimed,
             claimed_area row = Some claimed /\ 0 < claimed
             /\ 0 < first_area (photos row)
             /\ (first_area (photos row) < 0.85 * claimed
                 \/ 1.15 * claimed < first_area (photos row)))
      /\ (has_discrepancy rep = false -> details rep = [])).
Proof.
  intro H. apply returned_analyse in H as [H _].
  open_analyse H g Eg e Ee flag ds Ec.
  destruct (gather_spec _ _ _ Eg) as (_ & _ & _ & Hcr & _).
  simpl in Hcr. rewrite Hcr in H.
  destruct (fuse_gathered _ _ _ Eg Ee) as (Harea & _).
  destruct (compare_area_spec (claimed_area row) (estimated_area e))
    as (flag' & ds' & Ec' & Hflag & _ & Hnone).
  rewrite Ec' in Ec. injection Ec as -> ->. rewrite Harea in Hflag.
  assert (Hest : ai_estimated_area upd = first_area (photos row)
                 /\ an_estimated_area (reply_analysis rep)
                    = round (first_area (photos row)) 2).
  { destruct (0 <? total_crack_boxes (photos row))%nat.
    - destruct (second_stage GEMINI_AVAILABLE (photos row)
                  (ds ++ [StructuralIssues (total_crack_boxes (photos row))])).
      injection H as <- <-. cbn. now rewrite Harea.
    - injection H as <- <-. cbn. now rewrite Harea. }
  destruct Hest as [Hest1 Hest2].
  split; [exact Hest1|]. split; [exact Hest2|].
  intro Hzero. rewrite Hzero in H. simpl in H. injection H as <- <-.
  cbn [has_discrepancy details]. split; [exact Hflag|exact Hnone].
Qed.

Lemma analyze_property_area_discrepancy_witness :
  ai_estimated_area (update_of (analyze_property true (Some bedroom_row)))
  = first_area (photos bedroom_row)
  /\ an_estimated_area
       (reply_analysis (reply_of (analyze_property true (Some bedroom_row))))
     = round (first_area (photos bedroom_row)) 2
  /\ ((total_crack_boxes (photos bedroom_row) = 0)%nat ->
      (has_discrepancy (reply_of (analyze_property true (Some bedroom_row))) = true
       <-> exists claimed,
             claimed_area bedroom_row = Some claimed /\ 0 < claimed
             /\ 0 < first_area (photos bedroom_row)
             /\ (first_area (photos bedroom_row) < 0.85 * claimed
                 \/ 1.15 * claimed < first_area (photos bedroom_row)))
      /\ (has_discrepancy (reply_of (analyze_property true (Some bedroom_row)))
          = false ->
          details (reply_of (analyze_property true (Some bedroom_row))) = [])).
Proof.
  apply (analyze_property_area_discrepancy true bedroom_row
           (Some "ai_complete"%string)).
  reflexivity.
Defined.

Lemma round_half_even_comp (q q' : Q) :
  q == q' -> round_half_even q = round_half_even q'.
Proof.
  intro H. unfold round_half_even. rewrite (Qfloor_comp _ _ H).
  assert (Hc : Qcompare (q - inject_Z (Qfloor q')) (1 # 2)
               = Qcompare (q' - inject_Z (Qfloor q')) (1 # 2)).
  { apply Qcompare_comp; [now rewrite H|reflexivity]. }
  now rewrite Hc.
Qed.

Lemma round_half_even_Z (n : Z) : round_half_even (inject_Z n) = n.
Proof.
  unfold round_half_even. rewrite Qfloor_Z.
  assert (Hlt : forall q : Q, q - q < 1 # 2) by (intro q; lra).
  assert (H : Qcompare (inject_Z n - inject_Z n) (1 # 2) = Lt)
    by apply Qlt_alt, Hlt.
  now rewrite H.
Qed.

(** A value rounded to one decimal, scaled by 100 and rounded again. *)
Lemma round_percent_again (x rc : Q) :
  rc == round x 1 -> round (rc * 100) 1 == 100 * round x 1.
Proof.
  unfold round. change (inject_Z (10 ^ Z.of_nat 1)) with 10.
  set (k := round_half_even (x * 10)). intro Hrc.
  assert (Hk : rc * 100 * 10 == inject_Z (k * 100)).
  { rewrite Hrc, inject_Z_mult. change (inject_Z 100) with 100. field. }
  rewrite (round_half_even_comp _ _ Hk), round_half_even_Z, inject_Z_mult.
  change (inject_Z 100) with 100. field.
Qed.

(** X27. The room confidence is scaled twice. The synthesizer already
    stores the classifier's probability as a percentage, and the analysis
    multiplies the voted value by 100 again: with one readable photo found on
    disk the reply carries 100 times that percentage (8000 for a probability
    of 0.8) and the stored ai_confidence is 50 times it. *)
Theorem analyze_property_room_confidence (GEMINI_AVAILABLE : bool)
  (row : property_row) (status : option string) (rep : reply)
  (upd : property_update) (p : photo) :
  analyze_property GEMINI_AVAILABLE (Some row) = (status, Returned (rep, upd)) ->
  filter photo_exists (photos row) = [p] ->
  sc_img (photo_scene p) <> None ->
  an_room_confidence (reply_analysis rep)
  == 100 * round (sc_room_confidence (photo_scene p) * 100) 1
  /\ ai_confidence upd
     == 50 * round (sc_room_confidence (photo_scene p) * 100) 1.
Proof.
  intros H Hone Himg. apply returned_analyse in H as [H _].
  open_analyse H g Eg e Ee flag ds Ec.
  destruct (gather_spec _ _ _ Eg) as (Hret & _).
  destruct (fuse_gathered _ _ _ Eg Ee) as (_ & Hzero & Hvote & _).
  rewrite Hone in Hret, Hvote. cbn [map forallb] in Hret, Hvote.
  rewrite andb_true_r in Hret.
  destruct (vote_room_spec [vote_of (photo_scene p)])
    as (label & total & Hvote' & Hlabel & Htotal & _); [discriminate|].
  rewrite Hvote' in Hvote. injection Hvote as _ Hrc.
  destruct Hlabel as [Hlabel|[]].
  unfold tally in Htotal. cbn [fold_right] in Htotal.
  rewrite Hlabel, String.eqb_refl in Htotal.
  assert (Hpercent : room_confidence e
                     == round (sc_room_confidence (photo_scene p) * 100) 1).
  { rewrite <- Hrc. simpl List.length. change (inject_Z (Z.of_nat 1)) with 1.
    rewrite Htotal. unfold vote_of. cbn [snd].
    destruct (detect_defects (photo_scene p))
      as [[[[results sp] calibrated] size]|err] eqn:Hd; [|discriminate].
    apply detect_defects_carried in Hd as (_ & _ & v & Hv & _ & Hsome).
    simpl. rewrite Hv. simpl. rewrite (Hsome Himg). field. }
  assert (Hrep : an_room_confidence (reply_analysis rep)
                 = round (room_confidence e * 100) 1
                 /\ ai_confidence upd
                    = (area_confidence e + room_confidence e * 100) / 2).
  { destruct (0 <? total_cracks g)%nat.
    - destruct (second_stage GEMINI_AVAILABLE (photos row)
                  (ds ++ [StructuralIssues (total_cracks g)])).
      injection H as <- <-. now split.
    - injection H as <- <-. now split. }
  destruct Hrep as [-> ->]. rewrite Hzero. split.
  - now apply round_percent_again.
  - rewrite Hpercent. field.
Qed.

Lemma analyze_property_room_confidence_witness :
  an_room_confidence
    (reply_analysis (reply_of (analyze_property true (Some bedroom_row))))
  == 100 * round (sc_room_confidence bedroom_scene * 100) 1
  /\ ai_confidence (update_of (analyze_property true (Some bedroom_row)))
     == 50 * round (sc_room_confidence bedroom_scene * 100) 1.
Proof.
  apply (analyze_property_room_confidence true bedroom_row
           (Some "ai_complete"%string) _ _
           (photo_of bedroom_scene (answer_of false "none")));
    [reflexivity|reflexivity|discriminate].
Defined.

Lemma gather_nothing (ps : list photo) (g : gathered) :
  filter photo_exists ps = [] -> gather g ps = Ok g.
Proof.
  induction ps as [|p ps IH]; intro H; [reflexivity|].
  simpl in *. unfold gather_photo.
  destruct (photo_exists p); [discriminate|]. simpl. now apply IH.
Qed.

(** X28. When none of the listed photos is found on disk the analysis
    stops nowhere before the UPDATE that stores it. On a table with the
    column ai_detections the call returns and commits ai_complete with an
    estimate of 0, method "none", room "unknown", no detections and no
    discrepancy, also when an area was claimed, and Gemini is not consulted;
    on a table without the column it ends in sqlite3.OperationalError with
    ai_analyzing left committed. *)
Theorem analyze_property_nothing_on_disk (GEMINI_AVAILABLE : bool)
  (row : property_row) :
  photos row <> [] ->
  filter photo_exists (photos row) = [] ->
  (ai_detections_column row = false ->
   analyze_property GEMINI_AVAILABLE (Some row)
   = (Some "ai_analyzing"%string, OperationalError))
  /\ (ai_detections_column row = true ->
      exists rep upd,
        analyze_property GEMINI_AVAILABLE (Some row)
        = (Some "ai_complete"%string, Returned (rep, upd))
        /\ has_discrepancy rep = false /\ details rep = []
        /\ cracks_detected (reply_analysis rep) = 0%nat
        /\ an_estimation_method (reply_analysis rep) = "none"%string
        /\ an_room_type (reply_analysis rep) = "unknown"%string
        /\ ai_estimated_area upd = 0 /\ ai_confidence upd == 0
        /\ ai_discrepancy_details upd = None /\ ai_detections upd = None
        /\ gemini upd = None).
Proof.
  intros Hne Hnone. unfold analyze_property.
  destruct (photos row) as [|p0 rest] eqn:E; [contradiction|].
  rewrite <- E in Hnone. unfold analyse.
  rewrite (gather_nothing _ _ Hnone). cbv beta iota delta [bind].
  simpl fuse. cbv beta iota delta [bind]. cbn [estimated_area].
  assert (Hcmp : compare_area (claimed_area row) 0 = Ok (false, [])).
  { unfold compare_area. destruct (claimed_area row) as [c|]; [|reflexivity].
    change (Qltb 0 0) with false. now rewrite andb_false_r. }
  rewrite Hcmp. cbv beta iota delta [bind]. simpl.
  split; intros ->; [reflexivity|].
  do 2 eexists. split; [reflexivity|]. cbn. repeat split.
Qed.

Lemma analyze_property_nothing_on_disk_witness :
  (ai_detections_column lost_row = false ->
   analyze_property true (Some lost_row)
   = (Some "ai_analyzing"%string, OperationalError))
  /\ (ai_detections_column lost_row = true ->
      exists rep upd,
        analyze_property true (Some lost_row)
        = (Some "ai_complete"%string, Returned (rep, upd))
        /\ has_discrepancy rep = false /\ details rep = []
        /\ cracks_detected (reply_analysis rep) = 0%nat
        /\ an_estimation_method (reply_analysis rep) = "none"%string
        /\ an_room_type (reply_analysis rep) = "unknown"%string
        /\ ai_estimated_area upd = 0 /\ ai_confidence upd == 0
        /\ ai_discrepancy_details upd = None /\ ai_detections upd = None
        /\ gemini upd = None).
Proof.
  apply (analyze_property_nothing_on_disk true lost_row);
    [discriminate|reflexivity].
Defined.

End PropertyCoverage.

(** ** Submission and payment *)

Section WorkflowCoverage.

Import models main_workflow.

Lemma VerificationTier_of_cases (value : string) :
  (value = "standard"%string /\ VerificationTier_of value = Ok STANDARD)
  \/ (value <> "standard"%string
      /\ VerificationTier_of value = Raise ValueError).
Proof.
  unfold VerificationTier_of. destruct (String.eqb value "standard") eqn:E.
  - apply String.eqb_eq in E. now left.
  - apply String.eqb_neq in E. now right.
Qed.

(** X29. A submission succeeds only with the tier "standard", the one value
    of the enum, and then records a fee of 1000. With any other tier, the
    form's default "basic" included, the property row is inserted and
    committed before the tier is looked up, the lookup raises, and the
    handler answers 500: the row stays in the database without a
    verification request or a log entry. *)
Theorem submit_property_tier (form : listing) (verification_tier : string)
  (lastrowid : Z) :
  ((exists r, snd (submit_property form verification_tier lastrowid) = Returned r)
   <-> verification_tier = "standard"%string)
  /\ (verification_tier = "standard"%string ->
      fst (submit_property form verification_tier lastrowid)
      = [InsertProperty form "standard" "pending";
         InsertVerificationRequest lastrowid "standard" 1000;
         InsertLog lastrowid "submitted" "Property submitted for verification"
                   "user"])
  /\ (verification_tier <> "standard"%string ->
      submit_property form verification_tier lastrowid
      = ([InsertProperty form verification_tier "pending"],
         ServerError ValueError))
  /\ submit_property form "basic" lastrowid
     = ([InsertProperty form "basic" "pending"], ServerError ValueError).
Proof.
  split; [|split; [|split]].
  - unfold submit_property.
    destruct (VerificationTier_of_cases verification_tier) as [[Hs ->]|[Hs ->]].
    + split; [now intros _|]. intros _. now eexists.
    + split; [|contradiction]. intros [r H]. discriminate.
  - intros ->. reflexivity.
  - intro Hne. unfold submit_property.
    destruct (VerificationTier_of_cases verification_tier) as [[Hs _]|[_ ->]];
      [contradiction|reflexivity].
  - reflexivity.
Qed.

(** X30. A payment is processed only for a property of tier "standard":
    the fee is 1000 and the property moves to document_review. For every
    other stored tier the enum lookup raises before any statement is
    executed, so the branch that assigns an inspector to a premium property
    is never reached: no returning call executes an inspector assignment. *)
Theorem process_payment_standard_only (property_id : Z) (row : option string)
  (payment_method payment_id : string) (inspector : option (Z * string)) :
  ((exists r,
      snd (process_payment property_id row payment_method payment_id inspector)
      = Returned r)
   <-> row = Some "standard"%string)
  /\ (forall r,
        snd (process_payment property_id row payment_method payment_id inspector)
        = Returned r ->
        r_amount r = 1000%Z /\ r_next_step r = "document_review"%string
        /\ fst (process_payment property_id row payment_method payment_id
                  inspector)
           = [UpdatePropertyStatus property_id "document_review";
              UpdateRequestPayment property_id "document_review" "completed"
                                   payment_id;
              InsertLog property_id "payment_completed"
                        (String.append "Payment request submitted via "
                                       payment_method) "user"])
  /\ existsb assigns_inspector
       (fst (process_payment property_id row payment_method payment_id inspector))
     = false
  /\ (forall tier, row = Some tier -> tier <> "standard"%string ->
        process_payment property_id row payment_method payment_id inspector
        = ([], Uncaught ValueError)).
Proof.
  destruct row as [tier|].
  2:{ split; [|split; [|split]].
      - split; [intros [r H]; discriminate|discriminate].
      - intros r H. discriminate.
      - reflexivity.
      - intros tier H. discriminate. }
  unfold process_payment.
  destruct (VerificationTier_of_cases tier) as [[-> ->]|[Hne ->]].
  - split; [|split; [|split]].
    + split; [reflexivity|]. intros _. now eexists.
    + intros r H. simpl in H. injection H as <-. now repeat split.
    + reflexivity.
    + intros tier H Hne. injection H as <-. contradiction.
  - split; [|split; [|split]].
    + split; [intros [r H]; discriminate|]. intro H. injection H as ->.
      contradiction.
    + intros r H. discriminate.
    + reflexivity.
    + reflexivity.
Qed.

End WorkflowCoverage.
